(** * Recommender.recommend: a shallow embedding of [recommend_from_song]

    The development follows src/Recommender/recommend.py line by line.

    - A pandas DataFrame is a row index (the row labels) and a list of
      labelled, typed columns.
    - float64 arithmetic is modelled by exact real arithmetic ([R]); a
      division whose divisor is zero (numpy: inf or NaN) is a fault of the
      numeric code, so that "no arithmetic error" is a statement that can
      fail.
    - [print] appends an event to the standard output, which is threaded
      through the function together with Python's exceptions.
    - The two scikit-learn calls and numpy's [argsort] are modelled from
      their documented behaviour (see [Sklearn] and [Numpy]).
    - A second embedding, [recommend_from_song_calling], takes the two
      scikit-learn calls and [argsort] as parameters: what is proved of it
      holds of the arrays that the libraries return, rounding included, and
      of every order that a sort kernel gives to equal scores. *)

From Stdlib Require Import Reals Lra Lia ZArith String Ascii Bool DecimalString.
From Stdlib Require Import List Permutation Sorted.
Import ListNotations.

(** * Python: exceptions, standard output, slices *)

Inductive exn : Type :=
| KeyError (key : string)
| ValueError (msg : string)
| IndexError
| FloatingPointError.

Inductive outcome (A : Type) : Type :=
| Return (a : A)
| Raise (e : exn).

Arguments Return {A} a.
Arguments Raise {A} e.

(** The typed content of a column. [None] is pandas' missing value (NaN). *)
Inductive ColData : Type :=
| Float64 (v : list (option R))
| Int64 (v : list Z)
| BoolCol (v : list bool)
| Object (v : list (option string)).

(** What the function prints, one constructor per [print] of the source. *)
Inductive event : Type :=
| PrintColumns (track_column artist_column : string)
| PrintLooking (song_name : string)
| PrintNotFound (song_name : string) (available_songs : ColData)
| PrintFeatures (feature_cols : list string)
| PrintGenerated (n_recs : nat) (song_name : string)
| PrintRecColumns (cols : list string).

Definition stdout : Type := list event.

(** Computations that print and may raise. *)
Definition M (A : Type) : Type := stdout -> outcome A * stdout.

Definition ret {A} (a : A) : M A := fun out => (Return a, out).

Definition raise {A} (e : exn) : M A := fun out => (Raise e, out).

Definition bind {A B} (c : M A) (k : A -> M B) : M B :=
  fun out =>
    match c out with
    | (Return a, out') => k a out'
    | (Raise e, out') => (Raise e, out')
    end.

Definition print (e : event) : M unit := fun out => (Return tt, out ++ [e]).

Definition lift_opt {A} (e : exn) (o : option A) : M A :=
  match o with
  | Some a => ret a
  | None => raise e
  end.

Declare Scope py_scope.
Delimit Scope py_scope with py.
Notation "x <- c ;; k" := (bind c (fun x => k))
  (at level 61, c at next level, right associativity) : py_scope.
Notation "c ;; k" := (bind c (fun _ => k))
  (at level 61, right associativity) : py_scope.

Fixpoint mapM {A B} (f : A -> option B) (l : list A) : option (list B) :=
  match l with
  | [] => Some []
  | x :: t =>
      match f x, mapM f t with
      | Some y, Some ys => Some (y :: ys)
      | _, _ => None
      end
  end.

(** [l[start:stop]] with Python's treatment of negative and large bounds. *)
Definition py_slice {A} (start stop : Z) (l : list A) : list A :=
  let len := Z.of_nat (length l) in
  let clamp i := if (i <? 0)%Z then Z.max 0 (i + len) else Z.min i len in
  let s := clamp start in
  let e := clamp stop in
  firstn (Z.to_nat (e - s)) (skipn (Z.to_nat s) l).

(** Order-preserving removal of repeated values ([Series.unique]). *)
Fixpoint dedup {A} (eqb : A -> A -> bool) (seen l : list A) : list A :=
  match l with
  | [] => []
  | x :: t =>
      if existsb (eqb x) seen then dedup eqb seen t
      else x :: dedup eqb (x :: seen) t
  end.

Definition opt_eqb {A} (eqb : A -> A -> bool) (a b : option A) : bool :=
  match a, b with
  | Some x, Some y => eqb x y
  | None, None => true
  | _, _ => false
  end.

Definition Reqb (x y : R) : bool := if Req_dec_T x y then true else false.

(** * pandas *)

Record Series : Type := mkSeries { label : string; data : ColData }.

Record DataFrame : Type := mkDF { index : list Z; columns : list Series }.

(** [pd.DataFrame()] *)
Definition empty_frame : DataFrame := mkDF [] [].

Definition col_len (d : ColData) : nat :=
  match d with
  | Float64 v => length v
  | Int64 v => length v
  | BoolCol v => length v
  | Object v => length v
  end.

(** [df[c]] *)
Definition getitem (df : DataFrame) (c : string) : M Series :=
  lift_opt (KeyError c) (find (fun s => String.eqb (label s) c) (columns df)).

(** [df[cs]] for a list of labels that all occur in [df]. *)
Definition getitem_list (df : DataFrame) (cs : list string) : list Series :=
  flat_map (fun c => filter (fun s => String.eqb (label s) c) (columns df)) cs.

(** [series.values == s] for a Python string [s]. *)
Definition eq_str (d : ColData) (s : string) : list bool :=
  match d with
  | Object v =>
      map (fun o => match o with Some t => String.eqb t s | None => false end) v
  | Float64 v => map (fun _ => false) v
  | Int64 v => map (fun _ => false) v
  | BoolCol v => map (fun _ => false) v
  end.

(** [s in series.values] *)
Definition contains (d : ColData) (s : string) : bool :=
  existsb (fun b => b) (eq_str d s).

(** [series.unique()[:10]] *)
Definition unique_head (d : ColData) : ColData :=
  match d with
  | Float64 v => Float64 (py_slice 0 10 (dedup (opt_eqb Reqb) [] v))
  | Int64 v => Int64 (py_slice 0 10 (dedup Z.eqb [] v))
  | BoolCol v => BoolCol (py_slice 0 10 (dedup Bool.eqb [] v))
  | Object v => Object (py_slice 0 10 (dedup (opt_eqb String.eqb) [] v))
  end.

(** [df.select_dtypes(include=['float64', 'int64']).columns] *)
Definition is_numeric (d : ColData) : bool :=
  match d with
  | Float64 _ | Int64 _ => true
  | BoolCol _ | Object _ => false
  end.

Definition numeric_columns (df : DataFrame) : list string :=
  map label (filter (fun s => is_numeric (data s)) (columns df)).

Definition str_in (c : string) (l : list string) : bool :=
  existsb (String.eqb c) l.

(** [df[mask].index] *)
Definition mask_index (df : DataFrame) (mask : list bool) : list Z :=
  map fst (filter snd (combine (index df) mask)).

(** [series.fillna(0)] read as a float64 vector. Text cannot be converted
    (scikit-learn raises ValueError). *)
Definition fillna0 (d : ColData) : option (list R) :=
  match d with
  | Float64 v => Some (map (fun o => match o with Some x => x | None => 0%R end) v)
  | Int64 v => Some (map IZR v)
  | BoolCol v => Some (map (fun b : bool => if b then 1%R else 0%R) v)
  | Object _ => None
  end.

(** Positional selection of the rows [idx] of one column. *)
Definition take {A} (l : list A) (idx : list nat) : option (list A) :=
  mapM (nth_error l) idx.

Definition take_data (d : ColData) (idx : list nat) : option ColData :=
  match d with
  | Float64 v => option_map Float64 (take v idx)
  | Int64 v => option_map Int64 (take v idx)
  | BoolCol v => option_map BoolCol (take v idx)
  | Object v => option_map Object (take v idx)
  end.

(** [df.iloc[idx]]: IndexError when a position is out of range. *)
Definition iloc (df : DataFrame) (idx : list nat) : option DataFrame :=
  match take (index df) idx,
        mapM (fun s => option_map (mkSeries (label s)) (take_data (data s) idx))
             (columns df) with
  | Some ix, Some cs => Some (mkDF ix cs)
  | _, _ => None
  end.

(** [df[c] = d]: replace the column in place when the label exists,
    append it otherwise. *)
Fixpoint set_column (cs : list Series) (c : string) (d : ColData) : list Series :=
  match cs with
  | [] => [mkSeries c d]
  | s :: t =>
      if String.eqb (label s) c then mkSeries c d :: t
      else s :: set_column t c d
  end.

Definition setitem (df : DataFrame) (c : string) (d : ColData) : DataFrame :=
  mkDF (index df) (set_column (columns df) c d).

(** * scikit-learn, in exact arithmetic

    [StandardScaler] and [cosine_similarity] as documented: population
    mean and variance per column, a scale or a norm of zero replaced by 1
    before the division. The tolerances that the library applies to
    float64 values when it tests for zero are read as exact tests. *)

Module Sklearn.

Local Open Scope R_scope.

(** A 2-d float array, as its list of rows. *)
Definition matrix : Type := list (list R).

(** Division: [None] when the divisor is zero. *)
Definition checked_div (x y : R) : option R :=
  if Req_dec_T y 0 then None else Some (x / y).

Fixpoint Rsum (v : list R) : R :=
  match v with
  | [] => 0
  | x :: t => x + Rsum t
  end.

Definition column (X : matrix) (j : nat) : list R := map (fun r => nth j r 0) X.

Definition n_features (X : matrix) : nat := length (hd [] X).

Definition mean (v : list R) : option R := checked_div (Rsum v) (INR (length v)).

(** The population variance (numpy's [var], ddof = 0). *)
Definition variance (v : list R) : option R :=
  match mean v with
  | Some m => mean (map (fun x => (x - m) * (x - m)) v)
  | None => None
  end.

(** [_handle_zeros_in_scale]: a zero scale is replaced by 1. *)
Definition handle_zeros_in_scale (s : R) : R := if Req_dec_T s 0 then 1 else s.

(** The fitted attributes of a [StandardScaler]. *)
Record StandardScaler : Type :=
  mkScaler { mean_ : list R; var_ : list R; scale_ : list R }.

Definition fit (X : matrix) : option StandardScaler :=
  let cols := map (column X) (seq 0 (n_features X)) in
  match mapM mean cols, mapM variance cols with
  | Some ms, Some vs =>
      Some (mkScaler ms vs (map (fun v => handle_zeros_in_scale (sqrt v)) vs))
  | _, _ => None
  end.

(** [(X - mean_) / scale_], column by column. *)
Definition transform (sc : StandardScaler) (X : matrix) : option matrix :=
  mapM (fun r =>
          mapM (fun c => checked_div (fst c - fst (snd c)) (snd (snd c)))
               (combine r (combine (mean_ sc) (scale_ sc))))
       X.

(** [check_array] refuses an array without samples or without features. *)
Definition check_array (X : matrix) : bool :=
  match X with
  | [] => false
  | [] :: _ => false
  | _ => true
  end.

Definition empty_array_msg : string := "Found array with 0 sample(s) or 0 feature(s)".

(** [StandardScaler().fit_transform(X)] *)
Definition fit_transform (X : matrix) : outcome matrix :=
  if check_array X then
    match fit X with
    | Some sc =>
        match transform sc X with
        | Some Y => Return Y
        | None => Raise FloatingPointError
        end
    | None => Raise FloatingPointError
    end
  else Raise (ValueError empty_array_msg).

Definition dot (u v : list R) : R :=
  Rsum (map (fun p => fst p * snd p) (combine u v)).

(** The Euclidean norm of a row. *)
Definition row_norm (r : list R) : R := sqrt (Rsum (map (fun x => x * x) r)).

(** [normalize]: each row divided by its norm, a zero norm replaced by 1. *)
Definition normalize_row (r : list R) : option (list R) :=
  mapM (fun x => checked_div x (handle_zeros_in_scale (row_norm r))) r.

Definition normalize (X : matrix) : option matrix := mapM normalize_row X.

(** [cosine_similarity(X, Y)]: entry (i, j) is the dot product of the
    normalized row i of X with the normalized row j of Y. *)
Definition cosine_similarity (X Y : matrix) : outcome matrix :=
  if check_array X && check_array Y then
    match normalize X, normalize Y with
    | Some Xn, Some Yn => Return (map (fun x => map (dot x) Yn) Xn)
    | _, _ => Raise FloatingPointError
    end
  else Raise (ValueError empty_array_msg).

End Sklearn.

(** * numpy *)

Module Numpy.

(** [a.argsort()]: the positions of [a] in ascending order of value. The
    default kind (introsort) sorts a range of at most 16 elements by
    insertion, so that equal values stay in the order of their positions.
    This insertion sort is the model, for every length. The general
    theorems use only that the result is a permutation of the positions in
    ascending order of value ([NumpyFacts]); the order of equal values
    matters for the two calls on [catalog_pairs] alone, which has four
    rows. *)
Fixpoint insert (key : nat -> R) (i : nat) (l : list nat) : list nat :=
  match l with
  | [] => [i]
  | j :: t =>
      if Rle_dec (key i) (key j) then i :: j :: t
      else j :: insert key i t
  end.

Fixpoint sort_indices (key : nat -> R) (l : list nat) : list nat :=
  match l with
  | [] => []
  | i :: t => insert key i (sort_indices key t)
  end.

Definition argsort (a : list R) : list nat :=
  sort_indices (fun i => nth i a 0%R) (seq 0 (length a)).

(** [a[i]] for an integer [i]; a negative [i] counts from the end. *)
Definition getitem {A} (a : list A) (i : Z) : option A :=
  let n := Z.of_nat (length a) in
  if ((0 <=? i) && (i <? n))%Z then nth_error a (Z.to_nat i)
  else if ((- n <=? i) && (i <? 0))%Z then nth_error a (Z.to_nat (i + n))
  else None.

(** [df.values]: the rows of a frame given by its columns. *)
Definition to_rows (n_rows : nat) (cols : list (list R)) : Sklearn.matrix :=
  map (fun i => map (fun c => nth i c 0%R) cols) (seq 0 n_rows).

End Numpy.

(** * Recommender/features.py *)

Definition FEATURE_COLS : list string :=
  [ "danceability"; "energy"; "key"; "loudness"; "mode"; "speechiness";
    "acousticness"; "instrumentalness"; "liveness"; "valence"; "tempo";
    "duration_ms" ]%string.

Definition get_feature_columns : list string := FEATURE_COLS.

(** * Recommender/recommend.py *)

Definition track_column : string := "song".
Definition artist_column : string := "artist".

Definition exclude_cols : list string :=
  [ "artist"; "song"; "duration_ms"; "explicit"; "year"; "popularity";
    "genre" ]%string.

Definition fallback_exclude : list string := [ "year"; "popularity" ]%string.

Definition no_features_msg : string :=
  "No numeric features found for recommendations".

Definition not_a_number_msg : string := "could not convert string to float".

(** Line 23: [[col for col in numeric_cols if col not in exclude_cols]] *)
Definition primary_features (numeric_cols : list string) : list string :=
  filter (fun c => negb (str_in c exclude_cols)) numeric_cols.

(** Line 29: [[col for col in numeric_cols if col not in ['year', 'popularity']]] *)
Definition fallback_features (numeric_cols : list string) : list string :=
  filter (fun c => negb (str_in c fallback_exclude)) numeric_cols.

Definition is_nil {A} (l : list A) : bool :=
  match l with
  | [] => true
  | _ => false
  end.

(** Lines 21-29: the feature columns that are scored. *)
Definition feature_schema (df : DataFrame) : list string :=
  let numeric_cols := numeric_columns df in
  let feature_cols := primary_features numeric_cols in
  if is_nil feature_cols then fallback_features numeric_cols else feature_cols.

(** [s.replace(' ', '%20')] *)
Fixpoint replace_spaces (s : string) : string :=
  match s with
  | EmptyString => EmptyString
  | String c t =>
      if Ascii.eqb c " "%char then String.append "%20" (replace_spaces t)
      else String c (replace_spaces t)
  end.

Definition lift_outcome {A} (o : outcome A) : M A := fun out => (o, out).

Fixpoint forM {A B} (f : A -> M B) (l : list A) : M (list B) :=
  match l with
  | [] => ret []
  | x :: t => (y <- f x ;; ys <- forM f t ;; ret (y :: ys))%py
  end.

Section Recommender.

(** Python's [str] of a float, which the model of float64 by [R] cannot
    compute. *)
Variable float_str : R -> string.

(** [str(series.iloc[i])] *)
Definition cell_str (d : ColData) (i : nat) : option string :=
  match d with
  | Float64 v =>
      option_map (fun o => match o with
                           | Some x => float_str x
                           | None => "nan"%string
                           end) (nth_error v i)
  | Int64 v =>
      option_map (fun z => NilZero.string_of_int (Z.to_int z)) (nth_error v i)
  | BoolCol v =>
      option_map (fun b : bool => if b then "True"%string else "False"%string)
                 (nth_error v i)
  | Object v =>
      option_map (fun o => match o with
                           | Some s => s
                           | None => "nan"%string
                           end) (nth_error v i)
  end.

(** [row[c]] formatted in an f-string, for the row at position [i]. *)
Definition row_field (df : DataFrame) (i : nat) (c : string) : M string :=
  (s <- getitem df c ;;
   lift_opt IndexError (cell_str (data s) i))%py.

(** Lines 58-61: the lambda applied to the row at position [i]. *)
Definition spotify_link (df : DataFrame) (i : nat) : M (option string) :=
  (artist <- row_field df i "artist" ;;
   song <- row_field df i "song" ;;
   ret (Some (replace_spaces
                (String.append "https://open.spotify.com/search/"
                   (String.append artist (String.append "%20" song))))))%py.

Definition recommend_from_song (song_name : string) (df : DataFrame) (n : Z)
  : M DataFrame :=
  (print (PrintColumns track_column artist_column) ;;
   print (PrintLooking song_name) ;;
   tracks <- getitem df track_column ;;
   if negb (contains (data tracks) song_name) then
     print (PrintNotFound song_name (unique_head (data tracks))) ;;
     ret empty_frame
   else
     let numeric_cols := numeric_columns df in
     let feature_cols := primary_features numeric_cols in
     print (PrintFeatures feature_cols) ;;
     let feature_cols :=
       if is_nil feature_cols then fallback_features numeric_cols
       else feature_cols in
     if is_nil feature_cols then raise (ValueError no_features_msg)
     else
       numeric_df <- lift_opt (ValueError not_a_number_msg)
                       (mapM fillna0 (map data (getitem_list df feature_cols))) ;;
       features_scaled <- lift_outcome
                            (Sklearn.fit_transform
                               (Numpy.to_rows (length (index df)) numeric_df)) ;;
       idx <- lift_opt IndexError
                (hd_error (mask_index df (eq_str (data tracks) song_name))) ;;
       target_vector <- lift_opt IndexError (Numpy.getitem features_scaled idx) ;;
       K <- lift_outcome
              (Sklearn.cosine_similarity [target_vector] features_scaled) ;;
       sims <- lift_opt IndexError (hd_error K) ;;
       let similar_indices :=
         py_slice 1 (n + 1) (rev (Numpy.argsort sims)) in
       recs <- lift_opt IndexError (iloc df similar_indices) ;;
       similarity <- lift_opt IndexError (take sims similar_indices) ;;
       let recs := setitem recs "similarity" (Float64 (map Some similarity)) in
       links <- forM (spotify_link recs) (seq 0 (length (index recs))) ;;
       let recs := setitem recs "spotify_link" (Object links) in
       print (PrintGenerated (length (index recs)) song_name) ;;
       print (PrintRecColumns (map label (columns recs))) ;;
       ret recs)%py.

End Recommender.

(** * The values computed by a call that succeeds

    The definitions of this part name the intermediate values of
    [recommend_from_song]; [recommend_from_song_found] below proves that a
    valid call computes exactly these. *)

Module Exact.

Import Sklearn.
Local Open Scope R_scope.

Definition mean_of (v : list R) : R := Rsum v / INR (length v).

Definition var_of (v : list R) : R :=
  mean_of (map (fun x => (x - mean_of v) * (x - mean_of v)) v).

(** The standard deviation of a column, and the divisor used for it. *)
Definition std_of (v : list R) : R := sqrt (var_of v).

Definition scale_of (v : list R) : R := handle_zeros_in_scale (std_of v).

Definition columns_of (X : matrix) : list (list R) :=
  map (column X) (seq 0 (n_features X)).

(** The matrix returned by [fit_transform]. *)
Definition standardize (X : matrix) : matrix :=
  map (fun r =>
         map (fun c => (fst c - fst (snd c)) / snd (snd c))
             (combine r (combine (map mean_of (columns_of X))
                                 (map scale_of (columns_of X)))))
      X.

Definition unit_row (r : list R) : list R :=
  map (fun x => x / handle_zeros_in_scale (row_norm r)) r.

(** The row of scores returned by [cosine_similarity([q], Y)[0]]. *)
Definition cosine_row (q : list R) (Y : matrix) : list R :=
  map (dot (unit_row q)) (map unit_row Y).

End Exact.

(** The float vector of a numeric column after [fillna(0)]. *)
Definition column_vector (s : Series) : list R :=
  match fillna0 (data s) with
  | Some v => v
  | None => []
  end.

(** [df[feature_cols].fillna(0)] as a numpy array. *)
Definition feature_matrix (df : DataFrame) : Sklearn.matrix :=
  Numpy.to_rows (length (index df))
                (map column_vector (getitem_list df (feature_schema df))).

(** The mask [df['song'] == song_name]. *)
Definition song_mask (df : DataFrame) (song_name : string) : list bool :=
  match find (fun s => String.eqb (label s) track_column) (columns df) with
  | Some tracks => eq_str (data tracks) song_name
  | None => []
  end.

Fixpoint first_true (mask : list bool) : nat :=
  match mask with
  | [] => 0
  | true :: _ => 0
  | false :: t => S (first_true t)
  end.

(** The position of the query row: the first row whose title matches. *)
Definition query_position (song_name : string) (df : DataFrame) : nat :=
  first_true (song_mask df song_name).

(** [sims] *)
Definition similarities (song_name : string) (df : DataFrame) : list R :=
  let Y := Exact.standardize (feature_matrix df) in
  Exact.cosine_row (nth (query_position song_name df) Y []) Y.

(** [similar_indices] *)
Definition similar_indices (song_name : string) (df : DataFrame) (n : Z)
  : list nat :=
  py_slice 1 (n + 1) (rev (Numpy.argsort (similarities song_name df))).

(** The rows of a frame at the given positions. *)
Definition rows_at (df : DataFrame) (idx : list nat) : DataFrame :=
  mkDF (map (fun i => nth i (index df) 0%Z) idx)
       (map (fun s =>
               mkSeries (label s)
                        match take_data (data s) idx with
                        | Some d => d
                        | None => data s
                        end)
            (columns df)).

(** The identifiers (titles) and the scores of a result. *)
Definition column_data (df : DataFrame) (c : string) : option ColData :=
  option_map data (find (fun s => String.eqb (label s) c) (columns df)).

Definition range_index (n : nat) : list Z := map Z.of_nat (seq 0 n).

Fixpoint distinct (l : list string) : bool :=
  match l with
  | [] => true
  | c :: t => negb (str_in c t) && distinct t
  end.

Definition has_column (df : DataFrame) (c : string) : bool :=
  existsb (fun s => String.eqb (label s) c) (columns df).

(** A catalog as the loader hands it over (it ends with
    [reset_index(drop=True)]): a RangeIndex 0..N-1, columns of N cells, no
    label twice. *)
Definition well_formed (df : DataFrame) : bool :=
  (if list_eq_dec Z.eq_dec (index df) (range_index (length (index df)))
   then true else false)
  && forallb (fun s => Nat.eqb (col_len (data s)) (length (index df)))
             (columns df)
  && distinct (map label (columns df)).

(** A valid call: the catalog is well formed, has an artist column, holds
    the query title in its title column and has a feature column. *)
Definition valid_call (song_name : string) (df : DataFrame) : bool :=
  well_formed df
  && existsb (fun b => b) (song_mask df song_name)
  && has_column df artist_column
  && negb (is_nil (feature_schema df)).

Section Results.

Variable float_str : R -> string.

Definition field_text (df : DataFrame) (i : nat) (c : string) : string :=
  match column_data df c with
  | Some d =>
      match cell_str float_str d i with
      | Some s => s
      | None => EmptyString
      end
  | None => EmptyString
  end.

(** The text of the link of the row at position [i]. *)
Definition link_text (df : DataFrame) (i : nat) : option string :=
  Some (replace_spaces
          (String.append "https://open.spotify.com/search/"
             (String.append (field_text df i "artist")
                (String.append "%20" (field_text df i "song"))))).

(** The selected rows with their [similarity] column. *)
Definition scored_rows (song_name : string) (df : DataFrame) (n : Z)
  : DataFrame :=
  let sims := similarities song_name df in
  let sel := similar_indices song_name df n in
  setitem (rows_at df sel) "similarity"
          (Float64 (map Some (map (fun i => nth i sims 0%R) sel))).

(** The frame returned when the query title is found. *)
Definition recommendations (song_name : string) (df : DataFrame) (n : Z)
  : DataFrame :=
  let recs := scored_rows song_name df n in
  setitem recs "spotify_link"
          (Object (map (link_text recs) (seq 0 (length (index recs))))).

(** What is printed when the query title is found. *)
Definition found_output (song_name : string) (df : DataFrame) (n : Z)
  : list event :=
  let recs := recommendations song_name df n in
  [ PrintColumns track_column artist_column;
    PrintLooking song_name;
    PrintFeatures (primary_features (numeric_columns df));
    PrintGenerated (length (index recs)) song_name;
    PrintRecColumns (map label (columns recs)) ].

(** What is printed when the query title is not found. *)
Definition not_found_output (song_name : string) (tracks : Series)
  : list event :=
  [ PrintColumns track_column artist_column;
    PrintLooking song_name;
    PrintNotFound song_name (unique_head (data tracks)) ].

End Results.

(** A matrix with [F] entries in every row. *)
Definition regular (F : nat) (X : Sklearn.matrix) : Prop :=
  Forall (fun r => length r = F) X.

(** * Recommender/data.py, lines 151-174: the features the loader reports *)

Definition audio_feature_columns : list string :=
  [ "danceability"; "energy"; "key"; "loudness"; "mode"; "speechiness";
    "acousticness"; "instrumentalness"; "liveness"; "valence"; "tempo";
    "duration_ms" ]%string.

Definition non_feature_cols : list string :=
  [ "id"; "duration_ms"; "year"; "popularity" ]%string.

(** [available_features] of [load_songs_from_csv]: the canonical features
    that are columns of the frame, else the other numeric columns. The
    loader prints the list and returns the frame unchanged. *)
Definition available_features (df : DataFrame) : list string :=
  let available :=
    filter (fun c => str_in c (map label (columns df))) audio_feature_columns in
  if is_nil available then
    filter (fun c => negb (str_in c non_feature_cols)) (numeric_columns df)
  else available.

(** * Catalogs used as concrete inputs *)

Definition text (l : list string) : ColData := Object (map Some l).

Definition floats (l : list R) : ColData := Float64 (map Some l).

(** Four songs with one feature: A2 has the features of A, D those of C. *)
Definition catalog_pairs : DataFrame :=
  mkDF [0; 1; 2; 3]%Z
       [ mkSeries "artist" (text ["a"; "b"; "c"; "d"]%string);
         mkSeries "song" (text ["A"; "A2"; "C"; "D"]%string);
         mkSeries "energy" (floats [1; 1; 3; 3]%R) ].

(** One song. *)
Definition catalog_single : DataFrame :=
  mkDF [0]%Z
       [ mkSeries "artist" (text ["a"]%string);
         mkSeries "song" (text ["A"]%string);
         mkSeries "energy" (floats [7]%R);
         mkSeries "tempo" (Int64 [120]%Z) ].

(** The columns of the shipped CSV that matter for the schema. *)
Definition catalog_schema : DataFrame :=
  mkDF [0; 1]%Z
       [ mkSeries "artist" (text ["a"; "b"]%string);
         mkSeries "song" (text ["A"; "B"]%string);
         mkSeries "duration_ms" (Int64 [211160; 167066]%Z);
         mkSeries "year" (Int64 [2000; 1999]%Z);
         mkSeries "danceability" (floats [0.5; 0.75]%R);
         mkSeries "plays" (Int64 [10; 20]%Z) ].

(** How the examples print a float. *)
Definition plain_float (x : R) : string := "0.0"%string.

(** Rows with equal scores keep their catalog order: of two result
    positions with the same score, the earlier holds the smaller row
    label. *)
Definition ties_in_catalog_order (rows : list Z) (scores : list R) : Prop :=
  forall a b,
    a < b < length rows ->
    nth a scores 0%R = nth b scores 0%R ->
    (nth a rows 0 < nth b rows 0)%Z.

(** * Cells *)

(** One cell of a frame, with the type of its column. *)
Inductive cell : Type :=
| CFloat (x : option R)
| CInt (z : Z)
| CBool (b : bool)
| CObject (s : option string).

(** [series.iloc[i]] *)
Definition cell_at (d : ColData) (i : nat) : option cell :=
  match d with
  | Float64 v => option_map CFloat (nth_error v i)
  | Int64 v => option_map CInt (nth_error v i)
  | BoolCol v => option_map CBool (nth_error v i)
  | Object v => option_map CObject (nth_error v i)
  end.

(** A catalog without numeric features: its only numeric column is the
    year. *)
Definition catalog_no_features : DataFrame :=
  mkDF [0; 1]%Z
       [ mkSeries "artist" (text ["a"; "b"]%string);
         mkSeries "song" (text ["A"; "B"]%string);
         mkSeries "year" (Int64 [1999; 2000]%Z) ].

(** Two songs that differ in their only feature. *)
Definition catalog_two : DataFrame :=
  mkDF [0; 1]%Z
       [ mkSeries "artist" (text ["a"; "b"]%string);
         mkSeries "song" (text ["A"; "B"]%string);
         mkSeries "energy" (floats [1; 3]%R) ].

(** The sum of the squares of a row. *)
Definition sum_squares (r : list R) : R :=
  Sklearn.Rsum (map (fun x => (x * x)%R) r).

(** * Python dictionaries with text keys

    The items in insertion order, no key twice; assigning to a key that
    is present replaces its value in place. *)

Definition dict (V : Type) : Type := list (string * V).

Fixpoint dict_set {V} (d : dict V) (k : string) (v : V) : dict V :=
  match d with
  | [] => [(k, v)]
  | (k', v') :: t =>
      if String.eqb k' k then (k', v) :: t else (k', v') :: dict_set t k v
  end.

(** [d.get(k)]; [d[k]] raises KeyError where this is [None]. *)
Definition dict_get {V} (d : dict V) (k : string) : option V :=
  option_map snd (find (fun kv => String.eqb (fst kv) k) d).

(** [k in d] *)
Definition dict_mem {V} (d : dict V) (k : string) : bool :=
  existsb (fun kv => String.eqb (fst kv) k) d.

(** [del d[k]] for a key that may be absent. *)
Definition dict_del {V} (d : dict V) (k : string) : dict V :=
  filter (fun kv => negb (String.eqb (fst kv) k)) d.

(** [{k: v for k, v in pairs}] *)
Definition dict_of {V} (pairs : list (string * V)) : dict V :=
  fold_left (fun d kv => dict_set d (fst kv) (snd kv)) pairs [].

(** * Recommender/recommend.py: the names offered in the dropdown *)

Section Dropdown.

Variable float_str : R -> string.

(** [row[c]] for the row at position [i] of [df.iterrows()]. The cells
    keep the types of their columns, as they do in a frame that has a text
    column. *)
Definition row_value (df : DataFrame) (i : nat) (c : string) : M cell :=
  (s <- getitem df c ;;
   lift_opt IndexError (cell_at (data s) i))%py.

(** [f"{row[track_column]} - {row[artist_column]}"] *)
Definition display_name (df : DataFrame) (i : nat) : M string :=
  (song <- row_field float_str df i track_column ;;
   artist <- row_field float_str df i artist_column ;;
   ret (String.append song (String.append " - " artist)))%py.

Definition get_available_songs (df : DataFrame) : M (list string) :=
  forM (display_name df) (seq 0 (length (index df))).

Definition get_song_mapping (df : DataFrame) : M (dict cell) :=
  (pairs <- forM (fun i =>
                    k <- display_name df i ;;
                    v <- row_value df i track_column ;;
                    ret (k, v))
                 (seq 0 (length (index df))) ;;
   ret (dict_of pairs))%py.

(** The display name of the row at position [i], when both columns are
    there. *)
Definition display_text (df : DataFrame) (i : nat) : string :=
  String.append (field_text float_str df i track_column)
                (String.append " - " (field_text float_str df i artist_column)).

End Dropdown.

(** The title cell of the row at position [i]. *)
Definition title_cell (df : DataFrame) (i : nat) : cell :=
  match column_data df track_column with
  | Some d =>
      match cell_at d i with
      | Some c => c
      | None => CObject None
      end
  | None => CObject None
  end.

(** A frame whose title and artist columns have one cell per row. *)
Definition has_titles (df : DataFrame) : bool :=
  match column_data df track_column, column_data df artist_column with
  | Some s, Some a =>
      Nat.eqb (col_len s) (length (index df))
      && Nat.eqb (col_len a) (length (index df))
  | _, _ => false
  end.

(** The pairs of [get_song_mapping], row by row. *)
Definition mapping_pairs (float_str : R -> string) (df : DataFrame)
  : list (string * cell) :=
  map (fun i => (display_text float_str df i, title_cell df i))
      (seq 0 (length (index df))).

(** Two rows with the same title, by different artists. *)
Definition catalog_covers : DataFrame :=
  mkDF [0; 1; 2]%Z
       [ mkSeries "artist" (text ["x"; "y"; "z"]%string);
         mkSeries "song" (text ["Hello"; "Stay"; "Hello"]%string);
         mkSeries "energy" (floats [1; 2; 3]%R) ].

(** * main.py, lines 84-85: from the selected display names to their rows *)

(** [s.split(sep)] for a separator that is not empty: the pieces between
    the occurrences of [sep], found from left to right. [skip] counts the
    characters of a found separator that are still to be passed, [cur] is
    the piece being read. *)
Fixpoint split_from (sep s : string) (skip : nat) (cur : string) : list string :=
  match s with
  | EmptyString => [cur]
  | String c t =>
      match skip with
      | S k => split_from sep t k cur
      | O =>
          if String.prefix sep s
          then cur :: split_from sep t (String.length sep - 1) EmptyString
          else split_from sep t 0 (String.append cur (String c EmptyString))
      end
  end.

(** [None] is the ValueError raised for an empty separator. *)
Definition py_split (sep s : string) : option (list string) :=
  match sep with
  | EmptyString => None
  | _ => Some (split_from sep s 0 EmptyString)
  end.

(** [sep in s] *)
Fixpoint occurs (sep s : string) : bool :=
  String.prefix sep s
  || match s with
     | EmptyString => false
     | String _ t => occurs sep t
     end.

(** Line 84: [[song.split(" - ")[0] for song in selected_songs]] *)
Definition selected_song_names (selected_songs : list string) : list string :=
  map (fun song => hd EmptyString (split_from " - " song 0 EmptyString))
      selected_songs.

(** [series.isin(names)] for a list of Python strings. *)
Definition isin (d : ColData) (names : list string) : list bool :=
  match d with
  | Object v =>
      map (fun o => match o with Some t => str_in t names | None => false end) v
  | Float64 v => map (fun _ => false) v
  | Int64 v => map (fun _ => false) v
  | BoolCol v => map (fun _ => false) v
  end.

(** The entries of [l] at the positions where [mask] is true. *)
Definition select {A} (mask : list bool) (l : list A) : list A :=
  map fst (filter snd (combine l mask)).

Definition select_data (mask : list bool) (d : ColData) : ColData :=
  match d with
  | Float64 v => Float64 (select mask v)
  | Int64 v => Int64 (select mask v)
  | BoolCol v => BoolCol (select mask v)
  | Object v => Object (select mask v)
  end.

(** [df[mask]] for a boolean mask with one entry per row. *)
Definition filter_rows (df : DataFrame) (mask : list bool) : DataFrame :=
  mkDF (select mask (index df))
       (map (fun s => mkSeries (label s) (select_data mask (data s)))
            (columns df)).

(** Lines 84-85: the frame handed to the playlist creation. *)
Definition selected_songs_df (df : DataFrame) (selected_songs : list string)
  : M DataFrame :=
  (let names := selected_song_names selected_songs in
   tracks <- getitem df "song" ;;
   ret (filter_rows df (isin (data tracks) names)))%py.

(** The part of [s] before the first occurrence of [sep], all of [s] when
    there is none. *)
Fixpoint before (sep s : string) : string :=
  if String.prefix sep s then EmptyString
  else match s with
       | EmptyString => EmptyString
       | String c t => String c (before sep t)
       end.

(** * Recommender/analytics.py *)

Definition analytics_exclude_cols : list string :=
  [ "artist"; "song"; "explicit"; "year"; "genre" ]%string.

(** [df.select_dtypes(include=[np.number])] keeps the int64 and float64
    columns, as [include=['float64', 'int64']] does. *)
Definition get_numeric_features (df : DataFrame) : list string :=
  filter (fun c => negb (str_in c analytics_exclude_cols)) (numeric_columns df).

(** A recommendation history: the queried titles with the number of rows
    returned for each. *)
Definition history : Type := list (string * nat).

Definition history_key : string := "recommendations_history".

(** [track_recommendation(base_song, recommendations, history_dict,
    max_history)], on a dictionary whose values are histories; the
    dictionary after the call is returned. [h[-m:]] is the slice from [-m]
    to the end. *)
Definition track_recommendation (base_song : string) (recommendations : DataFrame)
           (history_dict : dict history) (max_history : Z) : dict history :=
  let history_dict :=
    if negb (dict_mem history_dict history_key)
    then dict_set history_dict history_key []
    else history_dict in
  let h := match dict_get history_dict history_key with
           | Some h => h
           | None => []
           end in
  let h := h ++ [(base_song, length (index recommendations))] in
  let history_dict := dict_set history_dict history_key h in
  if (max_history <? Z.of_nat (length h))%Z
  then dict_set history_dict history_key
                (py_slice (- max_history) (Z.of_nat (length h)) h)
  else history_dict.

(** The calls of a session, one after the other. *)
Definition track_all (calls : list (string * DataFrame))
           (history_dict : dict history) (max_history : Z) : dict history :=
  fold_left (fun d call => track_recommendation (fst call) (snd call) d max_history)
            calls history_dict.

(** * Recommender/ui.py *)

(** [SpotifyUI._get_display_columns] *)
Definition get_display_columns (recs : DataFrame) : list string :=
  (if has_column recs "artist" then ["artist"%string] else [])
  ++ (if has_column recs "song" then ["song"%string] else [])
  ++ (if has_column recs "similarity" then ["similarity"%string] else [])
  ++ (if has_column recs "spotify_link" then ["spotify_link"%string] else []).

(** The last [m] entries of a list. *)
Definition lastn {A} (m : nat) (l : list A) : list A := skipn (length l - m) l.

(** * main.py, lines 49-60: a query from the page

    The keys of [st.session_state] which these lines touch: the history
    list, the stored recommendations and the stored title. *)

Record session : Type := mkSession {
  tracked : dict history;
  stored_recommendations : option DataFrame;
  stored_song : option string
}.

(** What the page shows after a query. *)
Inductive ui_message : Type :=
| ShowSuccess (found : nat)
| ShowWarning.

(** [df.empty]: one of the two axes has length 0. *)
Definition df_empty (df : DataFrame) : bool :=
  is_nil (index df) || is_nil (columns df).

Section MainPage.

Variable float_str : R -> string.

(** [selected_song_name] is [None] when the button was not pressed, a text
    title otherwise; an empty title is falsy. *)
Definition handle_recommendation (selected_song_name : option string)
           (df : DataFrame) (st : session) : M (session * list ui_message) :=
  match selected_song_name with
  | None => ret (st, [])
  | Some EmptyString => ret (st, [])
  | Some name =>
      (recs <- recommend_from_song float_str name df 10 ;;
       let st := mkSession (track_recommendation name recs (tracked st) 10)
                           (stored_recommendations st) (stored_song st) in
       if negb (df_empty recs)
       then ret (mkSession (tracked st) (Some recs) (Some name),
                 [ShowSuccess (length (index recs))])
       else ret (st, [ShowWarning]))%py
  end.

End MainPage.


(** * Recommender/login.py: the session keys of the login

    The values kept under these keys are Python objects of several types;
    [PClient] stands for a [spotipy.Spotify] object. *)

Inductive pyval : Type :=
| PNone
| PBool (b : bool)
| PStr (s : string)
| PClient (token : string).

(** The truth value of an object in a condition. *)
Definition truthy (v : pyval) : bool :=
  match v with
  | PNone => false
  | PBool b => b
  | PStr s => negb (String.eqb s EmptyString)
  | PClient _ => true
  end.

(** [d.get(k, default)] *)
Definition dict_get_default {V} (d : dict V) (k : string) (default : V) : V :=
  match dict_get d k with
  | Some v => v
  | None => default
  end.

Definition check_authentication (session_state : dict pyval)
  : pyval * pyval * pyval :=
  if truthy (dict_get_default session_state "authenticated" (PBool false))
  then (dict_get_default session_state "sp" PNone,
        dict_get_default session_state "user_id" PNone,
        dict_get_default session_state "display_name" PNone)
  else (PNone, PNone, PNone).

Definition logout (session_state : dict pyval) : dict pyval :=
  fold_left (fun st key => if dict_mem st key then dict_del st key else st)
            [ "sp"; "user_id"; "display_name"; "authenticated" ]%string
            session_state.

(** [render_login_page], lines 39-53, once [get_spotify_client] has
    returned [sp] and [sp.current_user()] has returned [current_user]:
    the new session and the triple returned. *)
Definition store_login (session_state : dict pyval) (sp : pyval)
           (current_user : dict pyval)
  : dict pyval * (pyval * pyval * pyval) :=
  let user_id := dict_get_default current_user "id" (PStr "Unknown User") in
  let display_name :=
    let d := dict_get_default current_user "display_name" PNone in
    if truthy d then d else user_id in
  let st := dict_set session_state "sp" sp in
  let st := dict_set st "user_id" user_id in
  let st := dict_set st "display_name" display_name in
  let st := dict_set st "authenticated" (PBool true) in
  (st, (sp, user_id, display_name)).

(** * Recommender/auth.py: the retry loop of [get_spotify_client] *)

(** What one pass through the body of the loop meets: the sanity check
    succeeds and gives the user's display name, [SpotifyOauthError] is
    raised, or another exception is. *)
Inductive attempt_result : Type :=
| Authenticated (display_name : string)
| OauthError (msg : string)
| OtherError (msg : string).

Inductive auth_event : Type :=
| PrintRedirectUri
| PrintTokenCache
| PrintLoggedIn (display_name : string)
| PrintScopes
| PrintOauthError (attempt : nat) (msg : string)
| PrintRetrying (delay : Z)
| Sleep (delay : Z)
| PrintFailed
| PrintUnexpected (msg : string).

(** How the call ends: with the client made in some attempt, with
    [sys.exit(1)], with the ValueError that [time.sleep] raises for a
    negative delay (it is raised inside the handler and leaves the
    function), or by falling off the end of the loop, which returns
    [None]. *)
Inductive auth_outcome : Type :=
| Client (attempt : nat)
| SystemExit (code : Z)
| SleepValueError
| ReturnsNone.

Section Auth.

(** What the attempt with a given number meets. *)
Variable attempts : nat -> attempt_result.

(** The passes [attempt, attempt + 1, ...] of the loop, [remaining] of
    them being left in [range(1, retries + 1)]. *)
Fixpoint auth_loop (retries : Z) (delay : Z) (remaining : nat) (attempt : nat)
  : auth_outcome * list auth_event :=
  match remaining with
  | O => (ReturnsNone, [])
  | S remaining' =>
      let started := [PrintRedirectUri; PrintTokenCache] in
      match attempts attempt with
      | Authenticated name =>
          (Client attempt, started ++ [PrintLoggedIn name; PrintScopes])
      | OauthError msg =>
          if (Z.of_nat attempt <? retries)%Z then
            if (delay <? 0)%Z then
              (SleepValueError,
               started ++ [PrintOauthError attempt msg; PrintRetrying delay])
            else
              let (r, out) := auth_loop retries delay remaining' (S attempt) in
              (r, started ++ [PrintOauthError attempt msg; PrintRetrying delay;
                              Sleep delay] ++ out)
          else
            (SystemExit 1, started ++ [PrintOauthError attempt msg; PrintFailed])
      | OtherError msg =>
          (SystemExit 1, started ++ [PrintUnexpected msg])
      end
  end.

Definition get_spotify_client (retries : Z) (delay : Z)
  : auth_outcome * list auth_event :=
  auth_loop retries delay (Z.to_nat retries) 1.

End Auth.

(** The time spent in [time.sleep]. *)
Definition slept (out : list auth_event) : Z :=
  fold_right (fun e t => match e with Sleep d => (d + t)%Z | _ => t end) 0%Z out.

(** The number of passes started. *)
Definition passes (out : list auth_event) : nat :=
  length (filter (fun e => match e with PrintRedirectUri => true | _ => false end)
                 out).


(** The attempts that raise [SpotifyOauthError]. *)
Definition is_oauth_error (r : attempt_result) : bool :=
  match r with
  | OauthError _ => true
  | _ => false
  end.

(** * Recommender/playlist_utils.py

    The Spotify client is given by what its three calls answer: a call
    either returns or raises an exception, of which the text [str(e)] is
    kept. *)

(** The dictionary returned by [user_playlist_create], as far as it is
    read: [playlist["id"]] and [playlist['external_urls']['spotify']].
    [None] and a dictionary without the key "id" take the same branch of
    line 51. *)
Record playlist : Type := mkPlaylist {
  playlist_id : option string;
  playlist_url : option string
}.

Inductive playlist_error : Type :=
| PlaylistKeyError (key : string)
| SpotifyException (msg : string).

(** The calls of the client and of Streamlit, in the order they are made. *)
Inductive playlist_event : Type :=
| CallCreate (user name description : string)
| CallSearch (q : string)
| CallAddItems (id : string) (items : list string)
| StWarningNoSongs
| StErrorCreate
| StSuccess (name : string)
| StWriteAdded (n : nat)
| StWarningFailed (n : nat)
| StWriteFailed (song : string)
| StMarkdownLink (url : string).

Record tally : Type := mkTally {
  uris : list string;
  added_songs : list string;
  failed_songs : list string
}.

(** [range(0, stop, step)] for a positive step. *)
Definition py_range (stop step : nat) : list nat :=
  map (fun k => k * step) (seq 0 ((stop + step - 1) / step)).

(** The slices [uris[i:i + batch_size]] of lines 57-58. *)
Definition batches {A} (batch_size : nat) (l : list A) : list (list A) :=
  map (fun i => py_slice (Z.of_nat i) (Z.of_nat (i + batch_size)) l)
      (py_range (length l) batch_size).

Section Playlists.

Variable float_str : R -> string.

(** [sp.user_playlist_create(user, name, public=False, description)] *)
Variable user_playlist_create : string -> string -> string -> string + playlist.

(** [sp.search(q, type='track', limit=1)]: the URIs of
    [results['tracks']['items']]. *)
Variable search : string -> string + list string.

(** [sp.playlist_add_items(playlist_id, items)]: [Some msg] when it raises. *)
Variable playlist_add_items : string -> list string -> option string.

(** [f"track:{song_name} artist:{artist_name}"] *)
Definition search_query (song_name artist_name : string) : string :=
  String.append "track:"
    (String.append song_name (String.append " artist:" artist_name)).

(** The body of the [try] statement and its handler, lines 33-45 and
    97-109, once the two names are read. *)
Definition search_song (song_name artist_name : string) (t : tally)
  : tally * list playlist_event :=
  let query := search_query song_name artist_name in
  let name := String.append song_name (String.append " - " artist_name) in
  (match search query with
   | inr (track_uri :: _) =>
       mkTally (uris t ++ [track_uri]) (added_songs t ++ [name]) (failed_songs t)
   | inr [] =>
       mkTally (uris t) (added_songs t) (failed_songs t ++ [name])
   | inl msg =>
       mkTally (uris t) (added_songs t)
               (failed_songs t
                ++ [String.append name
                      (String.append " (Error: " (String.append msg ")"))])
   end,
   [CallSearch query]).

(** Lines 28-31: a column that is missing gives a default name. *)
Definition song_or_unknown (df : DataFrame) (i : nat) : string :=
  if has_column df "song" then field_text float_str df i "song"
  else "Unknown Song".

Definition artist_or_unknown (df : DataFrame) (i : nat) : string :=
  if has_column df "artist" then field_text float_str df i "artist"
  else "Unknown Artist".

(** The loop of lines 28-45 over the rows at the given positions. *)
Fixpoint search_recommended (df : DataFrame) (rows : list nat) (t : tally)
  : tally * list playlist_event :=
  match rows with
  | [] => (t, [])
  | i :: rest =>
      let (t', ev) := search_song (song_or_unknown df i) (artist_or_unknown df i) t in
      let (t'', ev') := search_recommended df rest t' in
      (t'', ev ++ ev')
  end.

(** The loop of lines 92-109. [row['song']] raises KeyError when the
    column is missing; the handler reads it again, so that the error
    leaves the function. *)
Fixpoint search_selected (df : DataFrame) (rows : list nat) (t : tally)
  : (playlist_error + tally) * list playlist_event :=
  match rows with
  | [] => (inr t, [])
  | i :: rest =>
      if negb (has_column df "song") then (inl (PlaylistKeyError "song"), [])
      else if negb (has_column df "artist")
           then (inl (PlaylistKeyError "artist"), [])
      else
        let (t', ev) := search_song (field_text float_str df i "song")
                                    (field_text float_str df i "artist") t in
        let (r, ev') := search_selected df rest t' in
        (r, ev ++ ev')
  end.

(** Lines 57-59: one call per batch, until one raises. *)
Fixpoint add_batches (id : string) (bs : list (list string))
  : option string * list playlist_event :=
  match bs with
  | [] => (None, [])
  | b :: rest =>
      match playlist_add_items id b with
      | Some msg => (Some msg, [CallAddItems id b])
      | None =>
          let (r, ev) := add_batches id rest in
          (r, CallAddItems id b :: ev)
      end
  end.

(** Lines 47-72, and the same text at lines 111-136. *)
Definition fill_playlist (playlist_name : string) (pl : playlist) (t : tally)
  : (playlist_error + option string) * list playlist_event :=
  if is_nil (uris t) then (inr None, [StWarningNoSongs])
  else
    match playlist_id pl with
    | None => (inr None, [StErrorCreate])
    | Some id =>
        match add_batches id (batches 100 (uris t)) with
        | (Some msg, ev) => (inl (SpotifyException msg), ev)
        | (None, ev) =>
            let shown :=
              [StSuccess playlist_name; StWriteAdded (length (added_songs t))]
              ++ (if is_nil (failed_songs t) then []
                  else StWarningFailed (length (failed_songs t))
                       :: map StWriteFailed (failed_songs t)) in
            match playlist_url pl with
            | Some url => (inr (Some url), ev ++ shown ++ [StMarkdownLink url])
            | None => (inl (PlaylistKeyError "external_urls"), ev ++ shown)
            end
        end
    end.

Definition create_playlist_from_recommendations
           (user_id base_song : string) (rec_df : DataFrame)
  : (playlist_error + option string) * list playlist_event :=
  let playlist_name := String.append "Recommended from " base_song in
  let description :=
    String.append "Songs recommended based on '"
      (String.append base_song "' using Music Recommender.") in
  let created := CallCreate user_id playlist_name description in
  match user_playlist_create user_id playlist_name description with
  | inl msg => (inl (SpotifyException msg), [created])
  | inr pl =>
      let (t, ev) := search_recommended rec_df (seq 0 (length (index rec_df)))
                                        (mkTally [] [] []) in
      let (r, ev') := fill_playlist playlist_name pl t in
      (r, created :: ev ++ ev')
  end.

Definition create_playlist_from_selected_songs
           (user_id playlist_name description : string)
           (selected_songs_df : DataFrame)
  : (playlist_error + option string) * list playlist_event :=
  let created := CallCreate user_id playlist_name description in
  match user_playlist_create user_id playlist_name description with
  | inl msg => (inl (SpotifyException msg), [created])
  | inr pl =>
      match search_selected selected_songs_df
                            (seq 0 (length (index selected_songs_df)))
                            (mkTally [] [] []) with
      | (inl e, ev) => (inl e, created :: ev)
      | (inr t, ev) =>
          let (r, ev') := fill_playlist playlist_name pl t in
          (r, created :: ev ++ ev')
      end
  end.


End Playlists.







(** * Recommender/data.py: reading and cleaning the CSV file *)

(** The exceptions that leave the two functions. *)
Inductive load_error : Type :=
| CsvNotFound (csv_path : string) (available_files : list string)
                                    (* FileNotFoundError, line 72 *)
| NoCsvFile                         (* FileNotFoundError, line 137 *)
| ReadFailed (msg : string)         (* ValueError, line 79 *)
| NoColumn                          (* IndexError, [df.columns[0]] *)
| WriteFailed (msg : string)        (* raised by [to_csv] *)
| NoValidTracks                     (* ValueError, line 121 *)
| NoSuitableFeatures.               (* ValueError, line 174 *)

(** What the two functions print, and the file they write. *)
Inductive loader_event : Type :=
| PrintLoaded (rows cols : nat)
| PrintColumnList (cols : list string)
| PrintChecking (required_columns : list string)
| PrintActual (cols : list string)
| PrintMissingColumns (missing_columns : list string)
| PrintRemovedEmpty (removed_count : nat)
| PrintRemovedDuplicates (duplicate_count : nat)
| PrintFinal (rows : nat)
| WroteCsv (clean_path : string) (df : DataFrame)
| PrintSaved (clean_path : string)
| PrintLoading (csv_path : string)
| PrintMissingFeatures (missing_features : list string)
| PrintAvailable (available_features : list string)
| PrintAlternative (available_features : list string)
| PrintLoadedTracks (rows features : nat)
| PrintLoadError (e : load_error).

Definition L (A : Type) : Type :=
  list loader_event -> (load_error + A) * list loader_event.

Definition lret {A} (a : A) : L A := fun out => (inr a, out).

Definition lraise {A} (e : load_error) : L A := fun out => (inl e, out).

Definition lbind {A B} (c : L A) (k : A -> L B) : L B :=
  fun out =>
    match c out with
    | (inr a, out') => k a out'
    | (inl e, out') => (inl e, out')
    end.

Definition lprint (e : loader_event) : L unit := fun out => (inr tt, out ++ [e]).

(** [try: c except Exception as e: h(e); raise] *)
Definition lreraise {A} (c : L A) (h : load_error -> loader_event) : L A :=
  fun out =>
    match c out with
    | (inr a, out') => (inr a, out')
    | (inl e, out') => (inl e, out' ++ [h e])
    end.

Declare Scope load_scope.
Delimit Scope load_scope with load.
Notation "x <- c ;; k" := (lbind c (fun x => k))
  (at level 61, c at next level, right associativity) : load_scope.
Notation "c ;; k" := (lbind c (fun _ => k))
  (at level 61, right associativity) : load_scope.

(** [str.isspace] on one character. *)
Definition is_space (a : ascii) : bool :=
  let n := nat_of_ascii a in
  ((9 <=? n) && (n <=? 13)) || ((28 <=? n) && (n <=? 32))
  || (n =? 133) || (n =? 160).

Fixpoint lstrip (s : string) : string :=
  match s with
  | EmptyString => EmptyString
  | String a t => if is_space a then lstrip t else s
  end.

Fixpoint rstrip (s : string) : string :=
  match s with
  | EmptyString => EmptyString
  | String a t =>
      match rstrip t with
      | EmptyString => if is_space a then EmptyString else String a EmptyString
      | r => String a r
      end
  end.

(** [s.strip()] *)
Definition strip (s : string) : string := rstrip (lstrip s).

(** The cells of a column. *)
Definition cells (d : ColData) : list cell :=
  match d with
  | Float64 v => map CFloat v
  | Int64 v => map CInt v
  | BoolCol v => map CBool v
  | Object v => map CObject v
  end.

(** Equality of two cells as [drop_duplicates] sees it: missing values
    are equal to each other. *)
Definition cell_eqb (a b : cell) : bool :=
  match a, b with
  | CFloat (Some x), CFloat (Some y) => if Req_EM_T x y then true else false
  | CFloat None, CFloat None => true
  | CInt x, CInt y => Z.eqb x y
  | CBool x, CBool y => Bool.eqb x y
  | CObject (Some s), CObject (Some t) => String.eqb s t
  | CObject None, CObject None => true
  | _, _ => false
  end.

Fixpoint key_eqb (a b : list (option cell)) : bool :=
  match a, b with
  | [], [] => true
  | Some x :: a', Some y :: b' => cell_eqb x y && key_eqb a' b'
  | None :: a', None :: b' => key_eqb a' b'
  | _, _ => false
  end.

(** The rows of a list of columns, [n] of them. *)
Fixpoint rows_of {A} (n : nat) (cols : list (list A)) : list (list (option A)) :=
  match n with
  | O => []
  | S n' => map (@hd_error A) cols :: rows_of n' (map (@tl A) cols)
  end.

(** The values of a row in the columns [subset], row after row. *)
Definition row_keys (df : DataFrame) (subset : list string)
  : list (list (option cell)) :=
  rows_of (length (index df))
          (map (fun c => match column_data df c with
                         | Some d => cells d
                         | None => []
                         end) subset).

(** The rows that are not duplicates of an earlier one. *)
Fixpoint keep_first {K} (eqb : K -> K -> bool) (seen keys : list K) : list bool :=
  match keys with
  | [] => []
  | k :: t => negb (existsb (eqb k) seen) :: keep_first eqb (k :: seen) t
  end.

(** [df.drop_duplicates(subset=subset)] *)
Definition drop_duplicates (df : DataFrame) (subset : list string) : DataFrame :=
  filter_rows df (keep_first key_eqb [] (row_keys df subset)).

(** [df.reset_index(drop=True)] *)
Definition reset_index (df : DataFrame) : DataFrame :=
  mkDF (range_index (length (index df))) (columns df).

Definition required_columns : list string := [ "id"; "name"; "artist" ]%string.

(** Line 104 *)
Definition duplicate_cols (df : DataFrame) : option (list string) :=
  if has_column df "id" then Some ["id"%string]
  else if forallb (has_column df) ["name"; "artist"]%string
       then Some ["name"; "artist"]%string
  else option_map (fun s => [label s]) (hd_error (columns df)).

Section Loader.

Variable float_str : R -> string.

(** The files: [Path(p).exists()], the names of the CSV files beside a
    path ([None] when its folder does not exist), [pd.read_csv(p)] with the
    text of the exception it raises, the path of the cleaned copy, and
    [df.to_csv(p, index=False)] with the text of the exception it raises. *)
Variable path_exists : string -> bool.
Variable csv_files_beside : string -> option (list string).
Variable read_csv : string -> string + DataFrame.
Variable clean_path : string -> string.
Variable to_csv : string -> DataFrame -> option string.

(** [series.astype(str)], with object columns as pandas 1 and 2 have them:
    a missing value becomes the text nan. *)
Definition astype_str (d : ColData) : list string :=
  map (fun i => match cell_str float_str d i with
                | Some s => s
                | None => EmptyString
                end) (seq 0 (col_len d)).

(** [df["id"].astype(str).str.strip()] *)
Definition stripped_ids (d : ColData) : list string :=
  map strip (astype_str d).

(** Lines 95 and 98: the frame without the rows whose id is empty. *)
Definition clean_ids (df : DataFrame) (d : ColData) : DataFrame :=
  let ids := stripped_ids d in
  let df := setitem df "id" (Object (map Some ids)) in
  filter_rows df (map (fun s => 0 <? String.length s) ids).

Definition validate_and_clean_csv (csv_path : string) (save_clean_copy : bool)
  : L DataFrame :=
  if negb (path_exists csv_path) then
    lraise (CsvNotFound csv_path
                        match csv_files_beside csv_path with
                        | Some available_files => available_files
                        | None => []
                        end)
  else
    match read_csv csv_path with
    | inl msg => lraise (ReadFailed msg)
    | inr df =>
        (lprint (PrintLoaded (length (index df)) (length (columns df))) ;;
         lprint (PrintColumnList (map label (columns df))) ;;
         let missing_columns :=
           filter (fun c => negb (has_column df c)) required_columns in
         lprint (PrintChecking required_columns) ;;
         lprint (PrintActual (map label (columns df))) ;;
         (if negb (is_nil missing_columns)
          then lprint (PrintMissingColumns missing_columns) else lret tt) ;;
         df <- match column_data df "id" with
               | Some d =>
                   let initial_count := length (index df) in
                   let df := clean_ids df d in
                   let removed_count := initial_count - length (index df) in
                   (if 0 <? removed_count
                    then lprint (PrintRemovedEmpty removed_count) else lret tt) ;;
                   lret df
               | None => lret df
               end ;;
         match duplicate_cols df with
         | None => lraise NoColumn
         | Some cols =>
             let initial_count := length (index df) in
             let df := reset_index (drop_duplicates df cols) in
             let duplicate_count := initial_count - length (index df) in
             (if 0 <? duplicate_count
              then lprint (PrintRemovedDuplicates duplicate_count) else lret tt) ;;
             lprint (PrintFinal (length (index df))) ;;
             (if save_clean_copy then
                match to_csv (clean_path csv_path) df with
                | Some msg => lraise (WriteFailed msg)
                | None =>
                    lprint (WroteCsv (clean_path csv_path) df) ;;
                    lprint (PrintSaved (clean_path csv_path))
                end
              else lret tt) ;;
             if df_empty df then lraise NoValidTracks else lret df
         end)%load
    end.

(** [DEFAULT_CSV_PATH] is what [get_default_csv_path] returned when the
    module was loaded; the argument [sp] is not used. *)
Definition load_songs_from_csv (csv_path DEFAULT_CSV_PATH : option string)
  : L DataFrame :=
  match (match csv_path with
         | Some p => Some p
         | None => DEFAULT_CSV_PATH
         end) with
  | None => lraise NoCsvFile
  | Some csv_path =>
      (lprint (PrintLoading csv_path) ;;
       lreraise
         (df <- validate_and_clean_csv csv_path false ;;
          let available :=
            filter (fun c => str_in c (map label (columns df)))
                   audio_feature_columns in
          let missing_features :=
            filter (fun c => negb (str_in c (map label (columns df))))
                   audio_feature_columns in
          (if negb (is_nil missing_features)
           then lprint (PrintMissingFeatures missing_features) else lret tt) ;;
          lprint (PrintAvailable available) ;;
          (if is_nil available
           then lprint (PrintAlternative (available_features df)) else lret tt) ;;
          if is_nil (available_features df) then lraise NoSuitableFeatures
          else
            lprint (PrintLoadedTracks (length (index df))
                                      (length (available_features df))) ;;
            lret df)
         PrintLoadError)%load
  end.

End Loader.

(** A frame as pandas builds it: one cell per row in every column and no
    label twice ([read_csv] renames a repeated name). *)
Definition frame_ok (df : DataFrame) : bool :=
  forallb (fun s => Nat.eqb (col_len (data s)) (length (index df))) (columns df)
  && distinct (map label (columns df)).

(** The files written. *)
Definition files_written (out : list loader_event) : list (string * DataFrame) :=
  flat_map (fun e => match e with
                     | WroteCsv p df => [(p, df)]
                     | _ => []
                     end) out.


(** Lines 93-101: the frame after the rows with an empty id are removed. *)
Definition id_cleaned (float_str : R -> string) (df : DataFrame) : DataFrame :=
  match column_data df "id" with
  | Some d => clean_ids float_str df d
  | None => df
  end.

(** The number of rows a mask keeps. *)
Definition kept (mask : list bool) : nat := length (filter (fun b : bool => b) mask).

(** A frame on which the examples run the loader: two of its four ids are
    blank or missing, two are the same up to spaces. *)
Definition raw_songs : DataFrame :=
  mkDF [0; 1; 2; 3]%Z
       [ mkSeries "id" (Object [Some "a "; Some "  "; Some "a"; None]%string);
         mkSeries "song" (text ["A"; "B"; "C"; "D"]%string);
         mkSeries "energy" (floats [1; 2; 3; 4]%R) ].


(** Lines 93-108: the frame after cleaning, when it has a column. *)
Definition cleaned (float_str : R -> string) (df : DataFrame) : option DataFrame :=
  option_map (fun cols => reset_index (drop_duplicates (id_cleaned float_str df) cols))
             (duplicate_cols (id_cleaned float_str df)).


(** A text that does not begin with a space character. *)
Definition trimmed_left (s : string) : Prop :=
  match s with
  | EmptyString => True
  | String a _ => is_space a = false
  end.


(** What is left of [raw_songs] after cleaning. *)
Definition clean_songs : DataFrame :=
  mkDF [0; 1]%Z
       [ mkSeries "id" (text ["a"; "nan"]%string);
         mkSeries "song" (text ["A"; "D"]%string);
         mkSeries "energy" (floats [1; 4]%R) ].


(** The labels of the int64 and float64 columns of a frame whose label is
    not in [excluded], in the order of the columns. *)
Definition numeric_outside (excluded : list string) (df : DataFrame) : list string :=
  map label (filter (fun s => is_numeric (data s)
                              && negb (str_in (label s) excluded))
                    (columns df)).

(** * [recommend_from_song], the library calls taken as they return

    [StandardScaler().fit_transform], [cosine_similarity] and [argsort]
    compute on float64 arrays: every operation rounds, and the order that
    [argsort] gives to equal values depends on the kernel numpy selects.
    In this part the three calls are parameters, so that a statement
    proved here holds for whatever the libraries return, as long as the
    arrays hold neither NaN nor an infinity: a finite float64 value is a
    real number and floats are compared as the reals they are.
    [recommend_from_song] above is the instance with the functions of
    [Sklearn] and the insertion sort of [Numpy]. *)

Section LibraryCalls.

Variable float_str : R -> string.
Variable fit_transform : Sklearn.matrix -> outcome Sklearn.matrix.
Variable cosine_similarity :
  Sklearn.matrix -> Sklearn.matrix -> outcome Sklearn.matrix.
Variable argsort : list R -> list nat.

Definition recommend_from_song_calling
           (song_name : string) (df : DataFrame) (n : Z) : M DataFrame :=
  (print (PrintColumns track_column artist_column) ;;
   print (PrintLooking song_name) ;;
   tracks <- getitem df track_column ;;
   if negb (contains (data tracks) song_name) then
     print (PrintNotFound song_name (unique_head (data tracks))) ;;
     ret empty_frame
   else
     let numeric_cols := numeric_columns df in
     let feature_cols := primary_features numeric_cols in
     print (PrintFeatures feature_cols) ;;
     let feature_cols :=
       if is_nil feature_cols then fallback_features numeric_cols
       else feature_cols in
     if is_nil feature_cols then raise (ValueError no_features_msg)
     else
       numeric_df <- lift_opt (ValueError not_a_number_msg)
                       (mapM fillna0 (map data (getitem_list df feature_cols))) ;;
       features_scaled <- lift_outcome
                            (fit_transform
                               (Numpy.to_rows (length (index df)) numeric_df)) ;;
       idx <- lift_opt IndexError
                (hd_error (mask_index df (eq_str (data tracks) song_name))) ;;
       target_vector <- lift_opt IndexError (Numpy.getitem features_scaled idx) ;;
       K <- lift_outcome (cosine_similarity [target_vector] features_scaled) ;;
       sims <- lift_opt IndexError (hd_error K) ;;
       let similar_indices := py_slice 1 (n + 1) (rev (argsort sims)) in
       recs <- lift_opt IndexError (iloc df similar_indices) ;;
       similarity <- lift_opt IndexError (take sims similar_indices) ;;
       let recs := setitem recs "similarity" (Float64 (map Some similarity)) in
       links <- forM (spotify_link float_str recs)
                     (seq 0 (length (index recs))) ;;
       let recs := setitem recs "spotify_link" (Object links) in
       print (PrintGenerated (length (index recs)) song_name) ;;
       print (PrintRecColumns (map label (columns recs))) ;;
       ret recs)%py.

(** The frame returned for the scores [sims] and the positions [sel]. *)
Definition recommendations_of (df : DataFrame) (sims : list R) (sel : list nat)
  : DataFrame :=
  let recs := setitem (rows_at df sel) "similarity"
                      (Float64 (map Some (map (fun i => nth i sims 0%R) sel))) in
  setitem recs "spotify_link"
          (Object (map (link_text float_str recs) (seq 0 (length (index recs))))).

End LibraryCalls.

(** What numpy promises of [argsort], whatever the kernel: the positions
    of the array, each once, in ascending order of value. *)
Definition sorts_ascending (argsort : list R -> list nat) : Prop :=
  forall a,
    Permutation (argsort a) (seq 0 (length a)) /\
    StronglySorted (fun i j => (nth i a 0 <= nth j a 0)%R) (argsort a).


(** What a call that succeeds prints, given the frame it returns. *)
Definition printed_for (song_name : string) (df recs : DataFrame) : list event :=
  [ PrintColumns track_column artist_column;
    PrintLooking song_name;
    PrintFeatures (primary_features (numeric_columns df));
    PrintGenerated (length (index recs)) song_name;
    PrintRecColumns (map label (columns recs)) ].



(** * Auxiliary facts on lists *)

Lemma mapM_some {A B} (f : A -> option B) (g : A -> B) (l : list A) :
  (forall x, In x l -> f x = Some (g x)) -> mapM f l = Some (map g l).
Proof.
  induction l as [|x t IH]; intros H; simpl; [reflexivity|].
  rewrite (H x (or_introl eq_refl)), IH; [reflexivity|].
  intros y Hy. apply H. now right.
Qed.

Lemma mapM_length {A B} (f : A -> option B) (l : list A) (l' : list B) :
  mapM f l = Some l' -> length l' = length l.
Proof.
  revert l'. induction l as [|x t IH]; intros l'; simpl.
  - intros [= <-]. reflexivity.
  - destruct (f x); [|discriminate].
    destruct (mapM f t) as [ys|]; [|discriminate].
    intros [= <-]. simpl. now rewrite (IH ys).
Qed.

Lemma take_some {A} (d : A) (l : list A) (idx : list nat) :
  Forall (fun i => i < length l) idx ->
  take l idx = Some (map (fun i => nth i l d) idx).
Proof.
  intros H. unfold take. apply mapM_some.
  intros i Hi. rewrite Forall_forall in H.
  now apply nth_error_nth'; apply H.
Qed.

Lemma py_slice_tail {A} (n : Z) (l : list A) :
  (0 <= n)%Z -> py_slice 1 (n + 1) l = firstn (Z.to_nat n) (skipn 1 l).
Proof.
  intros Hn. unfold py_slice.
  replace (1 <? 0)%Z with false by reflexivity.
  replace (n + 1 <? 0)%Z with false by (symmetry; apply Z.ltb_ge; lia).
  destruct l as [|x t].
  - simpl. now rewrite !firstn_nil.
  - assert (Hlen : (1 <= Z.of_nat (length (x :: t)))%Z) by (simpl; lia).
    rewrite (Z.min_l 1) by exact Hlen.
    change (Z.to_nat 1) with 1%nat.
    destruct (Z.le_ge_cases (n + 1) (Z.of_nat (length (x :: t)))) as [Hle|Hge].
    + rewrite Z.min_l by exact Hle. f_equal. lia.
    + rewrite Z.min_r by lia.
      assert (Hs : length (skipn 1 (x :: t)) = length t) by reflexivity.
      assert (Hc : length (x :: t) = S (length t)) by reflexivity.
      rewrite !firstn_all2; [reflexivity| |]; lia.
Qed.

Lemma py_slice_tail_length {A} (n : Z) (l : list A) :
  (1 <= n)%Z -> l <> [] ->
  Z.of_nat (length (py_slice 1 (n + 1) l)) = Z.min n (Z.of_nat (length l) - 1).
Proof.
  intros Hn Hl. rewrite py_slice_tail by lia.
  rewrite length_firstn, length_skipn.
  destruct l; [contradiction|]. simpl length. lia.
Qed.

Lemma firstn_incl {A} (k : nat) (l : list A) (x : A) :
  In x (firstn k l) -> In x l.
Proof.
  revert l. induction k as [|k IH]; intros [|a t]; simpl; try tauto.
  intros [->|H]; [now left|right; now apply IH].
Qed.

Lemma skipn_incl {A} (k : nat) (l : list A) (x : A) :
  In x (skipn k l) -> In x l.
Proof.
  revert l. induction k as [|k IH]; intros [|a t]; simpl; try tauto.
  intros H. right. now apply IH.
Qed.

Lemma StronglySorted_app {A} (le : A -> A -> Prop) (l1 l2 : list A) :
  StronglySorted le l1 -> StronglySorted le l2 ->
  (forall x y, In x l1 -> In y l2 -> le x y) ->
  StronglySorted le (l1 ++ l2).
Proof.
  induction l1 as [|a t IH]; intros H1 H2 H12; simpl; [exact H2|].
  inversion H1 as [|? ? Ht Ha]; subst.
  constructor.
  - apply IH; auto. intros x y Hx Hy. apply H12; [now right|exact Hy].
  - apply Forall_app. split; [exact Ha|].
    apply Forall_forall. intros y Hy. apply H12; [now left|exact Hy].
Qed.

Lemma StronglySorted_rev {A} (le : A -> A -> Prop) (l : list A) :
  StronglySorted le l -> StronglySorted (fun x y => le y x) (rev l).
Proof.
  induction 1 as [|a t Ht IH Ha]; simpl; [constructor|].
  apply StronglySorted_app.
  - exact IH.
  - repeat constructor.
  - intros x y Hx [<-|[]]. rewrite Forall_forall in Ha.
    apply Ha. now apply in_rev.
Qed.

Lemma StronglySorted_skipn {A} (le : A -> A -> Prop) (k : nat) (l : list A) :
  StronglySorted le l -> StronglySorted le (skipn k l).
Proof.
  revert l. induction k as [|k IH]; intros l H; simpl; [exact H|].
  destruct l as [|a t]; [constructor|].
  inversion H; subst. now apply IH.
Qed.

Lemma StronglySorted_firstn {A} (le : A -> A -> Prop) (k : nat) (l : list A) :
  StronglySorted le l -> StronglySorted le (firstn k l).
Proof.
  revert l. induction k as [|k IH]; intros l H; simpl; [constructor|].
  destruct l as [|a t]; [constructor|].
  inversion H as [|? ? Ht Ha]; subst. constructor; [now apply IH|].
  rewrite Forall_forall in *. intros x Hx. apply Ha.
  now apply firstn_incl with k.
Qed.

Lemma StronglySorted_map {A B} (f : A -> B) (le : B -> B -> Prop) (l : list A) :
  StronglySorted (fun x y => le (f x) (f y)) l -> StronglySorted le (map f l).
Proof.
  induction 1 as [|a t Ht IH Ha]; simpl; constructor; [exact IH|].
  rewrite Forall_forall in *. intros y Hy.
  apply in_map_iff in Hy as [x [<- Hx]]. now apply Ha.
Qed.

(** * numpy: [argsort] returns a sorted permutation of the positions *)

Module NumpyFacts.

Import Numpy.

Lemma insert_perm (key : nat -> R) (i : nat) (l : list nat) :
  Permutation (insert key i l) (i :: l).
Proof.
  induction l as [|j t IH]; simpl; [reflexivity|].
  destruct (Rle_dec (key i) (key j)); [reflexivity|].
  rewrite IH. apply perm_swap.
Qed.

Lemma sort_indices_perm (key : nat -> R) (l : list nat) :
  Permutation (sort_indices key l) l.
Proof.
  induction l as [|i t IH]; simpl; [reflexivity|].
  rewrite insert_perm. now constructor.
Qed.

Lemma insert_sorted (key : nat -> R) (i : nat) (l : list nat) :
  StronglySorted (fun a b => (key a <= key b)%R) l ->
  StronglySorted (fun a b => (key a <= key b)%R) (insert key i l).
Proof.
  induction 1 as [|j t Ht IH Hj]; simpl.
  - repeat constructor.
  - destruct (Rle_dec (key i) (key j)) as [Hle|Hgt].
    + constructor; [now constructor|].
      constructor; [exact Hle|].
      rewrite Forall_forall in *. intros x Hx.
      apply Rle_trans with (key j); auto.
    + constructor; [exact IH|].
      rewrite Forall_forall in *. intros x Hx.
      apply (Permutation_in _ (insert_perm key i t)) in Hx.
      destruct Hx as [<-|Hx]; [lra|auto].
Qed.

Lemma sort_indices_sorted (key : nat -> R) (l : list nat) :
  StronglySorted (fun a b => (key a <= key b)%R) (sort_indices key l).
Proof.
  induction l as [|i t IH]; simpl; [constructor|now apply insert_sorted].
Qed.

Lemma argsort_perm (a : list R) :
  Permutation (argsort a) (seq 0 (length a)).
Proof. apply sort_indices_perm. Qed.

Lemma argsort_length (a : list R) : length (argsort a) = length a.
Proof. now rewrite (Permutation_length (argsort_perm a)), length_seq. Qed.

Lemma argsort_range (a : list R) (i : nat) :
  In i (argsort a) -> i < length a.
Proof.
  intros H. apply (Permutation_in _ (argsort_perm a)) in H.
  apply in_seq in H. lia.
Qed.

Lemma argsort_sorted (a : list R) :
  StronglySorted (fun i j => (nth i a 0 <= nth j a 0)%R) (argsort a).
Proof. apply (sort_indices_sorted (fun i => nth i a 0%R)). Qed.

Lemma argsort_NoDup (a : list R) : NoDup (argsort a).
Proof.
  apply (Permutation_NoDup (Permutation_sym (argsort_perm a))), seq_NoDup.
Qed.

End NumpyFacts.

(** * scikit-learn: no division by zero *)

Module SklearnFacts.

Import Sklearn Exact.
Local Open Scope R_scope.

Lemma handle_zeros_nonzero (s : R) : handle_zeros_in_scale s <> 0.
Proof.
  unfold handle_zeros_in_scale. destruct (Req_dec_T s 0); [lra|assumption].
Qed.

Lemma scale_of_nonzero (v : list R) : scale_of v <> 0.
Proof. apply handle_zeros_nonzero. Qed.

Lemma checked_div_some (x y : R) : y <> 0 -> checked_div x y = Some (x / y).
Proof.
  intros H. unfold checked_div. destruct (Req_dec_T y 0); [contradiction|reflexivity].
Qed.

Lemma mean_some (v : list R) : v <> [] -> mean v = Some (mean_of v).
Proof.
  intros H. unfold mean. apply checked_div_some.
  apply not_0_INR. destruct v; [contradiction|discriminate].
Qed.

Lemma variance_some (v : list R) : v <> [] -> variance v = Some (var_of v).
Proof.
  intros H. unfold variance. rewrite (mean_some v H).
  apply mean_some. destruct v; [contradiction|discriminate].
Qed.

Lemma column_nonempty (X : matrix) (j : nat) : X <> [] -> column X j <> [].
Proof. destruct X; [contradiction|discriminate]. Qed.

Lemma fit_some (X : matrix) :
  X <> [] ->
  fit X = Some (mkScaler (map mean_of (columns_of X))
                         (map var_of (columns_of X))
                         (map scale_of (columns_of X))).
Proof.
  intros HX. unfold fit. fold (columns_of X).
  assert (Hne : forall v, In v (columns_of X) -> v <> []).
  { intros v Hv. apply in_map_iff in Hv as [j [<- _]].
    now apply column_nonempty. }
  rewrite (mapM_some mean mean_of), (mapM_some variance var_of).
  - now rewrite map_map.
  - intros v Hv. apply variance_some. now apply Hne.
  - intros v Hv. apply mean_some. now apply Hne.
Qed.

Lemma transform_some (X : matrix) (cols : list (list R)) (m v : list R) :
  transform (mkScaler m v (map scale_of cols)) X
  = Some (map (fun r =>
                 map (fun c => (fst c - fst (snd c)) / snd (snd c))
                     (combine r (combine m (map scale_of cols))))
              X).
Proof.
  unfold transform. simpl. apply mapM_some. intros r _.
  apply mapM_some. intros [x [mu s]] Hc. simpl.
  apply checked_div_some.
  apply in_combine_r, in_combine_r in Hc.
  apply in_map_iff in Hc as [c [<- _]]. apply scale_of_nonzero.
Qed.

Lemma check_array_nonempty (X : matrix) : check_array X = true -> X <> [].
Proof. destruct X; [discriminate|discriminate]. Qed.

(** [fit_transform] returns, and returns the standardized matrix. *)
Lemma fit_transform_return (X : matrix) :
  check_array X = true -> fit_transform X = Return (standardize X).
Proof.
  intros H. unfold fit_transform. rewrite H.
  rewrite (fit_some X (check_array_nonempty X H)).
  now rewrite transform_some.
Qed.

Lemma normalize_row_some (r : list R) : normalize_row r = Some (unit_row r).
Proof.
  unfold normalize_row, unit_row. apply mapM_some. intros x _.
  apply checked_div_some, handle_zeros_nonzero.
Qed.

Lemma normalize_some (X : matrix) : normalize X = Some (map unit_row X).
Proof. apply mapM_some. intros r _. apply normalize_row_some. Qed.

(** [cosine_similarity] returns: no norm is divided by when it is zero. *)
Lemma cosine_similarity_return (q : list R) (Y : matrix) :
  check_array [q] = true -> check_array Y = true ->
  cosine_similarity [q] Y = Return [cosine_row q Y].
Proof.
  intros Hq HY. unfold cosine_similarity. rewrite Hq, HY. simpl andb.
  rewrite !normalize_some. reflexivity.
Qed.

End SklearnFacts.

(** * pandas: selections of a well-formed frame succeed *)

Lemma mapM_map {A B C} (g : A -> B) (f : B -> option C) (l : list A) :
  mapM f (map g l) = mapM (fun x => f (g x)) l.
Proof.
  induction l as [|x t IH]; simpl; [reflexivity|]. now rewrite IH.
Qed.

Lemma str_in_In (c : string) (l : list string) : str_in c l = true <-> In c l.
Proof.
  unfold str_in. rewrite existsb_exists. split.
  - intros [x [Hx He]]. apply String.eqb_eq in He. now subst.
  - intros H. exists c. split; [exact H|apply String.eqb_refl].
Qed.

Lemma distinct_NoDup (l : list string) : distinct l = true -> NoDup l.
Proof.
  induction l as [|c t IH]; simpl; [constructor|].
  intros H. apply andb_prop in H as [Hc Ht].
  constructor; [|now apply IH].
  intros Hin. apply str_in_In in Hin. rewrite Hin in Hc. discriminate.
Qed.

Lemma same_label_same_series (cs : list Series) (s s' : Series) :
  NoDup (map label cs) -> In s cs -> In s' cs -> label s = label s' -> s = s'.
Proof.
  induction cs as [|a t IH]; simpl; [tauto|].
  intros Hnd Hs Hs' Hl. inversion Hnd as [|? ? Ha Ht]; subst.
  destruct Hs as [->|Hs], Hs' as [->|Hs']; auto.
  - exfalso. apply Ha. rewrite Hl. now apply in_map.
  - exfalso. apply Ha. rewrite <- Hl. now apply in_map.
Qed.

Lemma col_len_eq_str (d : ColData) (s : string) :
  length (eq_str d s) = col_len d.
Proof. destruct d; simpl; apply length_map. Qed.

Lemma take_data_some (d : ColData) (idx : list nat) :
  Forall (fun i => i < col_len d) idx ->
  exists d', take_data d idx = Some d' /\ col_len d' = length idx.
Proof.
  intros H. destruct d as [v|v|v|v]; simpl in *.
  - rewrite (take_some None v idx H). eexists. split; [reflexivity|].
    simpl. now rewrite length_map.
  - rewrite (take_some 0%Z v idx H). eexists. split; [reflexivity|].
    simpl. now rewrite length_map.
  - rewrite (take_some false v idx H). eexists. split; [reflexivity|].
    simpl. now rewrite length_map.
  - rewrite (take_some None v idx H). eexists. split; [reflexivity|].
    simpl. now rewrite length_map.
Qed.

Lemma iloc_some (df : DataFrame) (idx : list nat) :
  Forall (fun s => col_len (data s) = length (index df)) (columns df) ->
  Forall (fun i => i < length (index df)) idx ->
  iloc df idx = Some (rows_at df idx).
Proof.
  intros Hc Hi. unfold iloc, rows_at.
  rewrite (take_some 0%Z (index df) idx Hi).
  rewrite (mapM_some _ (fun s => mkSeries (label s)
                                   match take_data (data s) idx with
                                   | Some d => d
                                   | None => data s
                                   end)); [reflexivity|].
  intros s Hs. rewrite Forall_forall in Hc.
  destruct (take_data_some (data s) idx) as [d' [Hd _]].
  - rewrite (Hc s Hs). exact Hi.
  - now rewrite Hd.
Qed.

Lemma first_true_spec (mask : list bool) (k : nat) :
  existsb (fun b => b) mask = true ->
  first_true mask < length mask /\
  nth (first_true mask) mask false = true /\
  hd_error (map fst (filter snd
              (combine (map Z.of_nat (seq k (length mask))) mask)))
  = Some (Z.of_nat (k + first_true mask)).
Proof.
  revert k. induction mask as [|b t IH]; intros k; simpl; [discriminate|].
  destruct b; simpl.
  - intros _. repeat split; [lia|]. now rewrite Nat.add_0_r.
  - intros H. destruct (IH (S k) H) as [H1 [H2 H3]].
    repeat split; [lia|exact H2|].
    rewrite H3. f_equal. lia.
Qed.

Lemma well_formed_inv (df : DataFrame) :
  well_formed df = true ->
  index df = range_index (length (index df)) /\
  Forall (fun s => col_len (data s) = length (index df)) (columns df) /\
  NoDup (map label (columns df)).
Proof.
  unfold well_formed. intros H.
  apply andb_prop in H as [H Hd]. apply andb_prop in H as [Hi Hc].
  repeat split.
  - destruct (list_eq_dec Z.eq_dec _ _); [assumption|discriminate].
  - apply Forall_forall. intros s Hs.
    rewrite forallb_forall in Hc. now apply Nat.eqb_eq, Hc.
  - now apply distinct_NoDup.
Qed.

Lemma valid_call_inv (song_name : string) (df : DataFrame) :
  valid_call song_name df = true ->
  well_formed df = true /\
  (exists tracks,
      find (fun s => String.eqb (label s) track_column) (columns df) = Some tracks /\
      song_mask df song_name = eq_str (data tracks) song_name /\
      contains (data tracks) song_name = true) /\
  has_column df artist_column = true /\
  feature_schema df <> [].
Proof.
  unfold valid_call. intros H.
  apply andb_prop in H as [H Hf]. apply andb_prop in H as [H Ha].
  apply andb_prop in H as [Hw Hs].
  repeat split; try assumption.
  - unfold song_mask in *.
    destruct (find _ (columns df)) as [tracks|]; [|discriminate].
    exists tracks. repeat split. exact Hs.
  - intros E. rewrite E in Hf. discriminate.
Qed.

(** ** The shape of the feature matrix *)

Lemma to_rows_regular (N : nat) (cols : list (list R)) :
  regular (length cols) (Numpy.to_rows N cols).
Proof.
  apply Forall_forall. intros r Hr.
  apply in_map_iff in Hr as [i [<- _]]. apply length_map.
Qed.

Lemma to_rows_length (N : nat) (cols : list (list R)) :
  length (Numpy.to_rows N cols) = N.
Proof. unfold Numpy.to_rows. now rewrite length_map, length_seq. Qed.

Lemma regular_n_features (F : nat) (X : Sklearn.matrix) :
  X <> [] -> regular F X -> Sklearn.n_features X = F.
Proof.
  destruct X as [|r t]; [contradiction|].
  intros _ H. inversion H; subst. reflexivity.
Qed.

Lemma check_array_regular (F : nat) (X : Sklearn.matrix) :
  X <> [] -> regular F X -> 0 < F -> Sklearn.check_array X = true.
Proof.
  destruct X as [|r t]; [contradiction|].
  intros _ H HF. inversion H as [|? ? Hr _]; subst.
  destruct r; [simpl in HF; lia|reflexivity].
Qed.

Lemma standardize_length (X : Sklearn.matrix) :
  length (Exact.standardize X) = length X.
Proof. apply length_map. Qed.

Lemma standardize_regular (F : nat) (X : Sklearn.matrix) :
  X <> [] -> regular F X -> regular F (Exact.standardize X).
Proof.
  intros HX H. pose proof (regular_n_features F X HX H) as HF.
  unfold regular, Exact.standardize. rewrite Forall_map.
  apply Forall_forall. intros r Hr.
  unfold regular in H. rewrite Forall_forall in H.
  rewrite length_map, !length_combine, !length_map.
  unfold Exact.columns_of. rewrite length_map, length_seq, HF, (H r Hr). lia.
Qed.

Lemma regular_nth (F : nat) (X : Sklearn.matrix) (p : nat) :
  regular F X -> p < length X -> length (nth p X []) = F.
Proof.
  intros H Hp. unfold regular in H. rewrite Forall_forall in H.
  apply H, nth_In, Hp.
Qed.

Lemma cosine_row_length (q : list R) (Y : Sklearn.matrix) :
  length (Exact.cosine_row q Y) = length Y.
Proof. unfold Exact.cosine_row. now rewrite !length_map. Qed.

(** ** The feature columns are numeric *)

Lemma feature_schema_numeric (df : DataFrame) (c : string) :
  In c (feature_schema df) -> In c (numeric_columns df).
Proof.
  unfold feature_schema, primary_features, fallback_features.
  destruct (is_nil _); intros H; now apply filter_In in H.
Qed.

Lemma fillna0_numeric (s : Series) :
  is_numeric (data s) = true -> fillna0 (data s) = Some (column_vector s).
Proof.
  unfold column_vector. destruct (data s); simpl; intros H;
    [reflexivity|reflexivity|discriminate|discriminate].
Qed.

Lemma getitem_list_numeric (df : DataFrame) (cs : list string) (s : Series) :
  NoDup (map label (columns df)) ->
  (forall c, In c cs -> In c (numeric_columns df)) ->
  In s (getitem_list df cs) -> is_numeric (data s) = true.
Proof.
  intros Hnd Hcs Hs. unfold getitem_list in Hs.
  apply in_flat_map in Hs as [c [Hc Hs]].
  apply filter_In in Hs as [Hs Hl]. apply String.eqb_eq in Hl.
  specialize (Hcs c Hc). unfold numeric_columns in Hcs.
  apply in_map_iff in Hcs as [s0 [Hl0 Hs0]].
  apply filter_In in Hs0 as [Hs0 Hnum].
  assert (s = s0) as ->; [|exact Hnum].
  apply (same_label_same_series (columns df)); auto. congruence.
Qed.

Lemma getitem_list_nonempty (df : DataFrame) (cs : list string) :
  (forall c, In c cs -> In c (numeric_columns df)) ->
  cs <> [] -> getitem_list df cs <> [].
Proof.
  destruct cs as [|c t]; [contradiction|]. intros H _.
  specialize (H c (or_introl eq_refl)). unfold numeric_columns in H.
  apply in_map_iff in H as [s [Hl Hs]]. apply filter_In in Hs as [Hs _].
  intros E. assert (Hin : In s (getitem_list df (c :: t))).
  { unfold getitem_list. apply in_flat_map. exists c. split; [now left|].
    apply filter_In. split; [exact Hs|]. now apply String.eqb_eq. }
  rewrite E in Hin. exact Hin.
Qed.

Lemma feature_columns_some (df : DataFrame) :
  NoDup (map label (columns df)) ->
  mapM fillna0 (map data (getitem_list df (feature_schema df)))
  = Some (map column_vector (getitem_list df (feature_schema df))).
Proof.
  intros Hnd. rewrite mapM_map. apply mapM_some. intros s Hs.
  apply fillna0_numeric.
  apply (getitem_list_numeric df (feature_schema df)); auto.
  apply feature_schema_numeric.
Qed.

Lemma feature_matrix_shape (df : DataFrame) :
  index df <> [] ->
  feature_schema df <> [] ->
  exists F, 0 < F /\ feature_matrix df <> [] /\
            length (feature_matrix df) = length (index df) /\
            regular F (feature_matrix df).
Proof.
  intros HN HF.
  exists (length (map column_vector (getitem_list df (feature_schema df)))).
  repeat split.
  - rewrite length_map.
    pose proof (getitem_list_nonempty df (feature_schema df)
                  (feature_schema_numeric df) HF) as H.
    destruct (getitem_list df (feature_schema df)); [contradiction|simpl; lia].
  - unfold feature_matrix, Numpy.to_rows.
    destruct (index df); [contradiction|discriminate].
  - apply to_rows_length.
  - apply to_rows_regular.
Qed.

(** ** The link column *)

Lemma forM_return {A B} (f : A -> M B) (g : A -> B) (l : list A) :
  (forall x, In x l -> forall out, f x out = (Return (g x), out)) ->
  forall out, forM f l out = (Return (map g l), out).
Proof.
  induction l as [|x t IH]; intros H out; simpl; [reflexivity|].
  unfold bind. rewrite (H x (or_introl eq_refl)).
  rewrite IH; [reflexivity|]. intros y Hy. apply H. now right.
Qed.

Lemma find_set_column_other (cs : list Series) (c c' : string) (d : ColData) :
  c <> c' ->
  find (fun s => String.eqb (label s) c) (set_column cs c' d)
  = find (fun s => String.eqb (label s) c) cs.
Proof.
  intros Hc. induction cs as [|s t IH]; simpl.
  - apply String.eqb_neq in Hc. now rewrite String.eqb_sym, Hc.
  - destruct (String.eqb (label s) c') eqn:E; simpl.
    + apply String.eqb_eq in E. rewrite E.
      apply String.eqb_neq in Hc. now rewrite String.eqb_sym, Hc.
    + now rewrite IH.
Qed.

Lemma find_map_label (h : Series -> Series) (cs : list Series) (c : string) :
  (forall s, label (h s) = label s) ->
  find (fun s => String.eqb (label s) c) (map h cs)
  = option_map h (find (fun s => String.eqb (label s) c) cs).
Proof.
  intros Hh. induction cs as [|s t IH]; simpl; [reflexivity|].
  rewrite Hh. destruct (String.eqb (label s) c); [reflexivity|exact IH].
Qed.

Lemma has_column_find (df : DataFrame) (c : string) :
  has_column df c = true ->
  exists s, find (fun s => String.eqb (label s) c) (columns df) = Some s.
Proof.
  unfold has_column. intros H. apply existsb_exists in H as [s [Hs Hl]].
  destruct (find _ (columns df)) as [s'|] eqn:E; [now exists s'|].
  now rewrite (find_none _ _ E s Hs) in Hl.
Qed.

Lemma rows_at_find (df : DataFrame) (idx : list nat) (c : string) (s : Series) :
  Forall (fun s => col_len (data s) = length (index df)) (columns df) ->
  Forall (fun i => i < length (index df)) idx ->
  find (fun s => String.eqb (label s) c) (columns df) = Some s ->
  exists d',
    find (fun s => String.eqb (label s) c) (columns (rows_at df idx))
    = Some (mkSeries (label s) d') /\ col_len d' = length idx.
Proof.
  intros Hc Hi Hf. unfold rows_at. simpl columns.
  rewrite find_map_label by reflexivity. rewrite Hf. simpl.
  rewrite Forall_forall in Hc. apply find_some in Hf as [Hs _].
  destruct (take_data_some (data s) idx) as [d' [Hd Hl]].
  - now rewrite (Hc s Hs).
  - rewrite Hd. now exists d'.
Qed.

Section LinkFacts.

Variable float_str : R -> string.

Lemma cell_str_some (d : ColData) (i : nat) :
  i < col_len d -> exists t, cell_str float_str d i = Some t.
Proof.
  intros H. destruct d as [v|v|v|v]; simpl in *;
    destruct (nth_error v i) eqn:E;
    try (eexists; reflexivity);
    apply nth_error_None in E; lia.
Qed.

Lemma row_field_return (df : DataFrame) (i : nat) (c : string) (s : Series) :
  find (fun s => String.eqb (label s) c) (columns df) = Some s ->
  i < col_len (data s) ->
  forall out, row_field float_str df i c out
              = (Return (field_text float_str df i c), out).
Proof.
  intros Hf Hi out. unfold row_field, bind, getitem, field_text, column_data.
  rewrite Hf. simpl.
  destruct (cell_str_some (data s) i Hi) as [t Ht]. now rewrite Ht.
Qed.

Lemma spotify_link_return (df : DataFrame) (i : nat) (a s : Series) :
  find (fun s => String.eqb (label s) artist_column) (columns df) = Some a ->
  find (fun s => String.eqb (label s) track_column) (columns df) = Some s ->
  i < col_len (data a) -> i < col_len (data s) ->
  forall out, spotify_link float_str df i out
              = (Return (link_text float_str df i), out).
Proof.
  intros Ha Hs Hia His out. unfold spotify_link, bind.
  unfold artist_column in Ha. unfold track_column in Hs.
  rewrite (row_field_return df i _ _ Ha Hia).
  rewrite (row_field_return df i _ _ Hs His). reflexivity.
Qed.

End LinkFacts.

(** * [recommend_from_song] on a valid call *)

Section Run.
Variable float_str : R -> string.

Lemma similar_indices_range (song_name : string) (df : DataFrame) (n : Z) :
  length (similarities song_name df) = length (index df) ->
  Forall (fun i => i < length (index df)) (similar_indices song_name df n).
Proof.
  intros HL. apply Forall_forall. intros i Hi. unfold similar_indices, py_slice in Hi.
  apply firstn_incl, skipn_incl in Hi. apply in_rev in Hi.
  apply NumpyFacts.argsort_range in Hi. now rewrite HL in Hi.
Qed.

Lemma getitem_nat {A} (d : A) (a : list A) (p : nat) :
  p < length a -> Numpy.getitem a (Z.of_nat p) = Some (nth p a d).
Proof.
  intros H. unfold Numpy.getitem.
  replace (0 <=? Z.of_nat p)%Z with true by (symmetry; apply Z.leb_le; lia).
  replace (Z.of_nat p <? Z.of_nat (length a))%Z with true
    by (symmetry; apply Z.ltb_lt; lia).
  simpl. rewrite Nat2Z.id. now apply nth_error_nth'.
Qed.

(** A valid call returns [recommendations] and prints [found_output]. *)
Lemma recommend_from_song_found (song_name : string) (df : DataFrame) (n : Z) :
  valid_call song_name df = true ->
  forall out,
    recommend_from_song float_str song_name df n out
    = (Return (recommendations float_str song_name df n),
       out ++ found_output float_str song_name df n).
Proof.
  intros Hv out.
  destruct (valid_call_inv _ _ Hv) as [Hw [[tracks [Hfind [Hmask Hcont]]] [Hart Hfeat]]].
  destruct (well_formed_inv _ Hw) as [Hidx [Hcols Hnd]].
  assert (Hlen : length (song_mask df song_name) = length (index df)).
  { rewrite Hmask, col_len_eq_str. rewrite Forall_forall in Hcols.
    apply Hcols. now apply find_some in Hfind as [? _]. }
  assert (Hex : existsb (fun b => b) (song_mask df song_name) = true).
  { rewrite Hmask. exact Hcont. }
  destruct (first_true_spec (song_mask df song_name) 0 Hex) as [Hp [_ Hhd]].
  fold (query_position song_name df) in Hp, Hhd.
  assert (HN : index df <> []).
  { intros E. rewrite E in Hlen. simpl in Hlen. lia. }
  destruct (feature_matrix_shape df HN Hfeat) as [F [HF [HXne [HXlen HXreg]]]].
  unfold recommend_from_song, bind, print, getitem, lift_opt, ret.
  fold track_column. rewrite Hfind. rewrite Hcont. cbn [negb].
  fold (feature_schema df).
  destruct (is_nil (feature_schema df)) eqn:En.
  { destruct (feature_schema df); [now contradiction Hfeat|discriminate]. }
  rewrite (feature_columns_some df Hnd). fold (feature_matrix df).
  unfold lift_outcome.
  rewrite (SklearnFacts.fit_transform_return _
             (check_array_regular F _ HXne HXreg HF)).
  set (Y := Exact.standardize (feature_matrix df)).
  assert (HYlen : length Y = length (index df)).
  { unfold Y. now rewrite standardize_length. }
  assert (HYreg : regular F Y) by (now apply standardize_regular).
  assert (HYne : Y <> []).
  { intros E. rewrite E in HYlen. simpl in HYlen.
    destruct (index df); [contradiction|discriminate]. }
  assert (Hq : hd_error (mask_index df (eq_str (data tracks) song_name))
               = Some (Z.of_nat (query_position song_name df))).
  { unfold mask_index. rewrite Hidx. unfold range_index.
    rewrite <- Hmask, <- Hlen. exact Hhd. }
  rewrite Hq.
  rewrite (getitem_nat [] Y (query_position song_name df)) by lia.
  set (q := nth (query_position song_name df) Y []).
  assert (Hql : length q = F) by (apply regular_nth; [exact HYreg|lia]).
  rewrite SklearnFacts.cosine_similarity_return.
  2:{ destruct q; [simpl in Hql; lia|reflexivity]. }
  2:{ exact (check_array_regular F Y HYne HYreg HF). }
  cbn [hd_error].
  change (Exact.cosine_row q Y) with (similarities song_name df).
  change (py_slice 1 (n + 1) (rev (Numpy.argsort (similarities song_name df))))
    with (similar_indices song_name df n).
  assert (Hsl : length (similarities song_name df) = length (index df)).
  { unfold similarities. fold Y. now rewrite cosine_row_length. }
  pose proof (similar_indices_range song_name df n Hsl) as Hsel.
  rewrite (iloc_some df _ Hcols Hsel).
  rewrite (take_some 0%R (similarities song_name df) (similar_indices song_name df n)).
  2:{ now rewrite Hsl. }
  change (setitem (rows_at df (similar_indices song_name df n)) "similarity" _)
    with (scored_rows song_name df n).
  set (recs := scored_rows song_name df n).
  assert (Hri : length (index recs) = length (similar_indices song_name df n)).
  { unfold recs, scored_rows, setitem, rows_at. simpl. apply length_map. }
  destruct (has_column_find df artist_column Hart) as [a Ha].
  destruct (rows_at_find df _ _ _ Hcols Hsel Ha) as [da [Hfa Hla]].
  destruct (rows_at_find df _ _ _ Hcols Hsel Hfind) as [ds [Hfs Hls]].
  rewrite (forM_return (spotify_link float_str recs) (link_text float_str recs)).
  2:{ intros i Hi out0. apply in_seq in Hi.
      apply (spotify_link_return float_str recs i (mkSeries (label a) da)
               (mkSeries (label tracks) ds)).
      - unfold recs, scored_rows, setitem. simpl columns.
        rewrite find_set_column_other by discriminate. exact Hfa.
      - unfold recs, scored_rows, setitem. simpl columns.
        rewrite find_set_column_other by discriminate. exact Hfs.
      - simpl. lia.
      - simpl. lia. }
  unfold found_output, recommendations. fold recs.
  rewrite <- !app_assoc. reflexivity.
Qed.
End Run.

(** * The shape of the returned frame *)

Section Shape.

Variable float_str : R -> string.

Lemma Forall_set_column (P : Series -> Prop) (cs : list Series)
      (c : string) (d : ColData) :
  Forall P cs -> P (mkSeries c d) -> Forall P (set_column cs c d).
Proof.
  intros H Hd. induction H as [|s t Hs Ht IH]; simpl.
  - now constructor.
  - destruct (String.eqb (label s) c); constructor; auto.
Qed.

Lemma find_set_column_same (cs : list Series) (c : string) (d : ColData) :
  find (fun s => String.eqb (label s) c) (set_column cs c d)
  = Some (mkSeries c d).
Proof.
  induction cs as [|s t IH]; simpl.
  - now rewrite String.eqb_refl.
  - destruct (String.eqb (label s) c) eqn:E; simpl.
    + now rewrite String.eqb_refl.
    + now rewrite E.
Qed.

Lemma similarities_length (song_name : string) (df : DataFrame) :
  valid_call song_name df = true ->
  length (similarities song_name df) = length (index df).
Proof.
  intros Hv. unfold similarities.
  rewrite cosine_row_length, standardize_length.
  unfold feature_matrix. apply to_rows_length.
Qed.

Lemma valid_call_nonempty (song_name : string) (df : DataFrame) :
  valid_call song_name df = true -> index df <> [].
Proof.
  intros Hv.
  destruct (valid_call_inv _ _ Hv)
    as [Hw [[tracks [Hfind [Hmask Hcont]]] _]].
  destruct (well_formed_inv _ Hw) as [_ [Hcols _]].
  rewrite Forall_forall in Hcols. apply find_some in Hfind as [Hin _].
  specialize (Hcols tracks Hin). rewrite <- col_len_eq_str with (s := song_name) in Hcols.
  unfold contains in Hcont. intros E. rewrite E in Hcols.
  destruct (eq_str (data tracks) song_name); [discriminate|discriminate].
Qed.

Lemma recommendations_index (song_name : string) (df : DataFrame) (n : Z) :
  index (recommendations float_str song_name df n)
  = map (fun i => nth i (index df) 0%Z) (similar_indices song_name df n).
Proof. reflexivity. Qed.

Lemma recommendations_scores (song_name : string) (df : DataFrame) (n : Z) :
  column_data (recommendations float_str song_name df n) "similarity"
  = Some (Float64 (map Some (map (fun i => nth i (similarities song_name df) 0%R)
                                 (similar_indices song_name df n)))).
Proof.
  unfold column_data, recommendations, setitem. simpl columns.
  rewrite find_set_column_other by discriminate.
  unfold scored_rows, setitem. simpl columns.
  now rewrite find_set_column_same.
Qed.

Lemma recommendations_columns (song_name : string) (df : DataFrame) (n : Z) :
  valid_call song_name df = true ->
  Forall (fun s => col_len (data s)
                   = length (index (recommendations float_str song_name df n)))
         (columns (recommendations float_str song_name df n)).
Proof.
  intros Hv.
  destruct (valid_call_inv _ _ Hv) as [Hw _].
  destruct (well_formed_inv _ Hw) as [_ [Hcols _]].
  pose proof (similar_indices_range song_name df n
                (similarities_length song_name df Hv)) as Hsel.
  rewrite recommendations_index, length_map.
  unfold recommendations, setitem. simpl columns.
  apply Forall_set_column.
  - unfold scored_rows, setitem. simpl columns.
    apply Forall_set_column.
    + unfold rows_at. simpl columns. rewrite Forall_map.
      apply Forall_forall. intros s Hs. simpl.
      rewrite Forall_forall in Hcols.
      destruct (take_data_some (data s) (similar_indices song_name df n))
        as [d' [Hd Hl]].
      * now rewrite (Hcols s Hs).
      * now rewrite Hd.
    + simpl. now rewrite !length_map.
  - simpl. rewrite length_map, length_seq.
    unfold scored_rows, setitem, rows_at. simpl. apply length_map.
Qed.

Lemma similar_indices_length (song_name : string) (df : DataFrame) (n : Z) :
  valid_call song_name df = true -> (1 <= n)%Z ->
  Z.of_nat (length (similar_indices song_name df n))
  = Z.min n (Z.of_nat (length (index df)) - 1).
Proof.
  intros Hv Hn. unfold similar_indices.
  pose proof (similarities_length song_name df Hv) as Hl.
  pose proof (valid_call_nonempty song_name df Hv) as Hne.
  rewrite py_slice_tail_length.
  - now rewrite length_rev, NumpyFacts.argsort_length, Hl.
  - exact Hn.
  - intros E. apply (f_equal (@length nat)) in E.
    rewrite length_rev, NumpyFacts.argsort_length, Hl in E.
    destruct (index df); [contradiction|discriminate].
Qed.

End Shape.

(** * The claims *)

(** ** C1: a title that is not in the catalog *)

(** C1, as the specification states it, fails: for the title
    "nonexistent-id", which is not in the title column of [catalog_pairs],
    the call raises nothing and returns the empty frame [pd.DataFrame()]. *)
Lemma missing_title_returns_empty_frame :
  contains (text ["A"; "A2"; "C"; "D"]%string) "nonexistent-id" = false /\
  fst (recommend_from_song plain_float "nonexistent-id" catalog_pairs 10 [])
  = Return empty_frame /\
  forall e,
    fst (recommend_from_song plain_float "nonexistent-id" catalog_pairs 10 [])
    <> Raise e.
Proof.
  split; [reflexivity|]. split; [reflexivity|].
  intros e. discriminate.
Qed.

(** C1 (amended): for every catalog with a title column and every query
    title that does not occur in it, the call raises no error: it prints
    that the song was not found, with the first ten distinct titles, and
    returns the empty frame. *)
Theorem recommend_from_song_not_found
        (float_str : R -> string) (song_name : string) (df : DataFrame)
        (n : Z) (tracks : Series) :
  find (fun s => String.eqb (label s) track_column) (columns df) = Some tracks ->
  contains (data tracks) song_name = false ->
  forall out,
    recommend_from_song float_str song_name df n out
    = (Return empty_frame, out ++ not_found_output song_name tracks).
Proof.
  intros Hfind Hcont out.
  unfold recommend_from_song, bind, print, getitem, lift_opt, ret.
  fold track_column. rewrite Hfind, Hcont. cbn [negb].
  unfold not_found_output. now rewrite <- !app_assoc.
Qed.

Lemma recommend_from_song_not_found_witness :
  recommend_from_song plain_float "nonexistent-id" catalog_pairs 10 []
  = (Return empty_frame,
     [] ++ not_found_output "nonexistent-id"
             (mkSeries "song" (text ["A"; "A2"; "C"; "D"]%string))).
Proof.
  apply (recommend_from_song_not_found plain_float "nonexistent-id"
           catalog_pairs 10
           (mkSeries "song" (text ["A"; "A2"; "C"; "D"]%string)));
    reflexivity.
Defined.

(** ** C4: the number of recommendations *)

(** C4: for every valid call (a well-formed catalog of N >= 1 rows that
    contains the query title) and every count n >= 1, the call returns a
    frame of exactly min(n, N - 1) rows, each of its columns having that
    many cells. *)
Theorem recommend_from_song_count
        (float_str : R -> string) (song_name : string) (df : DataFrame) (n : Z) :
  valid_call song_name df = true ->
  (1 <= n)%Z ->
  forall out, exists recs out',
    recommend_from_song float_str song_name df n out = (Return recs, out') /\
    Z.of_nat (length (index recs))
    = Z.min n (Z.of_nat (length (index df)) - 1) /\
    Forall (fun s => col_len (data s) = length (index recs)) (columns recs).
Proof.
  intros Hv Hn out.
  exists (recommendations float_str song_name df n).
  exists (out ++ found_output float_str song_name df n).
  split; [now apply recommend_from_song_found|]. split.
  - rewrite recommendations_index, length_map.
    now apply similar_indices_length.
  - now apply recommendations_columns.
Qed.

Lemma recommend_from_song_count_witness :
  exists recs out',
    recommend_from_song plain_float "A" catalog_pairs 2 [] = (Return recs, out') /\
    Z.of_nat (length (index recs))
    = Z.min 2 (Z.of_nat (length (index catalog_pairs)) - 1) /\
    Forall (fun s => col_len (data s) = length (index recs)) (columns recs).
Proof.
  apply (recommend_from_song_count plain_float "A" catalog_pairs 2).
  - reflexivity.
  - lia.
Defined.

(** ** C10: a catalog of one song *)

(** C10: for every valid catalog of exactly one song, the call with that
    song's title and count 10 raises no error and returns a frame without
    rows. *)
Theorem recommend_from_song_single
        (float_str : R -> string) (song_name : string) (df : DataFrame) :
  valid_call song_name df = true ->
  length (index df) = 1 ->
  forall out, exists recs out',
    recommend_from_song float_str song_name df 10 out = (Return recs, out') /\
    index recs = [] /\
    Forall (fun s => col_len (data s) = 0) (columns recs).
Proof.
  intros Hv HN out.
  exists (recommendations float_str song_name df 10).
  exists (out ++ found_output float_str song_name df 10).
  split; [now apply recommend_from_song_found|].
  assert (Hl : length (index (recommendations float_str song_name df 10)) = 0).
  { rewrite recommendations_index, length_map.
    pose proof (similar_indices_length song_name df 10 Hv) as H.
    rewrite HN in H. lia. }
  split.
  - now apply length_zero_iff_nil.
  - rewrite <- Hl. now apply recommendations_columns.
Qed.

Lemma recommend_from_song_single_witness :
  exists recs out',
    recommend_from_song plain_float "A" catalog_single 10 [] = (Return recs, out') /\
    index recs = [] /\
    Forall (fun s => col_len (data s) = 0) (columns recs).
Proof.
  apply (recommend_from_song_single plain_float "A" catalog_single);
    reflexivity.
Defined.

(** * The call on [catalog_pairs], step by step *)

Module Pairs.

Import Sklearn Exact.
Local Open Scope R_scope.

Lemma handle_zeros_one : handle_zeros_in_scale 1 = 1.
Proof.
  unfold handle_zeros_in_scale. destruct (Req_dec_T 1 0); [lra|reflexivity].
Qed.

Lemma mean_energy : mean_of [1; 1; 3; 3] = 2.
Proof. unfold mean_of. simpl. lra. Qed.

Lemma scale_energy : scale_of [1; 1; 3; 3] = 1.
Proof.
  unfold scale_of, std_of, var_of. rewrite mean_energy.
  replace (mean_of _) with 1 by (unfold mean_of; simpl; lra).
  rewrite sqrt_1. apply handle_zeros_one.
Qed.

Lemma standardized :
  standardize (feature_matrix catalog_pairs) = [[-1]; [-1]; [1]; [1]].
Proof.
  change (feature_matrix catalog_pairs) with [[1]; [1]; [3]; [3]].
  unfold standardize, columns_of, n_features, column.
  cbn [map seq hd length nth combine fst snd].
  rewrite mean_energy, scale_energy.
  repeat f_equal; lra.
Qed.

Lemma unit_row_one (x : R) : x * x = 1 -> unit_row [x] = [x].
Proof.
  intros H. unfold unit_row, row_norm. cbn [map Rsum].
  rewrite Rplus_0_r, H, sqrt_1, handle_zeros_one. f_equal. lra.
Qed.


Lemma similarities_D : similarities "D" catalog_pairs = [-1; -1; 1; 1].
Proof.
  unfold similarities. rewrite standardized.
  change (query_position "D" catalog_pairs) with 3%nat.
  unfold cosine_row. cbn [nth map].
  rewrite !unit_row_one by lra.
  unfold dot. cbn [combine map Rsum fst snd].
  repeat f_equal; lra.
Qed.

Ltac decide_order :=
  repeat (cbn [Numpy.sort_indices Numpy.insert nth];
          match goal with
          | |- context [Rle_dec ?a ?b] =>
              destruct (Rle_dec a b); [try (exfalso; lra)|try (exfalso; lra)]
          end).


Lemma argsort_D : Numpy.argsort [-1; -1; 1; 1] = [0; 1; 2; 3]%nat.
Proof.
  unfold Numpy.argsort. cbn [length seq]. decide_order. reflexivity.
Qed.


Lemma similar_indices_D : similar_indices "D" catalog_pairs 3 = [2; 1; 0]%nat.
Proof.
  unfold similar_indices. now rewrite similarities_D, argsort_D.
Qed.

End Pairs.

(** ** C3: the order of the result *)

(** C3, as the specification states it, fails on ties: in [catalog_pairs]
    the songs A (row 0) and A2 (row 1) have the same score -1 for the query
    D, and the result lists A2 before A. *)
Lemma equal_scores_not_in_catalog_order :
  exists recs out',
    recommend_from_song plain_float "D" catalog_pairs 3 [] = (Return recs, out') /\
    index recs = [2; 1; 0]%Z /\
    column_data recs "song" = Some (text ["C"; "A2"; "A"]%string) /\
    column_data recs "similarity" = Some (floats [1; -1; -1]%R) /\
    ~ ties_in_catalog_order (index recs) [1; -1; -1]%R.
Proof.
  eexists. eexists. split; [now apply recommend_from_song_found|].
  split; [|split; [|split]].
  - now rewrite recommendations_index, Pairs.similar_indices_D.
  - unfold recommendations, scored_rows.
    now rewrite Pairs.similar_indices_D.
  - now rewrite recommendations_scores, Pairs.similar_indices_D,
      Pairs.similarities_D.
  - rewrite recommendations_index, Pairs.similar_indices_D.
    intros H. specialize (H 1 2). simpl in H.
    assert (Hlt : (1 < 0)%Z) by (apply H; [lia|reflexivity]). lia.
Qed.

(** C3 (amended): for every valid call, the scores of the returned rows,
    read from top to bottom, never increase. Nothing is promised on the
    order of rows with equal scores. *)
Theorem recommend_from_song_sorted
        (float_str : R -> string) (song_name : string) (df : DataFrame) (n : Z) :
  valid_call song_name df = true ->
  forall out, exists recs out' scores,
    recommend_from_song float_str song_name df n out = (Return recs, out') /\
    column_data recs "similarity" = Some (Float64 (map Some scores)) /\
    length scores = length (index recs) /\
    StronglySorted (fun x y => (y <= x)%R) scores.
Proof.
  intros Hv out.
  exists (recommendations float_str song_name df n).
  exists (out ++ found_output float_str song_name df n).
  exists (map (fun i => nth i (similarities song_name df) 0%R)
              (similar_indices song_name df n)).
  split; [now apply recommend_from_song_found|].
  split; [apply recommendations_scores|].
  split; [now rewrite recommendations_index, !length_map|].
  apply StronglySorted_map. unfold similar_indices, py_slice.
  apply StronglySorted_firstn, StronglySorted_skipn.
  apply (StronglySorted_rev
           (fun i j => (nth i (similarities song_name df) 0
                        <= nth j (similarities song_name df) 0)%R)).
  apply NumpyFacts.argsort_sorted.
Qed.

Lemma recommend_from_song_sorted_witness :
  exists recs out' scores,
    recommend_from_song plain_float "D" catalog_pairs 3 [] = (Return recs, out') /\
    column_data recs "similarity" = Some (Float64 (map Some scores)) /\
    length scores = length (index recs) /\
    StronglySorted (fun x y => (y <= x)%R) scores.
Proof.
  apply (recommend_from_song_sorted plain_float "D" catalog_pairs 3).
  reflexivity.
Defined.

(** ** C2: which row is left out *)


(** * scikit-learn: the standardized matrix and the scores *)

Module ExactFacts.

Import Sklearn Exact.
Local Open Scope R_scope.

Lemma Rsum_nonneg (v : list R) : Forall (fun x => 0 <= x) v -> 0 <= Rsum v.
Proof.
  induction 1 as [|x t Hx Ht IH]; simpl; lra.
Qed.

Lemma Rsum_zero (v : list R) :
  Forall (fun x => 0 <= x) v -> Rsum v = 0 -> Forall (fun x => x = 0) v.
Proof.
  induction 1 as [|x t Hx Ht IH]; simpl; intros H; constructor.
  - pose proof (Rsum_nonneg t Ht). lra.
  - apply IH. pose proof (Rsum_nonneg t Ht). lra.
Qed.

Lemma squares_nonneg (f : R -> R) (v : list R) :
  Forall (fun x => 0 <= x) (map (fun x => f x * f x) v).
Proof.
  rewrite Forall_map. apply Forall_forall. intros x _. nra.
Qed.

Lemma var_of_nonneg (v : list R) : 0 <= var_of v.
Proof.
  unfold var_of, mean_of at 1. rewrite length_map.
  destruct v as [|x t].
  - simpl. unfold Rdiv. rewrite Rmult_0_l. lra.
  - apply Rmult_le_pos.
    + apply Rsum_nonneg, (squares_nonneg (fun y => y - mean_of (x :: t))).
    + left. apply Rinv_0_lt_compat. apply lt_0_INR. simpl. lia.
Qed.

(** A column of standard deviation 0 is constant. *)
Lemma zero_std_constant (v : list R) (x : R) :
  std_of v = 0 -> In x v -> x = mean_of v.
Proof.
  intros Hs Hx. unfold std_of in Hs.
  apply sqrt_eq_0 in Hs; [|apply var_of_nonneg].
  unfold var_of, mean_of at 1 in Hs. rewrite length_map in Hs.
  assert (Hn : INR (length v) <> 0).
  { apply not_0_INR. destruct v; [contradiction|discriminate]. }
  assert (H0 : Rsum (map (fun y => (y - mean_of v) * (y - mean_of v)) v) = 0).
  { apply (Rmult_eq_reg_r (/ INR (length v))).
    - rewrite Rmult_0_l. exact Hs.
    - now apply Rinv_neq_0_compat. }
  apply Rsum_zero in H0; [|apply (squares_nonneg (fun y => y - mean_of v))].
  rewrite Forall_map, Forall_forall in H0. specialize (H0 x Hx). nra.
Qed.

Lemma scale_of_zero_std (v : list R) : std_of v = 0 -> scale_of v = 1.
Proof.
  intros H. unfold scale_of, handle_zeros_in_scale. rewrite H.
  destruct (Req_dec_T 0 0); [reflexivity|contradiction].
Qed.

Lemma columns_of_length (F : nat) (X : matrix) :
  X <> [] -> regular F X -> length (columns_of X) = F.
Proof.
  intros HX H. unfold columns_of.
  now rewrite length_map, length_seq, (regular_n_features F X HX H).
Qed.

Lemma columns_of_nth (F : nat) (X : matrix) (j : nat) (f : list R -> R) :
  X <> [] -> regular F X -> (j < F)%nat ->
  nth j (map f (columns_of X)) 0 = f (column X j).
Proof.
  intros HX H Hj. unfold columns_of.
  rewrite (regular_n_features F X HX H), map_map.
  rewrite (nth_indep _ 0 (f (column X 0))) by (now rewrite length_map, length_seq).
  rewrite (map_nth (fun k => f (column X k)) (seq 0 F) 0%nat j).
  now rewrite seq_nth.
Qed.

(** The entries of the column [j] of the standardized matrix. *)
Lemma standardize_column (F : nat) (X : matrix) (j : nat) :
  X <> [] -> regular F X -> (j < F)%nat ->
  column (standardize X) j
  = map (fun r => (nth j r 0 - mean_of (column X j)) / scale_of (column X j)) X.
Proof.
  intros HX H Hj. unfold column at 1, standardize. rewrite map_map.
  apply map_ext_in. intros r Hr.
  assert (Hr' : length r = F).
  { unfold regular in H. rewrite Forall_forall in H. now apply H. }
  pose proof (columns_of_length F X HX H) as HC.
  set (g := fun c : R * (R * R) => (fst c - fst (snd c)) / snd (snd c)).
  rewrite (nth_indep _ 0 (g (0, (0, 0)))).
  2:{ rewrite length_map, !length_combine, !length_map, HC, Hr'. lia. }
  rewrite (map_nth g).
  rewrite combine_nth by (rewrite length_combine, !length_map, HC, Hr'; lia).
  rewrite combine_nth by (now rewrite !length_map).
  unfold g. cbn [fst snd].
  now rewrite (columns_of_nth F X j mean_of HX H Hj),
    (columns_of_nth F X j scale_of HX H Hj).
Qed.

Lemma zero_norm_zero (r : list R) :
  row_norm r = 0 -> Forall (fun x => x = 0) r.
Proof.
  intros H. unfold row_norm in H.
  apply sqrt_eq_0 in H;
    [|apply Rsum_nonneg, (squares_nonneg (fun x => x))].
  apply Rsum_zero in H; [|apply (squares_nonneg (fun x => x))].
  rewrite Forall_map in H. apply Forall_forall. intros x Hx.
  rewrite Forall_forall in H. specialize (H x Hx). nra.
Qed.

Lemma unit_row_zero (r : list R) :
  row_norm r = 0 -> Forall (fun x => x = 0) (unit_row r).
Proof.
  intros H. unfold unit_row. rewrite Forall_map.
  pose proof (zero_norm_zero r H) as Hz.
  apply Forall_forall. intros x Hx. rewrite Forall_forall in Hz.
  rewrite (Hz x Hx). unfold Rdiv. apply Rmult_0_l.
Qed.

Lemma dot_zero_r (u v : list R) : Forall (fun x => x = 0) v -> dot u v = 0.
Proof.
  intros H. revert u. unfold dot.
  induction H as [|y t Hy Ht IH]; intros [|x u]; simpl; try reflexivity.
  rewrite IH, Hy. lra.
Qed.

Lemma dot_zero_l (u v : list R) : Forall (fun x => x = 0) u -> dot u v = 0.
Proof.
  intros H. revert v. unfold dot.
  induction H as [|x t Hx Ht IH]; intros [|y v]; simpl; try reflexivity.
  rewrite IH, Hx. lra.
Qed.

Lemma cosine_row_nth (q : list R) (Y : matrix) (i : nat) (d : R) :
  (i < length Y)%nat ->
  nth i (cosine_row q Y) d = dot (unit_row q) (unit_row (nth i Y [])).
Proof.
  intros Hi. unfold cosine_row. rewrite map_map.
  rewrite (nth_indep _ d (dot (unit_row q) (unit_row [])))
    by (now rewrite length_map).
  apply (map_nth (fun r => dot (unit_row q) (unit_row r))).
Qed.

End ExactFacts.

Module Claims_sklearn.

Import Sklearn Exact.
Local Open Scope R_scope.

(** ** C7: a row of norm 0 *)

(** C7: for every matrix Y and vector q, [cosine_similarity] returns (no
    division by zero occurs), the score of every row of Y whose Euclidean
    norm is 0 is 0 whatever q is, and when the norm of q itself is 0 every
    score is 0. *)
Theorem cosine_similarity_zero_norm (q : list R) (Y : matrix) :
  check_array [q] = true -> check_array Y = true ->
  exists sims,
    cosine_similarity [q] Y = Return [sims] /\
    length sims = length Y /\
    (forall i, (i < length Y)%nat -> row_norm (nth i Y []) = 0 ->
               nth i sims 1 = 0) /\
    (row_norm q = 0 -> forall i, (i < length Y)%nat -> nth i sims 1 = 0).
Proof.
  intros Hq HY. exists (cosine_row q Y).
  split; [now apply SklearnFacts.cosine_similarity_return|].
  split; [apply cosine_row_length|]. split.
  - intros i Hi H0. rewrite ExactFacts.cosine_row_nth by exact Hi.
    apply ExactFacts.dot_zero_r, ExactFacts.unit_row_zero, H0.
  - intros H0 i Hi. rewrite ExactFacts.cosine_row_nth by exact Hi.
    apply ExactFacts.dot_zero_l, ExactFacts.unit_row_zero, H0.
Qed.

Lemma cosine_similarity_zero_norm_witness :
  exists sims,
    cosine_similarity [[0; 0]] [[0; 0]; [3; 4]] = Return [sims] /\
    length sims = length [[0; 0]; [3; 4]] /\
    (forall i, (i < length [[0; 0]; [3; 4]])%nat ->
               row_norm (nth i [[0; 0]; [3; 4]] []) = 0 ->
               nth i sims 1 = 0) /\
    (row_norm [0; 0] = 0 ->
     forall i, (i < length [[0; 0]; [3; 4]])%nat -> nth i sims 1 = 0).
Proof.
  apply (cosine_similarity_zero_norm [0; 0] [[0; 0]; [3; 4]]); reflexivity.
Defined.


End Claims_sklearn.

(** ** C5: the feature schema *)

(** C5, as the specification states it, fails: in [catalog_schema] the
    canonical features that are columns are danceability and duration_ms
    (this is also what the loader reports), but the call scores
    danceability and plays: duration_ms is excluded although it is
    canonical, and plays is scored although it is not. *)
Lemma schema_is_not_the_canonical_intersection :
  filter (fun c => str_in c (map label (columns catalog_schema))) FEATURE_COLS
  = ["danceability"; "duration_ms"]%string /\
  available_features catalog_schema = ["danceability"; "duration_ms"]%string /\
  feature_schema catalog_schema = ["danceability"; "plays"]%string /\
  feature_schema catalog_schema
  <> filter (fun c => str_in c (map label (columns catalog_schema))) FEATURE_COLS /\
  feature_matrix catalog_schema = [[0.5; 10]; [0.75; 20]]%R /\
  exists recs out',
    recommend_from_song plain_float "A" catalog_schema 10 [] = (Return recs, out') /\
    nth 2 out' (PrintFeatures []) = PrintFeatures ["danceability"; "plays"]%string.
Proof.
  do 3 (split; [reflexivity|]). split; [discriminate|].
  split; [reflexivity|].
  eexists. eexists. split; [now apply recommend_from_song_found|reflexivity].
Qed.

Lemma str_in_false (c : string) (l : list string) :
  str_in c l = false <-> ~ In c l.
Proof.
  rewrite <- str_in_In. destruct (str_in c l); split; congruence.
Qed.

Lemma filter_numeric_outside (excluded : list string) (df : DataFrame) :
  filter (fun c => negb (str_in c excluded)) (numeric_columns df)
  = numeric_outside excluded df.
Proof.
  unfold numeric_columns, numeric_outside.
  induction (columns df) as [|s t IH]; [reflexivity|]. cbn [filter].
  destruct (is_numeric (data s)); cbn [andb map filter]; [|exact IH].
  destruct (negb (str_in (label s) excluded)); cbn [map]; now rewrite IH.
Qed.

(** C5 (amended): the features that are scored are the int64 and float64
    columns of the catalog, in column order, whose label is not one of
    artist, song, duration_ms, explicit, year, popularity, genre; when there
    is no such column, they are the int64 and float64 columns other than
    year and popularity. The canonical list FEATURE_COLS is not consulted;
    each of its entries other than duration_ms is scored when it is a
    numeric column of the catalog. The first part of the statement gives
    the list itself, with its order; the second part reads it label by
    label. *)
Theorem feature_schema_spec (df : DataFrame) (c : string) :
  feature_schema df
  = (if is_nil (numeric_outside exclude_cols df)
     then numeric_outside fallback_exclude df
     else numeric_outside exclude_cols df) /\
  (In c (feature_schema df) <->
   In c (numeric_columns df) /\
   (~ In c exclude_cols \/
    ((forall c', In c' (numeric_columns df) -> In c' exclude_cols) /\
     ~ In c fallback_exclude))) /\
  (In c FEATURE_COLS -> c <> "duration_ms"%string ->
   In c (numeric_columns df) -> In c (feature_schema df)).
Proof.
  assert (Hprim : forall x, In x (primary_features (numeric_columns df)) <->
                            In x (numeric_columns df) /\ ~ In x exclude_cols).
  { intros x. unfold primary_features. rewrite filter_In, negb_true_iff.
    now rewrite str_in_false. }
  assert (Hfall : forall x, In x (fallback_features (numeric_columns df)) <->
                            In x (numeric_columns df) /\ ~ In x fallback_exclude).
  { intros x. unfold fallback_features. rewrite filter_In, negb_true_iff.
    now rewrite str_in_false. }
  assert (Hiff :
            In c (feature_schema df) <->
            In c (numeric_columns df) /\
            (~ In c exclude_cols \/
             ((forall c', In c' (numeric_columns df) -> In c' exclude_cols) /\
              ~ In c fallback_exclude))).
  { unfold feature_schema.
    destruct (is_nil (primary_features (numeric_columns df))) eqn:E.
    - assert (Hall : forall c', In c' (numeric_columns df) -> In c' exclude_cols).
      { intros c' Hc'. destruct (str_in c' exclude_cols) eqn:Ex.
        - now apply str_in_In.
        - exfalso. apply str_in_false in Ex.
          assert (Hin : In c' (primary_features (numeric_columns df)))
            by (apply Hprim; now split).
          destruct (primary_features (numeric_columns df));
            [exact Hin|discriminate]. }
      rewrite Hfall. split.
      + intros [H1 H2]. split; [exact H1|]. right. now split.
      + intros [H1 [H2|[_ H2]]]; [|now split].
        exfalso. apply H2. now apply Hall.
    - assert (Hex : exists p, In p (primary_features (numeric_columns df))).
      { destruct (primary_features (numeric_columns df)) as [|p ps];
          [discriminate|]. exists p. now left. }
      destruct Hex as [p Hp]. apply Hprim in Hp as [Hp1 Hp2].
      rewrite Hprim. split.
      + intros [H1 H2]. split; [exact H1|now left].
      + intros [H1 [H2|[H2 _]]]; [now split|].
        exfalso. apply Hp2. now apply H2. }
  split.
  { unfold feature_schema, primary_features, fallback_features.
    now rewrite !filter_numeric_outside. }
  split; [exact Hiff|].
  intros Hcanon Hdur Hnum. apply Hiff. split; [exact Hnum|]. left.
  intros Hex. unfold FEATURE_COLS in Hcanon. unfold exclude_cols in Hex.
  simpl in Hcanon, Hex.
  repeat (destruct Hcanon as [<-|Hcanon];
          [repeat (destruct Hex as [Hex|Hex]; try discriminate Hex);
           try contradiction; try (now apply Hdur)|]).
  exact Hcanon.
Qed.

(** * More on [recommend_from_song] *)

Lemma filter_excluded (ex l : list string) :
  (forall c, In c l -> In c ex) ->
  filter (fun c => negb (str_in c ex)) l = [].
Proof.
  induction l as [|c t IH]; intros H; cbn [filter]; [reflexivity|].
  assert (Hc : str_in c ex = true) by (apply str_in_In, H; now left).
  rewrite Hc. cbn [negb]. apply IH. intros x Hx. apply H. now right.
Qed.

(** X1: when the query title is in the catalog but every int64 or float64
    column is called year or popularity (in particular when the catalog has
    no numeric column at all), the call raises
    ValueError("No numeric features found for recommendations"), after it
    has printed an empty list of feature columns. *)
Theorem recommend_from_song_no_features
        (float_str : R -> string) (song_name : string) (df : DataFrame)
        (n : Z) (tracks : Series) :
  find (fun s => String.eqb (label s) track_column) (columns df) = Some tracks ->
  contains (data tracks) song_name = true ->
  (forall c, In c (numeric_columns df) -> In c fallback_exclude) ->
  forall out,
    recommend_from_song float_str song_name df n out
    = (Raise (ValueError no_features_msg),
       out ++ [ PrintColumns track_column artist_column;
                PrintLooking song_name;
                PrintFeatures [] ]).
Proof.
  intros Hfind Hcont Hnum out.
  assert (Hfb : fallback_features (numeric_columns df) = [])
    by (now apply filter_excluded).
  assert (Hpr : primary_features (numeric_columns df) = []).
  { apply filter_excluded. intros c Hc. specialize (Hnum c Hc).
    unfold fallback_exclude in Hnum. unfold exclude_cols. simpl in *. tauto. }
  unfold recommend_from_song, bind, print, getitem, lift_opt, ret, raise.
  fold track_column. rewrite Hfind, Hcont. cbn [negb].
  rewrite Hpr. cbn [is_nil]. rewrite Hfb. cbn [is_nil].
  now rewrite <- !app_assoc.
Qed.

Lemma recommend_from_song_no_features_witness :
  recommend_from_song plain_float "A" catalog_no_features 10 []
  = (Raise (ValueError no_features_msg),
     [] ++ [ PrintColumns track_column artist_column;
             PrintLooking "A";
             PrintFeatures [] ]).
Proof.
  apply (recommend_from_song_no_features plain_float "A" catalog_no_features 10
           (mkSeries "song" (text ["A"; "B"]%string))).
  - reflexivity.
  - reflexivity.
  - intros c [<-|[]]. simpl. now left.
Defined.

Lemma NoDup_skipn {A} (k : nat) (l : list A) : NoDup l -> NoDup (skipn k l).
Proof.
  revert l. induction k as [|k IH]; intros [|a t] H; simpl; auto.
  inversion H; subst. now apply IH.
Qed.

Lemma NoDup_firstn {A} (k : nat) (l : list A) : NoDup l -> NoDup (firstn k l).
Proof.
  revert l. induction k as [|k IH]; intros [|a t] H; simpl; try constructor.
  - inversion H as [|? ? Ha Ht]; subst. intros Hin. apply Ha.
    now apply firstn_incl with k.
  - inversion H; subst. now apply IH.
Qed.

Lemma py_slice_NoDup {A} (a b : Z) (l : list A) : NoDup l -> NoDup (py_slice a b l).
Proof. intros H. unfold py_slice. now apply NoDup_firstn, NoDup_skipn. Qed.

Lemma similar_indices_NoDup (song_name : string) (df : DataFrame) (n : Z) :
  NoDup (similar_indices song_name df n).
Proof.
  unfold similar_indices. apply py_slice_NoDup, NoDup_rev, NumpyFacts.argsort_NoDup.
Qed.

Lemma range_index_nth (N i : nat) :
  i < N -> nth i (range_index N) 0%Z = Z.of_nat i.
Proof.
  intros H. unfold range_index.
  rewrite (nth_indep _ 0%Z (Z.of_nat 0)) by (now rewrite length_map, length_seq).
  rewrite map_nth, seq_nth by exact H. reflexivity.
Qed.

(** The labels of the returned rows are the selected positions. *)
Lemma recommendations_labels
      (float_str : R -> string) (song_name : string) (df : DataFrame) (n : Z) :
  valid_call song_name df = true ->
  index (recommendations float_str song_name df n)
  = map Z.of_nat (similar_indices song_name df n).
Proof.
  intros Hv. rewrite recommendations_index.
  destruct (valid_call_inv _ _ Hv) as [Hw _].
  destruct (well_formed_inv _ Hw) as [Hidx _].
  pose proof (similar_indices_range song_name df n
                (similarities_length song_name df Hv)) as Hsel.
  apply map_ext_in. intros i Hi. rewrite Forall_forall in Hsel.
  rewrite Hidx. apply range_index_nth. now apply Hsel.
Qed.

Lemma range_index_In (N : nat) (z : Z) :
  In z (range_index N) <-> exists i, i < N /\ z = Z.of_nat i.
Proof.
  unfold range_index. rewrite in_map_iff. split.
  - intros [i [<- Hi]]. apply in_seq in Hi. exists i. split; [lia|reflexivity].
  - intros [i [Hi ->]]. exists i. split; [reflexivity|apply in_seq; lia].
Qed.

Lemma NoDup_map_of_nat (l : list nat) : NoDup l -> NoDup (map Z.of_nat l).
Proof.
  induction 1 as [|a t Ha Ht IH]; simpl; constructor; [|exact IH].
  intros Hin. apply in_map_iff in Hin as [b [Hb Hin]].
  apply Nat2Z.inj in Hb. now subst.
Qed.

(** X3: on a valid call no catalog row is returned twice, every returned
    row label is a label of the catalog, and when the count n is at least
    N - 1 the result holds every catalog row but one. *)
Theorem recommend_from_song_distinct_rows
        (float_str : R -> string) (song_name : string) (df : DataFrame) (n : Z) :
  valid_call song_name df = true ->
  forall out, exists recs out',
    recommend_from_song float_str song_name df n out = (Return recs, out') /\
    NoDup (index recs) /\
    incl (index recs) (index df) /\
    ((Z.of_nat (length (index df)) - 1 <= n)%Z ->
     exists dropped, Permutation (dropped :: index recs) (index df)).
Proof.
  intros Hv out.
  exists (recommendations float_str song_name df n).
  exists (out ++ found_output float_str song_name df n).
  split; [now apply recommend_from_song_found|].
  rewrite (recommendations_labels float_str song_name df n Hv).
  destruct (valid_call_inv _ _ Hv) as [Hw _].
  destruct (well_formed_inv _ Hw) as [Hidx _].
  pose proof (similar_indices_range song_name df n
                (similarities_length song_name df Hv)) as Hsel.
  pose proof (valid_call_nonempty song_name df Hv) as HN.
  split; [|split].
  - apply NoDup_map_of_nat, similar_indices_NoDup.
  - intros z Hz. apply in_map_iff in Hz as [i [<- Hi]].
    rewrite Hidx. apply range_index_In. exists i. split; [|reflexivity].
    rewrite Forall_forall in Hsel. now apply Hsel.
  - intros Hn.
    assert (HNpos : (1 <= Z.of_nat (length (index df)))%Z).
    { destruct (index df); [contradiction|simpl length; lia]. }
    pose proof (NumpyFacts.argsort_perm (similarities song_name df)) as Hp.
    rewrite (similarities_length song_name df Hv) in Hp.
    apply (Permutation_trans (Permutation_sym (Permutation_rev _))) in Hp.
    unfold similar_indices. rewrite py_slice_tail by lia.
    destruct (rev (Numpy.argsort (similarities song_name df))) as [|d t] eqn:E.
    + apply Permutation_length in Hp. rewrite length_seq in Hp.
      simpl in Hp. lia.
    + exists (Z.of_nat d). cbn [skipn].
      rewrite firstn_all2.
      * rewrite Hidx. unfold range_index.
        change (Z.of_nat d :: map Z.of_nat t) with (map Z.of_nat (d :: t)).
        now apply Permutation_map.
      * apply Permutation_length in Hp. rewrite length_seq in Hp.
        simpl in Hp. lia.
Qed.

Lemma recommend_from_song_distinct_rows_witness :
  exists recs out',
    recommend_from_song plain_float "A" catalog_pairs 10 [] = (Return recs, out') /\
    NoDup (index recs) /\
    incl (index recs) (index catalog_pairs) /\
    ((Z.of_nat (length (index catalog_pairs)) - 1 <= 10)%Z ->
     exists dropped, Permutation (dropped :: index recs) (index catalog_pairs)).
Proof.
  apply (recommend_from_song_distinct_rows plain_float "A" catalog_pairs 10).
  reflexivity.
Defined.

Module Two.

Import Sklearn Exact.
Local Open Scope R_scope.

Lemma two_mean : mean_of [1; 3] = 2.
Proof. unfold mean_of. simpl. lra. Qed.

Lemma two_scale : scale_of [1; 3] = 1.
Proof.
  unfold scale_of, std_of, var_of. rewrite two_mean.
  replace (mean_of _) with 1 by (unfold mean_of; simpl; lra).
  rewrite sqrt_1. apply Pairs.handle_zeros_one.
Qed.

Lemma two_standardized :
  standardize (feature_matrix catalog_two) = [[-1]; [1]].
Proof.
  change (feature_matrix catalog_two) with [[1]; [3]].
  unfold standardize, columns_of, n_features, column.
  cbn [map seq hd length nth combine fst snd].
  rewrite two_mean, two_scale.
  repeat f_equal; lra.
Qed.

Lemma two_similarities : similarities "A" catalog_two = [1; -1].
Proof.
  unfold similarities. rewrite two_standardized.
  change (query_position "A" catalog_two) with 0%nat.
  unfold cosine_row. cbn [nth map].
  rewrite !Pairs.unit_row_one by lra.
  unfold dot. cbn [combine map Rsum fst snd].
  repeat f_equal; lra.
Qed.

End Two.


(** ** The returned rows carry the catalog's cells *)

Lemma mapM_nth_error {A B} (f : A -> option B) (l : list A) (l' : list B)
      (k : nat) (x : A) :
  mapM f l = Some l' -> nth_error l k = Some x ->
  exists y, f x = Some y /\ nth_error l' k = Some y.
Proof.
  revert l' k. induction l as [|a t IH]; intros l' k; simpl.
  - intros _ Hk. destruct k; discriminate.
  - destruct (f a) as [b|] eqn:Ea; [|discriminate].
    destruct (mapM f t) as [bs|] eqn:Et; [|discriminate].
    intros [= <-] Hk. destruct k as [|k]; simpl in *.
    + injection Hk as <-. now exists b.
    + now apply (IH bs k).
Qed.

Lemma take_nth_error {A} (l l' : list A) (idx : list nat) (k i : nat) :
  take l idx = Some l' -> nth_error idx k = Some i ->
  nth_error l' k = nth_error l i.
Proof.
  intros Ht Hk. destruct (mapM_nth_error _ _ _ _ _ Ht Hk) as [y [Hy Hy']].
  now rewrite Hy, Hy'.
Qed.

Lemma take_data_cell (d d' : ColData) (idx : list nat) (k i : nat) :
  take_data d idx = Some d' -> nth_error idx k = Some i ->
  cell_at d' k = cell_at d i.
Proof.
  intros Ht Hk. destruct d as [v|v|v|v]; simpl in Ht;
    destruct (take v idx) as [v'|] eqn:E; try discriminate;
    injection Ht as <-; simpl;
    now rewrite (take_nth_error v v' idx k i E Hk).
Qed.

(** X4: on a valid call each returned row carries, in every column of the
    catalog other than similarity and spotify_link, the cell of the catalog
    row whose label it bears: rows are copied whole, never mixed. *)
Theorem recommend_from_song_rows_copied
        (float_str : R -> string) (song_name : string) (df : DataFrame) (n : Z) :
  valid_call song_name df = true ->
  forall out, exists recs out',
    recommend_from_song float_str song_name df n out = (Return recs, out') /\
    forall c d,
      c <> "similarity"%string -> c <> "spotify_link"%string ->
      column_data df c = Some d ->
      exists d',
        column_data recs c = Some d' /\
        forall k, k < length (index recs) ->
                  cell_at d' k = cell_at d (Z.to_nat (nth k (index recs) 0%Z)).
Proof.
  intros Hv out.
  exists (recommendations float_str song_name df n).
  exists (out ++ found_output float_str song_name df n).
  split; [now apply recommend_from_song_found|].
  intros c d Hc1 Hc2 Hd.
  destruct (valid_call_inv _ _ Hv) as [Hw _].
  destruct (well_formed_inv _ Hw) as [_ [Hcols _]].
  pose proof (similar_indices_range song_name df n
                (similarities_length song_name df Hv)) as Hsel.
  rewrite (recommendations_labels float_str song_name df n Hv).
  unfold column_data in *.
  destruct (find (fun s => String.eqb (label s) c) (columns df)) as [s|] eqn:Hf;
    [|discriminate].
  injection Hd as <-.
  unfold recommendations, scored_rows, setitem. cbn [columns].
  rewrite !find_set_column_other by assumption.
  unfold rows_at. cbn [columns].
  rewrite find_map_label by reflexivity. rewrite Hf. cbn [option_map data].
  rewrite Forall_forall in Hcols. pose proof (find_some _ _ Hf) as [Hs _].
  destruct (take_data_some (data s) (similar_indices song_name df n))
    as [d' [Hd' _]].
  { now rewrite (Hcols s Hs). }
  rewrite Hd'. exists d'. split; [reflexivity|].
  intros k Hk. rewrite length_map in Hk.
  rewrite (nth_indep _ 0%Z (Z.of_nat 0)) by (now rewrite length_map).
  rewrite map_nth, Nat2Z.id.
  apply (take_data_cell (data s) d' (similar_indices song_name df n)).
  - exact Hd'.
  - now apply nth_error_nth'.
Qed.

Lemma recommend_from_song_rows_copied_witness :
  exists recs out',
    recommend_from_song plain_float "A" catalog_pairs 2 [] = (Return recs, out') /\
    forall c d,
      c <> "similarity"%string -> c <> "spotify_link"%string ->
      column_data catalog_pairs c = Some d ->
      exists d',
        column_data recs c = Some d' /\
        forall k, k < length (index recs) ->
                  cell_at d' k = cell_at d (Z.to_nat (nth k (index recs) 0%Z)).
Proof.
  apply (recommend_from_song_rows_copied plain_float "A" catalog_pairs 2).
  reflexivity.
Defined.

(** * Dictionaries *)

Lemma dict_get_set_same {V} (d : dict V) (k : string) (v : V) :
  dict_get (dict_set d k v) k = Some v.
Proof.
  unfold dict_get. induction d as [|[k' v'] t IH]; simpl.
  - now rewrite String.eqb_refl.
  - destruct (String.eqb k' k) eqn:E; simpl; rewrite E; [reflexivity|exact IH].
Qed.

Lemma dict_get_set_other {V} (d : dict V) (k k' : string) (v : V) :
  k' <> k -> dict_get (dict_set d k v) k' = dict_get d k'.
Proof.
  intros Hne. unfold dict_get. induction d as [|[k0 v0] t IH]; simpl.
  - apply String.eqb_neq in Hne. now rewrite String.eqb_sym, Hne.
  - destruct (String.eqb k0 k) eqn:E; simpl.
    + apply String.eqb_eq in E. subst k0.
      apply String.eqb_neq in Hne. now rewrite String.eqb_sym, Hne.
    + destruct (String.eqb k0 k'); [reflexivity|exact IH].
Qed.

(** After a sequence of assignments, a key holds the value assigned to it
    last. *)
Lemma dict_get_fold {V} (pairs l2 : list (string * V)) (d : dict V)
      (k : string) (v : V) (l1 : list (string * V)) :
  pairs = l1 ++ (k, v) :: l2 ->
  (forall p, In p l2 -> fst p <> k) ->
  dict_get (fold_left (fun d kv => dict_set d (fst kv) (snd kv)) pairs d) k
  = Some v.
Proof.
  intros -> Hl2. rewrite fold_left_app. cbn [fold_left fst snd].
  set (d1 := dict_set _ k v).
  assert (H1 : dict_get d1 k = Some v) by apply dict_get_set_same.
  clearbody d1. revert d1 H1.
  induction l2 as [|[k2 v2] t IH]; intros d1 H1; cbn [fold_left fst snd].
  - exact H1.
  - apply IH.
    + intros p Hp. apply Hl2. now right.
    + rewrite dict_get_set_other; [exact H1|].
      intros E. apply (Hl2 (k2, v2)); [now left|]. now rewrite E.
Qed.

Lemma dict_get_fold_none {V} (pairs : list (string * V)) (d : dict V) (k : string) :
  (forall p, In p pairs -> fst p <> k) ->
  dict_get (fold_left (fun d kv => dict_set d (fst kv) (snd kv)) pairs d) k
  = dict_get d k.
Proof.
  revert d. induction pairs as [|[k2 v2] t IH]; intros d H; cbn [fold_left fst snd].
  - reflexivity.
  - rewrite IH by (intros p Hp; apply H; now right).
    apply dict_get_set_other. intros E. apply (H (k2, v2)); [now left|].
    now rewrite E.
Qed.

(** The last pair with a given key. *)
Lemma last_occurrence {V} (pairs : list (string * V)) (k : string) :
  (exists p, In p pairs /\ fst p = k) ->
  exists l1 v l2, pairs = l1 ++ (k, v) :: l2 /\ forall p, In p l2 -> fst p <> k.
Proof.
  induction pairs as [|[k0 v0] t IH]; intros [p [Hp Hk]]; [contradiction|].
  destruct (existsb (fun q => String.eqb (fst q) k) t) eqn:E.
  - apply existsb_exists in E as [q [Hq Hqk]]. apply String.eqb_eq in Hqk.
    destruct IH as [l1 [v [l2 [-> Hl2]]]]; [now exists q|].
    exists ((k0, v0) :: l1), v, l2. now split.
  - destruct Hp as [<-|Hp].
    + simpl in Hk. subst k0. exists [], v0, t. split; [reflexivity|].
      intros q Hq Hqk.
      assert (Hex : existsb (fun q => String.eqb (fst q) k) t = true).
      { apply existsb_exists. exists q. split; [exact Hq|].
        now apply String.eqb_eq. }
      congruence.
    + exfalso.
      assert (Hex : existsb (fun q => String.eqb (fst q) k) t = true).
      { apply existsb_exists. exists p. split; [exact Hp|].
        now apply String.eqb_eq. }
      congruence.
Qed.

(** * The dropdown *)

Section DropdownFacts.

Variable float_str : R -> string.

Lemma has_titles_inv (df : DataFrame) :
  has_titles df = true ->
  exists s a,
    find (fun x => String.eqb (label x) track_column) (columns df) = Some s /\
    find (fun x => String.eqb (label x) artist_column) (columns df) = Some a /\
    col_len (data s) = length (index df) /\
    col_len (data a) = length (index df).
Proof.
  unfold has_titles, column_data. intros H.
  destruct (find (fun x => String.eqb (label x) track_column) (columns df))
    as [s|]; [|discriminate].
  destruct (find (fun x => String.eqb (label x) artist_column) (columns df))
    as [a|]; [|discriminate].
  simpl in H. apply andb_prop in H as [H1 H2].
  apply Nat.eqb_eq in H1, H2. now exists s, a.
Qed.

Lemma display_name_return (df : DataFrame) (i : nat) :
  has_titles df = true -> i < length (index df) ->
  forall out, display_name float_str df i out
              = (Return (display_text float_str df i), out).
Proof.
  intros H Hi out. destruct (has_titles_inv df H) as [s [a [Hs [Ha [Ls La]]]]].
  unfold display_name, bind.
  rewrite (row_field_return float_str df i _ _ Hs) by lia.
  rewrite (row_field_return float_str df i _ _ Ha) by lia.
  reflexivity.
Qed.

Lemma cell_at_some (d : ColData) (i : nat) :
  i < col_len d -> exists c, cell_at d i = Some c.
Proof.
  intros H. destruct d as [v|v|v|v]; simpl in *;
    destruct (nth_error v i) eqn:E;
    try (eexists; reflexivity);
    apply nth_error_None in E; lia.
Qed.

Lemma row_value_return (df : DataFrame) (i : nat) :
  has_titles df = true -> i < length (index df) ->
  forall out, row_value df i track_column out = (Return (title_cell df i), out).
Proof.
  intros H Hi out. destruct (has_titles_inv df H) as [s [a [Hs [Ha [Ls La]]]]].
  unfold row_value, bind, getitem, title_cell, column_data.
  rewrite Hs. simpl.
  destruct (cell_at_some (data s) i) as [c Hc]; [lia|]. now rewrite Hc.
Qed.

Lemma get_available_songs_return (df : DataFrame) :
  has_titles df = true ->
  forall out,
    get_available_songs float_str df out
    = (Return (map (display_text float_str df) (seq 0 (length (index df)))), out).
Proof.
  intros H out. unfold get_available_songs. apply forM_return.
  intros i Hi out0. apply in_seq in Hi. now apply display_name_return.
Qed.

Lemma get_song_mapping_return (df : DataFrame) :
  has_titles df = true ->
  forall out,
    get_song_mapping float_str df out = (Return (dict_of (mapping_pairs float_str df)), out).
Proof.
  intros H out. unfold get_song_mapping, bind.
  rewrite (forM_return _ (fun i => (display_text float_str df i, title_cell df i))).
  - reflexivity.
  - intros i Hi out0. apply in_seq in Hi. unfold bind.
    rewrite display_name_return, row_value_return by (auto; lia).
    reflexivity.
Qed.

Lemma mapping_pairs_nth (df : DataFrame) (i : nat) :
  i < length (index df) ->
  nth_error (mapping_pairs float_str df) i
  = Some (display_text float_str df i, title_cell df i).
Proof.
  intros Hi. unfold mapping_pairs.
  rewrite nth_error_map, nth_error_nth' with (d := 0) by (now rewrite length_seq).
  now rewrite seq_nth.
Qed.

Lemma mapping_pairs_In (df : DataFrame) (p : string * cell) :
  In p (mapping_pairs float_str df) <->
  exists i, i < length (index df) /\
            p = (display_text float_str df i, title_cell df i).
Proof.
  unfold mapping_pairs. rewrite in_map_iff. split.
  - intros [i [<- Hi]]. apply in_seq in Hi. exists i. split; [lia|reflexivity].
  - intros [i [Hi ->]]. exists i. split; [reflexivity|apply in_seq; lia].
Qed.

(** The value under a display name is the title of the last row that has
    this display name. *)
Lemma mapping_last_row (df : DataFrame) (i : nat) :
  i < length (index df) ->
  exists j,
    i <= j < length (index df) /\
    display_text float_str df j = display_text float_str df i /\
    (forall j', j < j' < length (index df) ->
                display_text float_str df j' <> display_text float_str df i) /\
    dict_get (dict_of (mapping_pairs float_str df)) (display_text float_str df i)
    = Some (title_cell df j).
Proof.
  intros Hi.
  destruct (last_occurrence (mapping_pairs float_str df)
                            (display_text float_str df i))
    as [l1 [v [l2 [E Hl2]]]].
  { exists (display_text float_str df i, title_cell df i). split; [|reflexivity].
    apply mapping_pairs_In. now exists i. }
  assert (Hlen : length (mapping_pairs float_str df) = length (index df)).
  { unfold mapping_pairs. now rewrite length_map, length_seq. }
  assert (Hj : length l1 < length (index df)).
  { rewrite <- Hlen, E, length_app. simpl. lia. }
  pose proof (mapping_pairs_nth df (length l1) Hj) as Hn.
  rewrite E, nth_error_app2, Nat.sub_diag in Hn by lia.
  simpl in Hn. injection Hn as Hk Hv.
  assert (Hlater : forall j', length l1 < j' < length (index df) ->
             display_text float_str df j' <> display_text float_str df i).
  { intros j' Hj' Heq.
    pose proof (mapping_pairs_nth df j' (proj2 Hj')) as Hn'.
    rewrite E, nth_error_app2 in Hn' by lia.
    destruct (j' - length l1) as [|m] eqn:Em; [lia|]. simpl in Hn'.
    apply nth_error_In in Hn'. apply (Hl2 _ Hn'). exact Heq. }
  exists (length l1). split; [|split; [|split]].
  - split; [|exact Hj].
    destruct (Nat.le_gt_cases i (length l1)) as [H|H]; [exact H|].
    exfalso. apply (Hlater i); [lia|reflexivity].
  - now symmetry.
  - exact Hlater.
  - unfold dict_of. rewrite (dict_get_fold _ l2 [] _ v l1 E Hl2).
    now rewrite Hv.
Qed.

End DropdownFacts.

(** X7: for every frame that has a title and an artist column with one
    cell per row, [get_available_songs] and [get_song_mapping] return
    without raising or printing, there is one display name per row, and
    every display name is a key of the mapping: the lookup
    [song_mapping[selected_song_display]] of the dropdown never raises
    KeyError. *)
Theorem dropdown_names_are_mapping_keys
        (float_str : R -> string) (df : DataFrame) :
  has_titles df = true ->
  forall out, exists names mapping,
    get_available_songs float_str df out = (Return names, out) /\
    get_song_mapping float_str df out = (Return mapping, out) /\
    length names = length (index df) /\
    forall d, In d names -> dict_mem mapping d = true.
Proof.
  intros H out.
  exists (map (display_text float_str df) (seq 0 (length (index df)))).
  exists (dict_of (mapping_pairs float_str df)).
  split; [now apply get_available_songs_return|].
  split; [now apply get_song_mapping_return|].
  split; [now rewrite length_map, length_seq|].
  intros d Hd. apply in_map_iff in Hd as [i [<- Hi]]. apply in_seq in Hi.
  destruct (mapping_last_row float_str df i) as [j [_ [_ [_ Hg]]]]; [lia|].
  unfold dict_get in Hg. unfold dict_mem.
  destruct (find _ (dict_of (mapping_pairs float_str df))) as [p|] eqn:E;
    [|discriminate].
  apply find_some in E as [Hp Hk]. apply existsb_exists. now exists p.
Qed.

Lemma dropdown_names_are_mapping_keys_witness :
  exists names mapping,
    get_available_songs plain_float catalog_covers [] = (Return names, []) /\
    get_song_mapping plain_float catalog_covers [] = (Return mapping, []) /\
    length names = length (index catalog_covers) /\
    forall d, In d names -> dict_mem mapping d = true.
Proof.
  apply (dropdown_names_are_mapping_keys plain_float catalog_covers).
  reflexivity.
Defined.

(** X8: in a frame whose title column is text, the mapping sends the
    display name of a row to the title of the last row that has this
    display name; when no two rows have the same display name, it sends
    every display name to the title of its own row. (The rows of a frame
    that has no text column at all reach the loop converted to float64;
    such frames are left out here.) *)
Theorem song_mapping_last_row_wins
        (float_str : R -> string) (df : DataFrame) :
  has_titles df = true ->
  (exists titles, column_data df track_column = Some (Object titles)) ->
  forall out, exists names mapping,
    get_available_songs float_str df out = (Return names, out) /\
    get_song_mapping float_str df out = (Return mapping, out) /\
    (forall i, i < length (index df) ->
       exists j,
         i <= j < length (index df) /\
         nth j names EmptyString = nth i names EmptyString /\
         (forall j', j < j' < length (index df) ->
                     nth j' names EmptyString <> nth i names EmptyString) /\
         dict_get mapping (nth i names EmptyString) = Some (title_cell df j)) /\
    (NoDup names ->
     forall i, i < length (index df) ->
       dict_get mapping (nth i names EmptyString) = Some (title_cell df i)).
Proof.
  intros H _ out.
  exists (map (display_text float_str df) (seq 0 (length (index df)))).
  exists (dict_of (mapping_pairs float_str df)).
  split; [now apply get_available_songs_return|].
  split; [now apply get_song_mapping_return|].
  assert (Hnth : forall i, i < length (index df) ->
            nth i (map (display_text float_str df) (seq 0 (length (index df))))
                EmptyString
            = display_text float_str df i).
  { intros i Hi.
    rewrite (nth_indep _ EmptyString (display_text float_str df 0))
      by (now rewrite length_map, length_seq).
    now rewrite map_nth, seq_nth. }
  assert (Hgen : forall i, i < length (index df) ->
       exists j,
         i <= j < length (index df) /\
         nth j (map (display_text float_str df) (seq 0 (length (index df))))
             EmptyString
         = nth i (map (display_text float_str df) (seq 0 (length (index df))))
               EmptyString /\
         (forall j', j < j' < length (index df) ->
            nth j' (map (display_text float_str df) (seq 0 (length (index df))))
                EmptyString
            <> nth i (map (display_text float_str df) (seq 0 (length (index df))))
                   EmptyString) /\
         dict_get (dict_of (mapping_pairs float_str df))
                  (nth i (map (display_text float_str df)
                              (seq 0 (length (index df)))) EmptyString)
         = Some (title_cell df j)).
  { intros i Hi.
    destruct (mapping_last_row float_str df i Hi) as [j [Hj [Hd [Hl Hg]]]].
    exists j. rewrite !Hnth by lia. repeat split; try lia; try assumption.
    intros j' Hj'. rewrite Hnth by lia. now apply Hl. }
  split; [exact Hgen|].
  intros Hnd i Hi. destruct (Hgen i Hi) as [j [Hj [Hd [_ Hg]]]].
  assert (j = i) as ->; [|exact Hg].
  apply (proj1 (NoDup_nth _ EmptyString) Hnd);
    rewrite ?length_map, ?length_seq; try lia. exact Hd.
Qed.

Lemma song_mapping_last_row_wins_witness :
  exists names mapping,
    get_available_songs plain_float catalog_covers [] = (Return names, []) /\
    get_song_mapping plain_float catalog_covers [] = (Return mapping, []) /\
    (forall i, i < length (index catalog_covers) ->
       exists j,
         i <= j < length (index catalog_covers) /\
         nth j names EmptyString = nth i names EmptyString /\
         (forall j', j < j' < length (index catalog_covers) ->
                     nth j' names EmptyString <> nth i names EmptyString) /\
         dict_get mapping (nth i names EmptyString)
         = Some (title_cell catalog_covers j)) /\
    (NoDup names ->
     forall i, i < length (index catalog_covers) ->
       dict_get mapping (nth i names EmptyString)
       = Some (title_cell catalog_covers i)).
Proof.
  apply (song_mapping_last_row_wins plain_float catalog_covers).
  - reflexivity.
  - exists [Some "Hello"; Some "Stay"; Some "Hello"]%string. reflexivity.
Defined.


Lemma dict_of_In {V} (pairs : list (string * V)) (k : string) (v : V) :
  dict_get (dict_of pairs) k = Some v -> In (k, v) pairs.
Proof.
  intros H.
  destruct (existsb (fun q => String.eqb (fst q) k) pairs) eqn:E.
  - apply existsb_exists in E as [q [Hq Hqk]]. apply String.eqb_eq in Hqk.
    destruct (last_occurrence pairs k) as [l1 [v' [l2 [Ep Hl2]]]];
      [now exists q|].
    unfold dict_of in H. rewrite (dict_get_fold _ l2 [] _ v' l1 Ep Hl2) in H.
    injection H as <-. rewrite Ep. apply in_or_app. right. now left.
  - unfold dict_of in H. rewrite dict_get_fold_none in H; [discriminate|].
    intros p Hp Hk.
    assert (Hex : existsb (fun q => String.eqb (fst q) k) pairs = true).
    { apply existsb_exists. exists p. split; [exact Hp|].
      now apply String.eqb_eq. }
    congruence.
Qed.

Lemma first_true_min (mask : list bool) (i : nat) :
  i < first_true mask -> nth i mask false = false.
Proof.
  revert i. induction mask as [|b t IH]; intros i Hi; simpl in *; [lia|].
  destruct b; [lia|]. destruct i as [|i]; [reflexivity|].
  apply IH. lia.
Qed.

(** The title mask, cell by cell. *)
Lemma song_mask_nth (df : DataFrame) (t : string) (i : nat) :
  nth i (song_mask df t) false = true <->
  title_cell df i = CObject (Some t).
Proof.
  unfold song_mask, title_cell, column_data.
  destruct (find (fun s => String.eqb (label s) track_column) (columns df))
    as [s|]; simpl.
  - destruct (data s) as [v|v|v|v]; simpl.
    + split.
      * intros H. exfalso. revert i H.
        induction v as [|x v IH]; intros [|i]; simpl; try discriminate.
        apply IH.
      * destruct (nth_error v i); simpl; discriminate.
    + split.
      * intros H. exfalso. revert i H.
        induction v as [|x v IH]; intros [|i]; simpl; try discriminate.
        apply IH.
      * destruct (nth_error v i); simpl; discriminate.
    + split.
      * intros H. exfalso. revert i H.
        induction v as [|x v IH]; intros [|i]; simpl; try discriminate.
        apply IH.
      * destruct (nth_error v i); simpl; discriminate.
    + revert i. induction v as [|x v IH]; intros [|i]; simpl;
        try (split; discriminate).
      * destruct x as [u|]; [|split; discriminate].
        rewrite String.eqb_eq. split; [now intros ->|now intros [= ->]].
      * apply IH.
  - destruct i; split; discriminate.
Qed.

(** X9: in a well-formed frame with a feature column, every text title
    that the mapping holds is found by [recommend_from_song] (the call
    returns recommendations, never the empty frame), and the row it is
    scored against is the first row with that title, whichever row was
    picked. *)
Theorem dropdown_choice_is_found
        (float_str : R -> string) (df : DataFrame) :
  well_formed df = true ->
  has_titles df = true ->
  feature_schema df <> [] ->
  forall out, exists mapping,
    get_song_mapping float_str df out = (Return mapping, out) /\
    forall d t,
      dict_get mapping d = Some (CObject (Some t)) ->
      (forall n out',
          recommend_from_song float_str t df n out'
          = (Return (recommendations float_str t df n),
             out' ++ found_output float_str t df n)) /\
      title_cell df (query_position t df) = CObject (Some t) /\
      (forall i, i < query_position t df -> title_cell df i <> CObject (Some t)).
Proof.
  intros Hw Ht Hf out.
  exists (dict_of (mapping_pairs float_str df)).
  split; [now apply get_song_mapping_return|].
  intros d t Hg. apply dict_of_In in Hg.
  apply mapping_pairs_In in Hg as [j [Hj Hp]]. injection Hp as _ Htc.
  symmetry in Htc. apply song_mask_nth in Htc.
  assert (Hex : existsb (fun b => b) (song_mask df t) = true).
  { apply existsb_exists. exists true. split; [|reflexivity].
    rewrite <- Htc. apply nth_In.
    destruct (Nat.lt_ge_cases j (length (song_mask df t))) as [H|H];
      [exact H|].
    rewrite nth_overflow in Htc by exact H. discriminate. }
  assert (Hv : valid_call t df = true).
  { unfold valid_call. rewrite Hw, Hex. simpl.
    destruct (has_titles_inv df Ht) as [s [a [_ [Ha _]]]].
    assert (Hh : has_column df artist_column = true).
    { unfold has_column. apply existsb_exists. exists a.
      apply find_some in Ha. exact Ha. }
    rewrite Hh. simpl. destruct (feature_schema df); [contradiction|reflexivity]. }
  split; [|split].
  - intros n out'. now apply recommend_from_song_found.
  - apply song_mask_nth. unfold query_position.
    now destruct (first_true_spec (song_mask df t) 0 Hex) as [_ [H _]].
  - intros i Hi Hc. apply song_mask_nth in Hc.
    unfold query_position in Hi. rewrite (first_true_min _ _ Hi) in Hc.
    discriminate.
Qed.

Lemma dropdown_choice_is_found_witness :
  exists mapping,
    get_song_mapping plain_float catalog_covers [] = (Return mapping, []) /\
    forall d t,
      dict_get mapping d = Some (CObject (Some t)) ->
      (forall n out',
          recommend_from_song plain_float t catalog_covers n out'
          = (Return (recommendations plain_float t catalog_covers n),
             out' ++ found_output plain_float t catalog_covers n)) /\
      title_cell catalog_covers (query_position t catalog_covers)
      = CObject (Some t) /\
      (forall i, i < query_position t catalog_covers ->
                 title_cell catalog_covers i <> CObject (Some t)).
Proof.
  apply (dropdown_choice_is_found plain_float catalog_covers).
  - reflexivity.
  - reflexivity.
  - discriminate.
Defined.

(** * main.py: the titles read back from the display names *)

Lemma append_nil_r (s : string) : String.append s EmptyString = s.
Proof. induction s as [|c t IH]; simpl; [reflexivity|now rewrite IH]. Qed.

Lemma append_assoc (a b c : string) :
  String.append (String.append a b) c = String.append a (String.append b c).
Proof. induction a as [|x t IH]; simpl; [reflexivity|now rewrite IH]. Qed.

Lemma prefix_empty (s : string) : String.prefix EmptyString s = true.
Proof. now destruct s. Qed.

Lemma prefix_app_short (p a b : string) :
  String.length p <= String.length a ->
  String.prefix p (String.append a b) = String.prefix p a.
Proof.
  revert a. induction p as [|x p IH]; intros a H.
  - rewrite !prefix_empty. reflexivity.
  - destruct a as [|y a]; simpl in *; [lia|].
    destruct (ascii_dec x y); [|reflexivity]. apply IH. lia.
Qed.

(** The first piece of a split is what comes before the first separator. *)
Lemma split_from_hd (sep s cur : string) :
  sep <> EmptyString ->
  hd EmptyString (split_from sep s 0 cur) = String.append cur (before sep s).
Proof.
  intros Hsep. revert cur. induction s as [|c t IH]; intros cur.
  - destruct sep as [|x p]; [contradiction|]. simpl. now rewrite append_nil_r.
  - cbn [split_from before].
    destruct (String.prefix sep (String c t)).
    + simpl. now rewrite append_nil_r.
    + rewrite IH, append_assoc. reflexivity.
Qed.

Lemma length_append (a b : string) :
  String.length (String.append a b) = String.length a + String.length b.
Proof. induction a as [|x t IH]; simpl; [reflexivity|now rewrite IH]. Qed.

Lemma prefix_display (c : ascii) (t artist : string) :
  String.prefix " - " (String c (String.append t (String.append " - " artist)))
  = String.prefix " - " (String c (String.append t " -")).
Proof.
  assert (E : String c (String.append t (String.append " - " artist))
              = String.append (String c (String.append t " -"))
                              (String.append " " artist)).
  { change (String.append (String c (String.append t " -"))
                          (String.append " " artist))
      with (String c (String.append (String.append t " -")
                                    (String.append " " artist))).
    now rewrite append_assoc. }
  rewrite E. apply prefix_app_short.
  change (String.length (String c (String.append t " -")))
    with (S (String.length (String.append t " -"))).
  rewrite length_append. simpl. lia.
Qed.

Lemma before_cons (sep : string) (c : ascii) (t : string) :
  before sep (String c t)
  = if String.prefix sep (String c t) then EmptyString
    else String c (before sep t).
Proof. reflexivity. Qed.

Lemma occurs_cons (sep : string) (c : ascii) (t : string) :
  occurs sep (String c t) = String.prefix sep (String c t) || occurs sep t.
Proof. reflexivity. Qed.

Lemma before_display (title artist : string) :
  occurs " - " (String.append title " -") = false ->
  before " - " (String.append title (String.append " - " artist)) = title.
Proof.
  induction title as [|c t IH]; intros H; [now destruct artist|].
  change (String.append (String c t) " -")
    with (String c (String.append t " -")) in H.
  rewrite occurs_cons in H. apply orb_false_elim in H as [Hp Ho].
  change (String.append (String c t) (String.append " - " artist))
    with (String c (String.append t (String.append " - " artist))).
  rewrite before_cons, prefix_display, Hp. f_equal. now apply IH.
Qed.

Lemma before_display_short (title artist : string) :
  occurs " - " (String.append title " -") = true ->
  before " - " (String.append title (String.append " - " artist)) <> title.
Proof.
  induction title as [|c t IH]; intros H; [discriminate|].
  change (String.append (String c t) " -")
    with (String c (String.append t " -")) in H.
  rewrite occurs_cons in H.
  change (String.append (String c t) (String.append " - " artist))
    with (String c (String.append t (String.append " - " artist))).
  rewrite before_cons, prefix_display.
  destruct (String.prefix " - " (String c (String.append t " -")));
    [discriminate|].
  simpl in H. intros E. injection E as E. now apply IH in E.
Qed.

(** X10: reading a title back from its display name,
    [song.split(" - ")[0]], gives the title exactly when " - " does not
    occur in the title followed by " -": a title that contains " - " or
    ends with " -" is cut short. *)
Theorem selected_song_names_round_trip (title artist : string) :
  selected_song_names
    [String.append title (String.append " - " artist)] = [title]
  <-> occurs " - " (String.append title " -") = false.
Proof.
  unfold selected_song_names. cbn [map].
  rewrite split_from_hd by discriminate.
  change (String.append EmptyString
            (before " - " (String.append title (String.append " - " artist))))
    with (before " - " (String.append title (String.append " - " artist))).
  split.
  - intros H. injection H as H.
    destruct (occurs " - " (String.append title " -")) eqn:E; [|reflexivity].
    exfalso. now apply (before_display_short title artist E).
  - intros H. now rewrite before_display.
Qed.

Lemma select_range (mask : list bool) (k i : nat) :
  In (Z.of_nat i) (select mask (map Z.of_nat (seq k (length mask)))) <->
  k <= i < k + length mask /\ nth (i - k) mask false = true.
Proof.
  revert k. unfold select.
  induction mask as [|b t IH]; intros k; cbn [length seq map combine filter].
  - simpl. split; [contradiction|lia].
  - assert (Hrest :
        In (Z.of_nat i)
           (map fst (filter snd (combine (map Z.of_nat (seq (S k) (length t))) t)))
        <-> S k <= i < S k + length t /\ nth (i - S k) t false = true)
      by apply IH.
    destruct b; cbn [snd map fst In].
    + rewrite Hrest. split.
      * intros [H|[H1 H2]].
        -- apply Nat2Z.inj in H. subst i. rewrite Nat.sub_diag. simpl.
           split; [lia|reflexivity].
        -- split; [lia|]. replace (i - k) with (S (i - S k)) by lia. exact H2.
      * intros [H1 H2]. destruct (Nat.eq_dec i k) as [->|Hne]; [now left|].
        right. split; [lia|].
        replace (i - k) with (S (i - S k)) in H2 by lia. exact H2.
    + rewrite Hrest. split.
      * intros [H1 H2]. split; [lia|].
        replace (i - k) with (S (i - S k)) by lia. exact H2.
      * intros [H1 H2]. destruct (Nat.eq_dec i k) as [->|Hne].
        -- rewrite Nat.sub_diag in H2. discriminate.
        -- split; [lia|].
           replace (i - k) with (S (i - S k)) in H2 by lia. exact H2.
Qed.

Lemma isin_nth (titles : list (option string)) (names : list string) (i : nat) :
  nth i (isin (Object titles) names) false = true <->
  exists t, nth_error titles i = Some (Some t) /\ In t names.
Proof.
  simpl. revert i. induction titles as [|o v IH]; intros [|i]; simpl.
  - split; [discriminate|intros [t [H _]]; discriminate].
  - split; [discriminate|intros [t [H _]]; discriminate].
  - destruct o as [t|].
    + rewrite str_in_In. split.
      * intros H. now exists t.
      * intros [t' [[= ->] H]]. exact H.
    + split; [discriminate|intros [t [H _]]; discriminate].
  - apply IH.
Qed.

(** X11: in a well-formed catalog with a text title column, the frame
    handed to the playlist creation holds exactly the rows whose title is
    one of the titles read back from the selected display names; so it
    holds the row of every selected display name whose title reads back
    whole, together with every other row that has the same title. *)
Theorem picked_rows_are_selected
        (df : DataFrame) (titles : list (option string))
        (selected_songs : list string) :
  well_formed df = true ->
  column_data df "song" = Some (Object titles) ->
  forall out, exists sub,
    selected_songs_df df selected_songs out = (Return sub, out) /\
    (forall i,
        In (Z.of_nat i) (index sub) <->
        exists t, nth_error titles i = Some (Some t) /\
                  In t (selected_song_names selected_songs)) /\
    (forall i t artist,
        nth_error titles i = Some (Some t) ->
        In (String.append t (String.append " - " artist)) selected_songs ->
        occurs " - " (String.append t " -") = false ->
        In (Z.of_nat i) (index sub)).
Proof.
  intros Hw Hcol out.
  destruct (well_formed_inv _ Hw) as [Hidx [Hcols _]].
  unfold column_data in Hcol.
  destruct (find (fun s => String.eqb (label s) "song") (columns df))
    as [tracks|] eqn:Hf; [|discriminate].
  injection Hcol as Hd.
  assert (Hlen : length titles = length (index df)).
  { rewrite Forall_forall in Hcols. apply find_some in Hf as [Hin _].
    specialize (Hcols tracks Hin). now rewrite Hd in Hcols. }
  exists (filter_rows df (isin (data tracks) (selected_song_names selected_songs))).
  assert (Hmain : forall i,
    In (Z.of_nat i)
       (index (filter_rows df
                 (isin (data tracks) (selected_song_names selected_songs)))) <->
    exists t, nth_error titles i = Some (Some t) /\
              In t (selected_song_names selected_songs)).
  { intros i. unfold filter_rows. cbn [index]. rewrite Hd, Hidx.
    unfold range_index.
    assert (Hm : length (isin (Object titles) (selected_song_names selected_songs))
                 = length (index df)).
    { simpl. now rewrite length_map. }
    rewrite <- Hm, select_range, Nat.sub_0_r, isin_nth.
    split; [now intros [_ H]|].
    intros [t [Ht Hin]]. split; [|now exists t].
    split; [lia|]. rewrite Hm, <- Hlen. apply nth_error_Some. now rewrite Ht. }
  split; [|split].
  - unfold selected_songs_df, bind, getitem, lift_opt, ret. now rewrite Hf.
  - exact Hmain.
  - intros i t artist Ht Hsel Hocc. apply Hmain. exists t. split; [exact Ht|].
    unfold selected_song_names. apply in_map_iff.
    exists (String.append t (String.append " - " artist)). split; [|exact Hsel].
    rewrite split_from_hd by discriminate.
    change (String.append EmptyString
              (before " - " (String.append t (String.append " - " artist))))
      with (before " - " (String.append t (String.append " - " artist))).
    now apply before_display.
Qed.

Lemma picked_rows_are_selected_witness :
  exists sub,
    selected_songs_df catalog_covers ["Hello - z"%string] [] = (Return sub, []) /\
    (forall i,
        In (Z.of_nat i) (index sub) <->
        exists t, nth_error [Some "Hello"; Some "Stay"; Some "Hello"]%string i
                  = Some (Some t) /\
                  In t (selected_song_names ["Hello - z"%string])) /\
    (forall i t artist,
        nth_error [Some "Hello"; Some "Stay"; Some "Hello"]%string i
        = Some (Some t) ->
        In (String.append t (String.append " - " artist)) ["Hello - z"%string] ->
        occurs " - " (String.append t " -") = false ->
        In (Z.of_nat i) (index sub)).
Proof.
  apply (picked_rows_are_selected catalog_covers
           [Some "Hello"; Some "Stay"; Some "Hello"]%string
           ["Hello - z"%string]).
  - reflexivity.
  - reflexivity.
Defined.

(** * Recommender/analytics.py *)

(** X12: in a frame of float64, int64, bool and object columns (the
    dtypes of this development, for which [np.number] and
    ['float64', 'int64'] select the same columns), the columns which the
    analytics pages treat as numeric features are the recommender's primary
    feature columns together with the numeric columns named duration_ms
    and popularity, which the recommender leaves out. *)
Theorem get_numeric_features_spec (df : DataFrame) (c : string) :
  In c (get_numeric_features df) <->
  In c (primary_features (numeric_columns df)) \/
  (In c (numeric_columns df) /\
   (c = "duration_ms"%string \/ c = "popularity"%string)).
Proof.
  unfold get_numeric_features, primary_features.
  rewrite !filter_In, !negb_true_iff, !str_in_false.
  unfold analytics_exclude_cols, exclude_cols. simpl.
  split.
  - intros [Hn Hx].
    destruct (string_dec c "duration_ms") as [->|H1]; [right; tauto|].
    destruct (string_dec c "popularity") as [->|H2]; [right; tauto|].
    left. split; [exact Hn|]. intros H. apply Hx.
    repeat (destruct H as [H|H]; [try (symmetry in H; contradiction); tauto|]).
    contradiction.
  - intros [[Hn Hx]|[Hn [-> | ->]]]; (split; [exact Hn|]).
    + intros H. apply Hx. tauto.
    + intros H. repeat (destruct H as [H|H]; [discriminate|]). exact H.
    + intros H. repeat (destruct H as [H|H]; [discriminate|]). exact H.
Qed.

Lemma py_slice_last {A} (m : Z) (l : list A) :
  (1 <= m)%Z ->
  py_slice (- m) (Z.of_nat (length l)) l = lastn (Z.to_nat m) l.
Proof.
  intros Hm. unfold py_slice, lastn.
  replace (- m <? 0)%Z with true by (symmetry; apply Z.ltb_lt; lia).
  replace (Z.of_nat (length l) <? 0)%Z with false
    by (symmetry; apply Z.ltb_ge; lia).
  rewrite Z.min_id.
  replace (Z.to_nat (Z.max 0 (- m + Z.of_nat (length l))))
    with (length l - Z.to_nat m) by lia.
  apply firstn_all2. rewrite length_skipn. lia.
Qed.

Lemma lastn_length {A} (m : nat) (l : list A) :
  length (lastn m l) = Nat.min m (length l).
Proof. unfold lastn. rewrite length_skipn. lia. Qed.

Lemma lastn_all {A} (m : nat) (l : list A) : length l <= m -> lastn m l = l.
Proof.
  intros H. unfold lastn. replace (length l - m) with 0 by lia. reflexivity.
Qed.

Lemma lastn_rev {A} (m : nat) (l : list A) :
  lastn m l = rev (firstn m (rev l)).
Proof. unfold lastn. now rewrite firstn_rev, rev_involutive. Qed.

Lemma lastn_snoc {A} (m : nat) (l : list A) (x : A) :
  1 <= m -> lastn m (lastn m l ++ [x]) = lastn m (l ++ [x]).
Proof.
  intros Hm. destruct m as [|m]; [lia|].
  rewrite !lastn_rev, !rev_app_distr, rev_involutive.
  change (rev [x]) with [x]. cbn [app].
  rewrite !firstn_cons, firstn_firstn.
  now replace (Nat.min m (S m)) with m by lia.
Qed.

Lemma lastn_last {A} (m : nat) (l : list A) (x : A) :
  1 <= m -> exists t, lastn m (l ++ [x]) = t ++ [x].
Proof.
  intros Hm. destruct m as [|m]; [lia|].
  rewrite lastn_rev, rev_app_distr.
  change (rev [x]) with [x]. cbn [app]. rewrite firstn_cons. cbn [rev].
  now exists (rev (firstn m (rev l))).
Qed.

Lemma lastn_suffix {A} (m : nat) (l : list A) :
  exists p, l = p ++ lastn m l.
Proof.
  exists (firstn (length l - m) l). unfold lastn.
  now rewrite firstn_skipn.
Qed.

Lemma lastn_app_lastn {A} (m : nat) (r l : list A) :
  1 <= m -> lastn m (lastn m l ++ r) = lastn m (l ++ r).
Proof.
  intros Hm. revert l. induction r as [|x r IHr] using rev_ind; intros l.
  - rewrite !app_nil_r. unfold lastn at 1. rewrite lastn_length.
    replace (Nat.min m (length l) - m) with 0 by lia.
    reflexivity.
  - rewrite !app_assoc.
    rewrite <- (lastn_snoc m (lastn m l ++ r)) by lia.
    rewrite IHr. apply lastn_snoc. lia.
Qed.

(** What one call leaves under the history key. *)
Lemma track_recommendation_get (base_song : string) (recs : DataFrame)
      (d : dict history) (m : Z) :
  (1 <= m)%Z ->
  dict_get (track_recommendation base_song recs d m) history_key
  = Some (lastn (Z.to_nat m)
                (match dict_get d history_key with
                 | Some h => h
                 | None => []
                 end ++ [(base_song, length (index recs))])).
Proof.
  intros Hm. unfold track_recommendation.
  set (d1 := if negb (dict_mem d history_key) then dict_set d history_key []
             else d).
  assert (H1 : match dict_get d1 history_key with Some h => h | None => [] end
               = match dict_get d history_key with Some h => h | None => [] end).
  { unfold d1. destruct (dict_mem d history_key) eqn:E; simpl; [reflexivity|].
    rewrite dict_get_set_same.
    unfold dict_get, dict_mem in *.
    destruct (find _ d) as [p|] eqn:F; [|reflexivity].
    apply find_some in F as [Hin Hk].
    assert (existsb (fun kv => String.eqb (fst kv) history_key) d = true)
      by (apply existsb_exists; now exists p).
    congruence. }
  rewrite H1.
  set (h := _ ++ [(base_song, length (index recs))]).
  destruct (m <? Z.of_nat (length h))%Z eqn:E.
  - rewrite dict_get_set_same, py_slice_last by exact Hm. reflexivity.
  - rewrite dict_get_set_same. apply Z.ltb_ge in E.
    rewrite lastn_all by lia. reflexivity.
Qed.

Lemma dict_set_set {V} (d : dict V) (k : string) (v w : V) :
  dict_set (dict_set d k v) k w = dict_set d k w.
Proof.
  induction d as [|[k0 v0] t IH]; simpl.
  - now rewrite String.eqb_refl.
  - destruct (String.eqb k0 k) eqn:E; simpl; rewrite E; [reflexivity|].
    now rewrite IH.
Qed.

Lemma track_recommendation_other (base_song : string) (recs : DataFrame)
      (d : dict history) (m : Z) (k : string) :
  k <> history_key ->
  dict_get (track_recommendation base_song recs d m) k = dict_get d k.
Proof.
  intros Hk. unfold track_recommendation.
  destruct (negb (dict_mem d history_key)); destruct (_ <? _)%Z;
    now rewrite ?dict_get_set_other by exact Hk.
Qed.

(** X13: one call of track_recommendation with a limit of at least 1
    leaves under the history key a list of at most max_history entries
    that ends with the new entry (the title and the number of rows of the
    frame); the entries before it are the most recent ones of the former
    history, in their order, and every other key of the dictionary keeps
    its value. *)
Theorem track_recommendation_bounded
        (base_song : string) (recs : DataFrame) (d : dict history) (m : Z) :
  (1 <= m)%Z ->
  exists h older,
    dict_get (track_recommendation base_song recs d m) history_key = Some h /\
    (Z.of_nat (length h) <= m)%Z /\
    h = older ++ [(base_song, length (index recs))] /\
    (exists dropped,
        match dict_get d history_key with Some h0 => h0 | None => [] end
        = dropped ++ older) /\
    forall k, k <> history_key ->
              dict_get (track_recommendation base_song recs d m) k = dict_get d k.
Proof.
  intros Hm. rewrite (track_recommendation_get base_song recs d m Hm).
  set (h0 := match dict_get d history_key with Some h => h | None => [] end).
  destruct (lastn_last (Z.to_nat m) h0 (base_song, length (index recs)))
    as [older Ho]; [lia|].
  exists (lastn (Z.to_nat m) (h0 ++ [(base_song, length (index recs))])), older.
  split; [reflexivity|]. split; [rewrite lastn_length; lia|].
  split; [exact Ho|]. split.
  - destruct (lastn_suffix (Z.to_nat m) (h0 ++ [(base_song, length (index recs))]))
      as [p Hp].
    rewrite Ho in Hp. rewrite app_assoc in Hp.
    apply app_inj_tail in Hp as [Hp _]. now exists p.
  - intros k Hk. now apply track_recommendation_other.
Qed.

Lemma track_recommendation_bounded_witness :
  exists h older,
    dict_get (track_recommendation "A" catalog_two [] 10) history_key = Some h /\
    (Z.of_nat (length h) <= 10)%Z /\
    h = older ++ [("A"%string, length (index catalog_two))] /\
    (exists dropped,
        match dict_get (@nil (string * history)) history_key with
        | Some h0 => h0
        | None => []
        end = dropped ++ older) /\
    forall k, k <> history_key ->
              dict_get (track_recommendation "A" catalog_two [] 10) k
              = dict_get [] k.
Proof.
  apply (track_recommendation_bounded "A" catalog_two [] 10). lia.
Defined.

(** X14: after a non-empty sequence of calls with the same limit of at
    least 1, the history is made of the last max_history entries of the
    former history followed by one entry per call, in call order. *)
Theorem track_all_keeps_last_calls
        (calls : list (string * DataFrame)) (d : dict history) (m : Z) :
  (1 <= m)%Z ->
  calls <> [] ->
  dict_get (track_all calls d m) history_key
  = Some (lastn (Z.to_nat m)
                (match dict_get d history_key with Some h => h | None => [] end
                 ++ map (fun call => (fst call, length (index (snd call)))) calls)).
Proof.
  intros Hm. unfold track_all. revert d.
  induction calls as [|c t IH]; intros d Hne; [contradiction|].
  cbn [fold_left]. rewrite map_cons.
  destruct t as [|c' t'].
  - cbn [fold_left map]. now apply track_recommendation_get.
  - rewrite IH by discriminate.
    rewrite (track_recommendation_get (fst c) (snd c) d m Hm).
    cbn beta iota.
    f_equal. rewrite lastn_app_lastn by lia.
    now rewrite <- app_assoc.
Qed.

Lemma track_all_keeps_last_calls_witness :
  dict_get (track_all [("A"%string, catalog_two); ("B"%string, catalog_pairs)]
                      [] 1) history_key
  = Some (lastn (Z.to_nat 1)
                (match dict_get (@nil (string * history)) history_key with
                 | Some h => h
                 | None => []
                 end
                 ++ map (fun call : string * DataFrame =>
                           (fst call, length (index (snd call))))
                        [("A"%string, catalog_two); ("B"%string, catalog_pairs)])).
Proof.
  apply (track_all_keeps_last_calls
           [("A"%string, catalog_two); ("B"%string, catalog_pairs)] [] 1).
  - lia.
  - discriminate.
Defined.

(** * Recommender/ui.py *)
Lemma has_column_set_column (cs : list Series) (c c' : string) (d : ColData) :
  existsb (fun s => String.eqb (label s) c') (set_column cs c d)
  = String.eqb c c' || existsb (fun s => String.eqb (label s) c') cs.
Proof.
  induction cs as [|s t IH]; simpl.
  - now rewrite orb_false_r.
  - destruct (String.eqb (label s) c) eqn:E; simpl.
    + apply String.eqb_eq in E. rewrite E.
      destruct (String.eqb c c'); reflexivity.
    + rewrite IH. destruct (String.eqb (label s) c'), (String.eqb c c');
        reflexivity.
Qed.

Lemma has_column_setitem (df : DataFrame) (c c' : string) (d : ColData) :
  has_column (setitem df c d) c' = String.eqb c c' || has_column df c'.
Proof. apply has_column_set_column. Qed.

Lemma has_column_rows_at (df : DataFrame) (idx : list nat) (c : string) :
  has_column (rows_at df idx) c = has_column df c.
Proof.
  unfold has_column, rows_at. simpl.
  induction (columns df) as [|s t IH]; simpl; [reflexivity|].
  now rewrite IH.
Qed.

(** X15: for every valid call, the table shown for the returned frame has
    exactly the columns artist, song, similarity and spotify_link, in this
    order, wherever these columns stand in the catalog. *)
Theorem displayed_columns_of_recommendations
        (float_str : R -> string) (song_name : string) (df : DataFrame) (n : Z) :
  valid_call song_name df = true ->
  get_display_columns (recommendations float_str song_name df n)
  = ["artist"; "song"; "similarity"; "spotify_link"]%string.
Proof.
  intros H. apply valid_call_inv in H as (_ & (tracks & Hf & _ & _) & Ha & _).
  assert (Hs : has_column df "song"%string = true).
  { unfold has_column. apply existsb_exists.
    apply find_some in Hf as [Hin Hl]. now exists tracks. }
  unfold get_display_columns, recommendations, scored_rows.
  rewrite !has_column_setitem, !has_column_rows_at.
  unfold artist_column in Ha. rewrite Ha, Hs. reflexivity.
Qed.

Lemma displayed_columns_of_recommendations_witness :
  get_display_columns (recommendations plain_float "A" catalog_pairs 10)
  = ["artist"; "song"; "similarity"; "spotify_link"]%string.
Proof.
  apply (displayed_columns_of_recommendations plain_float "A" catalog_pairs 10).
  reflexivity.
Defined.


(** * main.py: a query from the page *)

Lemma set_column_not_nil (cs : list Series) (c : string) (d : ColData) :
  is_nil (set_column cs c d) = false.
Proof.
  destruct cs as [|s t]; simpl; [reflexivity|].
  now destruct (String.eqb (label s) c).
Qed.

(** X16: on the page, a query for a title that makes a valid call on a
    catalog of N >= 2 rows returns normally, shows the success message with
    min(10, N - 1), stores the returned frame and the title in the session,
    and appends (title, min(10, N - 1)) to the history, of which the last
    ten entries are kept. *)
Theorem handle_recommendation_found
        (float_str : R -> string) (name : string) (df : DataFrame) (st : session) :
  valid_call name df = true ->
  name <> EmptyString ->
  2 <= length (index df) ->
  forall out, exists st',
    handle_recommendation float_str (Some name) df st out
    = (Return (st', [ShowSuccess (Nat.min 10 (length (index df) - 1))]),
       out ++ found_output float_str name df 10) /\
    stored_recommendations st' = Some (recommendations float_str name df 10) /\
    stored_song st' = Some name /\
    dict_get (tracked st') history_key
    = Some (lastn 10
              (match dict_get (tracked st) history_key with
               | Some h => h
               | None => []
               end ++ [(name, Nat.min 10 (length (index df) - 1))])).
Proof.
  intros Hv Hne HN out.
  assert (Hlen : length (index (recommendations float_str name df 10))
                 = Nat.min 10 (length (index df) - 1)).
  { rewrite recommendations_index, length_map.
    pose proof (similar_indices_length name df 10 Hv ltac:(lia)). lia. }
  assert (Hemp : df_empty (recommendations float_str name df 10) = false).
  { unfold df_empty. apply orb_false_intro.
    - destruct (index (recommendations float_str name df 10)); [|reflexivity].
      cbn [length] in Hlen. lia.
    - unfold recommendations, setitem. cbn [columns].
      apply set_column_not_nil. }
  eexists. split; [|split; [|split]].
  - unfold handle_recommendation.
    destruct name as [|a name']; [contradiction|].
    unfold bind. rewrite (recommend_from_song_found float_str _ df 10 Hv).
    rewrite Hemp. cbn [negb]. unfold ret. rewrite Hlen. reflexivity.
  - reflexivity.
  - reflexivity.
  - cbn [tracked].
    rewrite (track_recommendation_get name _ (tracked st) 10) by lia.
    rewrite Hlen. reflexivity.
Qed.

Lemma handle_recommendation_found_witness :
  exists st',
    handle_recommendation plain_float (Some "A"%string) catalog_pairs
                          (mkSession [] None None) []
    = (Return (st', [ShowSuccess (Nat.min 10 (length (index catalog_pairs) - 1))]),
       [] ++ found_output plain_float "A" catalog_pairs 10) /\
    stored_recommendations st'
    = Some (recommendations plain_float "A" catalog_pairs 10) /\
    stored_song st' = Some "A"%string /\
    dict_get (tracked st') history_key
    = Some (lastn 10
              (match dict_get (tracked (mkSession [] None None)) history_key with
               | Some h => h
               | None => []
               end ++ [("A"%string, Nat.min 10 (length (index catalog_pairs) - 1))])).
Proof.
  apply (handle_recommendation_found plain_float "A" catalog_pairs
           (mkSession [] None None)).
  - reflexivity.
  - discriminate.
  - simpl. lia.
Defined.

(** X17: a query for a non-empty title that is not in the catalog, or a
    valid query on a catalog of one row, shows the warning, leaves the
    recommendations and the title stored in the session as they were, and
    still appends (title, 0) to the history. *)
Theorem handle_recommendation_nothing_found
        (float_str : R -> string) (name : string) (df : DataFrame) (st : session) :
  name <> EmptyString ->
  (exists tracks,
      find (fun s => String.eqb (label s) track_column) (columns df) = Some tracks /\
      contains (data tracks) name = false) \/
  (valid_call name df = true /\ length (index df) = 1) ->
  forall out, exists st' out',
    handle_recommendation float_str (Some name) df st out
    = (Return (st', [ShowWarning]), out') /\
    stored_recommendations st' = stored_recommendations st /\
    stored_song st' = stored_song st /\
    dict_get (tracked st') history_key
    = Some (lastn 10
              (match dict_get (tracked st) history_key with
               | Some h => h
               | None => []
               end ++ [(name, 0)])).
Proof.
  intros Hne [[tracks [Hf Hc]]|[Hv HN]] out.
  - assert (Hrun : recommend_from_song float_str name df 10 out
                   = (Return empty_frame, out ++ not_found_output name tracks)).
    { unfold recommend_from_song, bind, print, getitem, lift_opt, ret.
      fold track_column. rewrite Hf, Hc. cbn [negb].
      unfold not_found_output. now rewrite <- !app_assoc. }
    eexists. eexists. split; [|split; [|split]].
    + unfold handle_recommendation.
      destruct name as [|a name']; [contradiction|].
      unfold bind. rewrite Hrun. cbn. unfold ret. reflexivity.
    + reflexivity.
    + reflexivity.
    + cbn [tracked].
      now rewrite (track_recommendation_get name _ (tracked st) 10) by lia.
  - assert (Hlen : length (index (recommendations float_str name df 10)) = 0).
    { rewrite recommendations_index, length_map.
      pose proof (similar_indices_length name df 10 Hv ltac:(lia)). lia. }
    assert (Hemp : df_empty (recommendations float_str name df 10) = true).
    { unfold df_empty.
      destruct (index (recommendations float_str name df 10));
        [reflexivity|discriminate]. }
    eexists. eexists. split; [|split; [|split]].
    + unfold handle_recommendation.
      destruct name as [|a name']; [contradiction|].
      unfold bind. rewrite (recommend_from_song_found float_str _ df 10 Hv).
      rewrite Hemp. cbn [negb]. unfold ret. reflexivity.
    + reflexivity.
    + reflexivity.
    + cbn [tracked].
      rewrite (track_recommendation_get name _ (tracked st) 10) by lia.
      now rewrite Hlen.
Qed.

Lemma handle_recommendation_nothing_found_witness :
  exists st' out',
    handle_recommendation plain_float (Some "nonexistent-id"%string) catalog_pairs
                          (mkSession [] None None) []
    = (Return (st', [ShowWarning]), out') /\
    stored_recommendations st' = stored_recommendations (mkSession [] None None) /\
    stored_song st' = stored_song (mkSession [] None None) /\
    dict_get (tracked st') history_key
    = Some (lastn 10
              (match dict_get (tracked (mkSession [] None None)) history_key with
               | Some h => h
               | None => []
               end ++ [("nonexistent-id"%string, 0)])).
Proof.
  apply (handle_recommendation_nothing_found plain_float "nonexistent-id"
           catalog_pairs (mkSession [] None None)).
  - discriminate.
  - left. exists (mkSeries "song" (text ["A"; "A2"; "C"; "D"]%string)).
    split; reflexivity.
Defined.


(** * Recommender/login.py *)

Lemma dict_del_absent {V} (d : dict V) (k : string) :
  dict_mem d k = false -> dict_del d k = d.
Proof.
  unfold dict_mem, dict_del. induction d as [|[k0 v0] t IH]; simpl; intros H.
  - reflexivity.
  - apply orb_false_elim in H as [H1 H2]. rewrite H1. simpl.
    now rewrite IH.
Qed.

Lemma dict_get_del_same {V} (d : dict V) (k : string) :
  dict_get (dict_del d k) k = None.
Proof.
  unfold dict_get, dict_del. induction d as [|[k0 v0] t IH]; simpl.
  - reflexivity.
  - destruct (String.eqb k0 k) eqn:E; simpl; [exact IH|].
    now rewrite E.
Qed.

Lemma dict_get_del_other {V} (d : dict V) (k k' : string) :
  k' <> k -> dict_get (dict_del d k) k' = dict_get d k'.
Proof.
  intros Hne. unfold dict_get, dict_del.
  induction d as [|[k0 v0] t IH]; simpl.
  - reflexivity.
  - destruct (String.eqb k0 k) eqn:E; simpl.
    + apply String.eqb_eq in E. subst k0.
      apply not_eq_sym in Hne. apply String.eqb_neq in Hne.
      now rewrite Hne.
    + destruct (String.eqb k0 k'); [reflexivity|exact IH].
Qed.

Lemma del_if_present {V} (d : dict V) (k : string) :
  (if dict_mem d k then dict_del d k else d) = dict_del d k.
Proof.
  destruct (dict_mem d k) eqn:E; [reflexivity|].
  symmetry. now apply dict_del_absent.
Qed.

Lemma logout_dels (st : dict pyval) :
  logout st
  = dict_del (dict_del (dict_del (dict_del st "sp") "user_id") "display_name")
             "authenticated".
Proof. unfold logout. cbn [fold_left]. now rewrite !del_if_present. Qed.

(** X18: after logout, check_authentication returns (None, None, None)
    whatever the session held, and every key other than sp, user_id,
    display_name and authenticated keeps its value. *)
Theorem logout_then_check_authentication (session_state : dict pyval) :
  check_authentication (logout session_state) = (PNone, PNone, PNone) /\
  forall key,
    ~ In key [ "sp"; "user_id"; "display_name"; "authenticated" ]%string ->
    dict_get (logout session_state) key = dict_get session_state key.
Proof.
  rewrite logout_dels. split.
  - unfold check_authentication, dict_get_default.
    now rewrite dict_get_del_same.
  - intros key Hk. simpl in Hk.
    rewrite !dict_get_del_other; [reflexivity|..]; intros E; apply Hk; subst key; tauto.
Qed.

(** X19: after the four assignments of a successful login,
    check_authentication returns the very triple which render_login_page
    returned, whatever the session held before. *)
Theorem login_then_check_authentication
        (session_state : dict pyval) (sp : pyval) (current_user : dict pyval) :
  check_authentication (fst (store_login session_state sp current_user))
  = snd (store_login session_state sp current_user).
Proof.
  unfold store_login, check_authentication, dict_get_default. cbn [fst snd].
  rewrite dict_get_set_same. cbn [truthy].
  rewrite dict_get_set_other by discriminate.
  rewrite dict_get_set_other by discriminate.
  rewrite dict_get_set_other by discriminate.
  rewrite dict_get_set_same.
  rewrite (dict_get_set_other _ "authenticated" "user_id") by discriminate.
  rewrite (dict_get_set_other _ "display_name" "user_id") by discriminate.
  rewrite dict_get_set_same.
  rewrite (dict_get_set_other _ "authenticated" "display_name") by discriminate.
  rewrite dict_get_set_same.
  reflexivity.
Qed.


(** * Recommender/auth.py *)

Lemma passes_app (l1 l2 : list auth_event) :
  passes (l1 ++ l2) = passes l1 + passes l2.
Proof. unfold passes. now rewrite filter_app, length_app. Qed.

Lemma slept_app (l1 l2 : list auth_event) :
  slept (l1 ++ l2) = (slept l1 + slept l2)%Z.
Proof.
  unfold slept. induction l1 as [|e t IH]; simpl; [reflexivity|].
  destruct e; rewrite ?IH; lia.
Qed.

Lemma auth_loop_passes (attempts : nat -> attempt_result) (retries delay : Z)
      (remaining attempt : nat) :
  attempt + remaining = Z.to_nat retries + 1 ->
  1 <= remaining ->
  fst (auth_loop attempts retries delay remaining attempt) <> ReturnsNone /\
  1 <= passes (snd (auth_loop attempts retries delay remaining attempt)) /\
  passes (snd (auth_loop attempts retries delay remaining attempt)) <= remaining /\
  slept (snd (auth_loop attempts retries delay remaining attempt))
  = (delay * Z.of_nat (passes (snd (auth_loop attempts retries delay
                                              remaining attempt)) - 1))%Z.
Proof.
  revert attempt. induction remaining as [|rem IH]; intros attempt Hsum Hpos; [lia|].
  cbn [auth_loop]. destruct (attempts attempt) as [name|msg|msg].
  - cbn [fst snd]. rewrite passes_app, slept_app. cbn. repeat split; try lia.
    discriminate.
  - destruct (Z.of_nat attempt <? retries)%Z eqn:E.
    + apply Z.ltb_lt in E.
      destruct (delay <? 0)%Z.
      { cbn [fst snd]. rewrite passes_app, slept_app. cbn.
        repeat split; try lia. discriminate. }
      specialize (IH (S attempt) ltac:(lia) ltac:(lia)).
      destruct (auth_loop attempts retries delay rem (S attempt)) as [r out].
      cbn [fst snd] in *. destruct IH as (Hr & H1 & H2 & Hs).
      rewrite !passes_app, !slept_app, Hs. cbn.
      repeat split; try lia; [exact Hr|].
      replace (Z.of_nat (passes out - 0)) with (Z.of_nat (passes out - 1) + 1)%Z
        by lia.
      ring.
    + cbn [fst snd]. rewrite passes_app, slept_app. cbn. repeat split; try lia.
      discriminate.
  - cbn [fst snd]. rewrite passes_app, slept_app. cbn. repeat split; try lia.
    discriminate.
Qed.

(** X20: get_spotify_client returns None exactly when retries <= 0; it
    makes at most retries passes through its loop, and sleeps delay seconds
    between two passes only: never before the first pass nor after the
    last. *)
Theorem get_spotify_client_passes
        (attempts : nat -> attempt_result) (retries delay : Z) :
  (fst (get_spotify_client attempts retries delay) = ReturnsNone
   <-> (retries <= 0)%Z) /\
  passes (snd (get_spotify_client attempts retries delay)) <= Z.to_nat retries /\
  slept (snd (get_spotify_client attempts retries delay))
  = (delay * Z.of_nat (passes (snd (get_spotify_client attempts retries delay)) - 1))%Z.
Proof.
  unfold get_spotify_client.
  destruct (Z.to_nat retries) as [|n] eqn:En.
  - cbn. repeat split; try lia.
  - destruct (auth_loop_passes attempts retries delay (S n) 1 ltac:(lia) ltac:(lia))
      as (Hr & H1 & H2 & Hs).
    repeat split; try assumption.
    + intros H. contradiction.
    + intros H. lia.
Qed.

Lemma auth_loop_decisive (attempts : nat -> attempt_result) (retries delay : Z)
      (k remaining attempt : nat) :
  (0 <= delay)%Z ->
  attempt + remaining = Z.to_nat retries + 1 ->
  attempt <= k <= Z.to_nat retries ->
  (forall i, attempt <= i < k -> is_oauth_error (attempts i) = true) ->
  k = Z.to_nat retries \/ is_oauth_error (attempts k) = false ->
  fst (auth_loop attempts retries delay remaining attempt)
  = match attempts k with
    | Authenticated _ => Client k
    | _ => SystemExit 1
    end /\
  passes (snd (auth_loop attempts retries delay remaining attempt))
  = k - attempt + 1.
Proof.
  intros Hdelay. revert attempt. induction remaining as [|rem IH];
    intros attempt Hsum Hk Hbefore Hlast; [lia|].
  cbn [auth_loop].
  destruct (Nat.eq_dec attempt k) as [->|Hne].
  - destruct (attempts k) as [name|msg|msg] eqn:Ek.
    + cbn [fst snd]. rewrite passes_app. cbn. split; [reflexivity|lia].
    + destruct Hlast as [->|Hlast]; [|discriminate].
      replace (Z.of_nat (Z.to_nat retries) <? retries)%Z with false
        by (symmetry; apply Z.ltb_ge; lia).
      cbn [fst snd]. rewrite passes_app. cbn. split; [reflexivity|lia].
    + cbn [fst snd]. rewrite passes_app. cbn. split; [reflexivity|lia].
  - pose proof (Hbefore attempt ltac:(lia)) as Ho.
    destruct (attempts attempt) as [name|msg|msg]; try discriminate.
    replace (Z.of_nat attempt <? retries)%Z with true
      by (symmetry; apply Z.ltb_lt; lia).
    replace (delay <? 0)%Z with false by (symmetry; apply Z.ltb_ge; lia).
    specialize (IH (S attempt) ltac:(lia) ltac:(lia)
                   ltac:(intros i Hi; apply Hbefore; lia) Hlast).
    destruct (auth_loop attempts retries delay rem (S attempt)) as [r out].
    cbn [fst snd] in *. destruct IH as [Hr Hp].
    rewrite !passes_app, Hp. cbn. split; [exact Hr|lia].
Qed.

(** X21: for a delay that is not negative, if the attempts before the
    k-th all raise SpotifyOauthError and the k-th is the last one allowed
    or does not raise it, then the k-th attempt decides: the client is
    returned when it succeeds and the process exits with status 1
    otherwise, after k passes and k - 1 sleeps. *)
Theorem get_spotify_client_decisive_attempt
        (attempts : nat -> attempt_result) (retries delay : Z) (k : nat) :
  (0 <= delay)%Z ->
  1 <= k <= Z.to_nat retries ->
  (forall i, 1 <= i < k -> is_oauth_error (attempts i) = true) ->
  k = Z.to_nat retries \/ is_oauth_error (attempts k) = false ->
  fst (get_spotify_client attempts retries delay)
  = match attempts k with
    | Authenticated _ => Client k
    | _ => SystemExit 1
    end /\
  passes (snd (get_spotify_client attempts retries delay)) = k /\
  slept (snd (get_spotify_client attempts retries delay))
  = (delay * (Z.of_nat k - 1))%Z.
Proof.
  intros Hdelay Hk Hbefore Hlast.
  destruct (auth_loop_decisive attempts retries delay k (Z.to_nat retries) 1
              Hdelay ltac:(lia) Hk Hbefore Hlast) as [Hr Hp].
  destruct (auth_loop_passes attempts retries delay (Z.to_nat retries) 1
              ltac:(lia) ltac:(lia)) as (_ & _ & _ & Hs).
  unfold get_spotify_client.
  split; [exact Hr|]. split; [lia|].
  rewrite Hs, Hp. f_equal. lia.
Qed.

Lemma get_spotify_client_decisive_attempt_witness :
  fst (get_spotify_client
         (fun i => if Nat.eqb i 2 then Authenticated "u" else OauthError "e") 3 3)
  = match (fun i => if Nat.eqb i 2 then Authenticated "u" else OauthError "e") 2 with
    | Authenticated _ => Client 2
    | _ => SystemExit 1
    end /\
  passes (snd (get_spotify_client
         (fun i => if Nat.eqb i 2 then Authenticated "u" else OauthError "e") 3 3))
  = 2 /\
  slept (snd (get_spotify_client
         (fun i => if Nat.eqb i 2 then Authenticated "u" else OauthError "e") 3 3))
  = (3 * (Z.of_nat 2 - 1))%Z.
Proof.
  apply (get_spotify_client_decisive_attempt
           (fun i => if Nat.eqb i 2 then Authenticated "u" else OauthError "e")
           3 3 2).
  - lia.
  - simpl. lia.
  - intros i Hi. assert (i = 1) as -> by lia. reflexivity.
  - right. reflexivity.
Defined.


(** * Recommender/playlist_utils.py *)

Lemma firstn_add {A} (a b : nat) (l : list A) :
  firstn (a + b) l = firstn a l ++ firstn b (skipn a l).
Proof.
  revert l. induction a as [|a IH]; intros l; [reflexivity|].
  destruct l as [|x t]; simpl.
  - now rewrite firstn_nil.
  - now rewrite IH.
Qed.

Lemma py_slice_batch {A} (i b : nat) (l : list A) :
  i <= length l ->
  py_slice (Z.of_nat i) (Z.of_nat (i + b)) l = firstn b (skipn i l).
Proof.
  intros Hi. unfold py_slice.
  replace (Z.of_nat i <? 0)%Z with false by (symmetry; apply Z.ltb_ge; lia).
  replace (Z.of_nat (i + b) <? 0)%Z with false by (symmetry; apply Z.ltb_ge; lia).
  replace (Z.to_nat (Z.min (Z.of_nat i) (Z.of_nat (length l)))) with i by lia.
  destruct (Nat.le_gt_cases (i + b) (length l)) as [H|H].
  - f_equal. lia.
  - rewrite !firstn_all2; [reflexivity|rewrite length_skipn; lia..].
Qed.

Lemma py_range_bound (stop step k : nat) :
  1 <= step -> k < (stop + step - 1) / step -> k * step < stop.
Proof.
  intros Hs Hk.
  assert (H : (k + 1) * step <= stop + step - 1).
  { pose proof (Nat.Div0.mul_div_le (stop + step - 1) step). nia. }
  nia.
Qed.

Lemma py_range_cover (stop step : nat) :
  1 <= step -> stop <= ((stop + step - 1) / step) * step.
Proof.
  intros Hs.
  pose proof (Nat.div_mod_eq (stop + step - 1) step) as E.
  pose proof (Nat.mod_upper_bound (stop + step - 1) step ltac:(lia)) as U.
  nia.
Qed.

Lemma batches_prefix {A} (b m : nat) (l : list A) :
  concat (map (fun k => firstn b (skipn (k * b) l)) (seq 0 m)) = firstn (m * b) l.
Proof.
  induction m as [|m IH]; [reflexivity|].
  rewrite seq_S, map_app, concat_app, IH. cbn [map concat plus].
  rewrite app_nil_r.
  replace (S m * b) with (m * b + b) by lia.
  now rewrite firstn_add.
Qed.

Lemma batches_firstn {A} (b : nat) (l : list A) :
  1 <= b ->
  batches b l
  = map (fun k => firstn b (skipn (k * b) l))
        (seq 0 ((length l + b - 1) / b)).
Proof.
  intros Hb. unfold batches, py_range. rewrite map_map.
  apply map_ext_in. intros k Hk. apply in_seq in Hk.
  apply py_slice_batch.
  pose proof (py_range_bound (length l) b k Hb ltac:(lia)). lia.
Qed.

Lemma batches_cover {A} (batch_size : nat) (l : list A) :
  1 <= batch_size ->
  concat (batches batch_size l) = l /\
  Forall (fun b => 1 <= length b <= batch_size) (batches batch_size l).
Proof.
  intros Hb. rewrite batches_firstn by exact Hb. split.
  - rewrite batches_prefix. apply firstn_all2.
    now apply py_range_cover.
  - apply Forall_forall. intros x Hx.
    apply in_map_iff in Hx as [k [<- Hk]]. apply in_seq in Hk.
    pose proof (py_range_bound (length l) batch_size k Hb ltac:(lia)).
    rewrite length_firstn, length_skipn. lia.
Qed.

(** X22: for a positive batch size, the slices taken by the loop of lines
    57-58 are a partition of the list: concatenated in order they give the
    list back, and each has between 1 and batch_size items. *)
Theorem batches_partition {A} (batch_size : nat) (l : list A) :
  1 <= batch_size ->
  concat (batches batch_size l) = l /\
  Forall (fun b => 1 <= length b <= batch_size) (batches batch_size l).
Proof. exact (batches_cover batch_size l). Qed.

Lemma batches_partition_witness :
  concat (batches 2 ["a"; "b"; "c"]%string) = ["a"; "b"; "c"]%string /\
  Forall (fun b => 1 <= length b <= 2) (batches 2 ["a"; "b"; "c"]%string).
Proof.
  apply (batches_partition 2 ["a"; "b"; "c"]%string). lia.
Defined.

Section PlaylistFacts.

Variable float_str : R -> string.
Variable user_playlist_create : string -> string -> string -> string + playlist.
Variable search : string -> string + list string.
Variable playlist_add_items : string -> list string -> option string.



Lemma search_recommended_selected (df : DataFrame) (rows : list nat) (t : tally) :
  has_column df "song" = true -> has_column df "artist" = true ->
  search_selected float_str search df rows t
  = (inr (fst (search_recommended float_str search df rows t)),
     snd (search_recommended float_str search df rows t)).
Proof.
  intros Hs Ha. revert t. induction rows as [|i rest IH]; intros t.
  - reflexivity.
  - cbn [search_selected search_recommended]. rewrite Hs, Ha. cbn [negb].
    unfold song_or_unknown, artist_or_unknown. rewrite Hs, Ha.
    destruct (search_song search (field_text float_str df i "song")
                (field_text float_str df i "artist") t) as [t1 ev1].
    rewrite IH.
    now destruct (search_recommended float_str search df rest t1) as [t2 ev2].
Qed.













(** X25: on a frame with at least one row that lacks the song or the
    artist column, create_playlist_from_selected_songs raises KeyError for
    the first missing column after the playlist has been created, before any
    search. *)
Theorem create_playlist_missing_column
        (user_id playlist_name description : string) (df : DataFrame)
        (pl : playlist) :
  has_column df "song" = false \/ has_column df "artist" = false ->
  index df <> [] ->
  user_playlist_create user_id playlist_name description = inr pl ->
  create_playlist_from_selected_songs float_str user_playlist_create search
    playlist_add_items user_id playlist_name description df
  = (inl (PlaylistKeyError (if has_column df "song" then "artist" else "song")),
     [CallCreate user_id playlist_name description]).
Proof.
  intros Hmiss Hne Hc. unfold create_playlist_from_selected_songs. rewrite Hc.
  destruct (index df) as [|z idx]; [contradiction|].
  cbn [length seq search_selected].
  destruct (has_column df "song"); cbn [negb]; [|reflexivity].
  destruct Hmiss as [Hmiss|Hmiss]; [discriminate|].
  now rewrite Hmiss.
Qed.

(** X26: on a frame that has its song and artist columns,
    create_playlist_from_recommendations does what
    create_playlist_from_selected_songs does with the name
    "Recommended from <base_song>" and the description built from the base
    song: same result, same calls in the same order. *)
Theorem create_playlist_functions_agree
        (user_id base_song : string) (df : DataFrame) :
  has_column df "song" = true ->
  has_column df "artist" = true ->
  create_playlist_from_recommendations float_str user_playlist_create search
    playlist_add_items user_id base_song df
  = create_playlist_from_selected_songs float_str user_playlist_create search
      playlist_add_items user_id
      (String.append "Recommended from " base_song)
      (String.append "Songs recommended based on '"
         (String.append base_song "' using Music Recommender."))
      df.
Proof.
  intros Hs Ha.
  unfold create_playlist_from_recommendations, create_playlist_from_selected_songs.
  destruct (user_playlist_create _ _ _) as [msg|pl]; [reflexivity|].
  rewrite (search_recommended_selected df _ _ Hs Ha).
  now destruct (search_recommended float_str search df _ _) as [t ev].
Qed.

End PlaylistFacts.




Lemma create_playlist_missing_column_witness :
  create_playlist_from_selected_songs plain_float
    (fun _ _ _ => inr (mkPlaylist (Some "p1"%string) (Some "u1"%string)))
    (fun q => inr [q]) (fun _ _ => None) "me" "mix" ""
    (mkDF [0%Z] [mkSeries "song" (text ["A"%string])])
  = (inl (PlaylistKeyError
            (if has_column (mkDF [0%Z] [mkSeries "song" (text ["A"%string])]) "song"
             then "artist" else "song")),
     [CallCreate "me" "mix" ""]).
Proof.
  apply (create_playlist_missing_column plain_float
           (fun _ _ _ => inr (mkPlaylist (Some "p1"%string) (Some "u1"%string)))
           (fun q => inr [q]) (fun _ _ => None) "me" "mix" ""
           (mkDF [0%Z] [mkSeries "song" (text ["A"%string])])
           (mkPlaylist (Some "p1"%string) (Some "u1"%string))).
  - right. reflexivity.
  - discriminate.
  - reflexivity.
Defined.

Lemma create_playlist_functions_agree_witness :
  create_playlist_from_recommendations plain_float
    (fun _ _ _ => inr (mkPlaylist (Some "p1"%string) (Some "u1"%string)))
    (fun q => inr [q]) (fun _ _ => None) "me" "A" catalog_two
  = create_playlist_from_selected_songs plain_float
      (fun _ _ _ => inr (mkPlaylist (Some "p1"%string) (Some "u1"%string)))
      (fun q => inr [q]) (fun _ _ => None) "me"
      (String.append "Recommended from " "A")
      (String.append "Songs recommended based on '"
         (String.append "A" "' using Music Recommender."))
      catalog_two.
Proof.
  apply (create_playlist_functions_agree plain_float
           (fun _ _ _ => inr (mkPlaylist (Some "p1"%string) (Some "u1"%string)))
           (fun q => inr [q]) (fun _ _ => None) "me" "A" catalog_two);
    reflexivity.
Defined.


(** * Recommender/data.py *)

(** ** Masks *)

Lemma select_nil_r {A} (l : list A) : select [] l = [].
Proof. unfold select. now destruct l. Qed.

Lemma select_cons {A} (b : bool) (mask : list bool) (x : A) (l : list A) :
  select (b :: mask) (x :: l) = if b then x :: select mask l else select mask l.
Proof. unfold select. cbn. now destruct b. Qed.

Lemma select_length {A} (mask : list bool) (l : list A) :
  length l = length mask -> length (select mask l) = kept mask.
Proof.
  revert l. induction mask as [|b t IH]; intros l H.
  - now rewrite select_nil_r.
  - destruct l as [|x l]; [discriminate|]. rewrite select_cons.
    injection H as H. unfold kept in *. cbn [filter].
    destruct b; cbn [length]; now rewrite IH.
Qed.

Lemma select_map {A B} (f : A -> B) (mask : list bool) (l : list A) :
  select mask (map f l) = map f (select mask l).
Proof.
  revert l. induction mask as [|b t IH]; intros l.
  - now rewrite !select_nil_r.
  - destruct l as [|x l]; [reflexivity|]. cbn [map]. rewrite !select_cons.
    destruct b; cbn [map]; now rewrite IH.
Qed.

Lemma cells_length (d : ColData) : length (cells d) = col_len d.
Proof. destruct d; apply length_map. Qed.

Lemma cells_select (mask : list bool) (d : ColData) :
  cells (select_data mask d) = select mask (cells d).
Proof. destruct d; cbn [select_data cells]; now rewrite select_map. Qed.

Lemma col_len_select (mask : list bool) (d : ColData) :
  col_len d = length mask -> col_len (select_data mask d) = kept mask.
Proof.
  intros H. rewrite <- cells_length, cells_select.
  apply select_length. now rewrite cells_length.
Qed.

Lemma select_filter {A} (f : A -> bool) (l : list A) :
  select (map f l) l = filter f l.
Proof.
  induction l as [|x t IH]; [reflexivity|]. cbn [map filter].
  rewrite select_cons. destruct (f x); now rewrite IH.
Qed.

Lemma select_In {A} (mask : list bool) (l : list A) (x : A) :
  In x (select mask l) -> In x l.
Proof.
  revert l. induction mask as [|b t IH]; intros l H.
  - now rewrite select_nil_r in H.
  - destruct l as [|y l]; [contradiction|]. rewrite select_cons in H.
    destruct b; [destruct H as [->|H]|]; [now left|right; auto|right; auto].
Qed.

(** ** [str.strip] *)

Lemma lstrip_trimmed (s : string) : trimmed_left (lstrip s).
Proof.
  induction s as [|a t IH]; cbn; [exact I|].
  destruct (is_space a) eqn:E; [exact IH|exact E].
Qed.

Lemma lstrip_id (s : string) : trimmed_left s -> lstrip s = s.
Proof. destruct s as [|a t]; cbn; [reflexivity|]. now intros ->. Qed.

Lemma rstrip_trimmed (s : string) : trimmed_left s -> trimmed_left (rstrip s).
Proof.
  destruct s as [|a t]; cbn; [trivial|]. intros E.
  destruct (rstrip t); [rewrite E|]; exact E.
Qed.

Lemma rstrip_idem (s : string) : rstrip (rstrip s) = rstrip s.
Proof.
  induction s as [|a t IH]; [reflexivity|]. cbn [rstrip].
  destruct (rstrip t) as [|b r] eqn:E.
  - destruct (is_space a) eqn:Ea; [reflexivity|]. cbn. now rewrite Ea.
  - cbn [rstrip]. cbn [rstrip] in IH. now rewrite IH.
Qed.

Lemma strip_idem (s : string) : strip (strip s) = strip s.
Proof.
  unfold strip.
  rewrite (lstrip_id (rstrip (lstrip s))) by apply rstrip_trimmed, lstrip_trimmed.
  apply rstrip_idem.
Qed.

(** ** Frames *)

Lemma frame_ok_inv (df : DataFrame) :
  frame_ok df = true ->
  Forall (fun s => col_len (data s) = length (index df)) (columns df) /\
  distinct (map label (columns df)) = true.
Proof.
  unfold frame_ok. intros H. apply andb_prop in H as [H1 H2]. split; [|exact H2].
  apply Forall_forall. intros s Hs. rewrite forallb_forall in H1.
  now apply Nat.eqb_eq, H1.
Qed.

Lemma frame_ok_intro (df : DataFrame) :
  Forall (fun s => col_len (data s) = length (index df)) (columns df) ->
  distinct (map label (columns df)) = true ->
  frame_ok df = true.
Proof.
  intros H1 H2. unfold frame_ok. rewrite H2, andb_true_r.
  apply forallb_forall. intros s Hs. rewrite Forall_forall in H1.
  now apply Nat.eqb_eq, H1.
Qed.

Lemma filter_rows_labels (df : DataFrame) (mask : list bool) :
  map label (columns (filter_rows df mask)) = map label (columns df).
Proof. unfold filter_rows. cbn [columns]. now rewrite map_map. Qed.

Lemma filter_rows_ok (df : DataFrame) (mask : list bool) :
  frame_ok df = true -> length mask = length (index df) ->
  frame_ok (filter_rows df mask) = true /\
  length (index (filter_rows df mask)) = kept mask.
Proof.
  intros Hok Hm. destruct (frame_ok_inv df Hok) as [Hc Hd].
  assert (Hlen : length (index (filter_rows df mask)) = kept mask).
  { unfold filter_rows. cbn [index]. now apply select_length. }
  split; [|exact Hlen].
  apply frame_ok_intro.
  - rewrite Hlen. unfold filter_rows. cbn [columns].
    apply Forall_forall. intros s Hs. apply in_map_iff in Hs as [s0 [<- Hs0]].
    cbn [data]. apply col_len_select.
    rewrite Forall_forall in Hc. rewrite (Hc s0 Hs0). now symmetry.
  - now rewrite filter_rows_labels.
Qed.

Lemma filter_rows_column (df : DataFrame) (mask : list bool) (c : string) :
  column_data (filter_rows df mask) c
  = option_map (select_data mask) (column_data df c).
Proof.
  unfold column_data, filter_rows. cbn [columns].
  induction (columns df) as [|s t IH]; [reflexivity|].
  cbn [map find label]. now destruct (String.eqb (label s) c).
Qed.

Lemma set_column_labels (cs : list Series) (c : string) (d : ColData) :
  existsb (fun s => String.eqb (label s) c) cs = true ->
  map label (set_column cs c d) = map label cs.
Proof.
  induction cs as [|s t IH]; [discriminate|]. cbn [existsb set_column].
  destruct (String.eqb (label s) c) eqn:E; cbn [map label].
  - intros _. apply String.eqb_eq in E. now rewrite E.
  - cbn [orb]. intros H. now rewrite IH.
Qed.

Lemma set_column_lengths (cs : list Series) (c : string) (d : ColData) (n : nat) :
  Forall (fun s => col_len (data s) = n) cs -> col_len d = n ->
  Forall (fun s => col_len (data s) = n) (set_column cs c d).
Proof.
  intros H Hd. induction H as [|s t Hs Ht IH]; cbn [set_column].
  - now constructor.
  - destruct (String.eqb (label s) c); constructor; assumption.
Qed.

Lemma column_data_has (df : DataFrame) (c : string) :
  has_column df c = match column_data df c with Some _ => true | None => false end.
Proof.
  unfold has_column, column_data.
  induction (columns df) as [|s t IH]; [reflexivity|]. cbn [existsb find].
  destruct (String.eqb (label s) c); [reflexivity|exact IH].
Qed.

Lemma column_data_len (df : DataFrame) (c : string) (d : ColData) :
  frame_ok df = true -> column_data df c = Some d ->
  col_len d = length (index df).
Proof.
  intros Hok Hc. destruct (frame_ok_inv df Hok) as [Hl _].
  unfold column_data in Hc.
  destruct (find _ (columns df)) as [s|] eqn:E; [|discriminate].
  injection Hc as <-. apply find_some in E as [Hin _].
  rewrite Forall_forall in Hl. now apply Hl.
Qed.

Lemma existsb_label (cs : list Series) (c : string) :
  existsb (fun s => String.eqb (label s) c) cs
  = existsb (fun l => String.eqb l c) (map label cs).
Proof. induction cs as [|s t IH]; [reflexivity|]. cbn. now rewrite IH. Qed.

Lemma has_column_labels (df df' : DataFrame) (c : string) :
  map label (columns df') = map label (columns df) ->
  has_column df' c = has_column df c.
Proof. unfold has_column. intros H. now rewrite !existsb_label, H. Qed.

(** ** Duplicates *)

Lemma keep_first_length {K} (eqb : K -> K -> bool) (seen keys : list K) :
  length (keep_first eqb seen keys) = length keys.
Proof.
  revert seen. induction keys as [|k t IH]; intros seen; [reflexivity|].
  cbn. now rewrite IH.
Qed.

Lemma rows_of_length {A} (n : nat) (cols : list (list A)) :
  length (rows_of n cols) = n.
Proof.
  revert cols. induction n as [|n IH]; intros cols; [reflexivity|].
  cbn. now rewrite IH.
Qed.


(** The keys kept differ from the keys seen before and from each other:
    a key kept later is not equal to one kept earlier. *)
Lemma keep_first_distinct {K} (eqb : K -> K -> bool) (seen keys : list K) :
  Forall (fun k => existsb (eqb k) seen = false)
         (select (keep_first eqb seen keys) keys) /\
  ForallOrdPairs (fun a b => eqb b a = false)
                 (select (keep_first eqb seen keys) keys).
Proof.
  revert seen. induction keys as [|k t IH]; intros seen.
  - split; constructor.
  - cbn [keep_first]. rewrite select_cons.
    destruct (IH (k :: seen)) as [H1 H2].
    assert (H1' : Forall (fun k0 => existsb (eqb k0) seen = false)
                         (select (keep_first eqb (k :: seen) t) t)).
    { eapply Forall_impl; [|exact H1]. intros a Ha. cbn [existsb] in Ha.
      now apply orb_false_elim in Ha as [_ Ha]. }
    destruct (existsb (eqb k) seen) eqn:E; cbn [negb].
    + split; assumption.
    + split.
      * constructor; assumption.
      * constructor; [|exact H2].
        eapply Forall_impl; [|exact H1]. intros a Ha. cbn [existsb] in Ha.
        now apply orb_false_elim in Ha as [Ha _].
Qed.

Lemma rows_of_select {A} (mask : list bool) (cols : list (list A)) :
  Forall (fun c => length c = length mask) cols ->
  rows_of (kept mask) (map (select mask) cols)
  = select mask (rows_of (length mask) cols).
Proof.
  revert cols. induction mask as [|b t IH]; intros cols H.
  - unfold kept. cbn [filter length rows_of]. now rewrite select_nil_r.
  - assert (Htl : Forall (fun c => length c = length t) (map (@tl A) cols)).
    { apply Forall_forall. intros c Hc. apply in_map_iff in Hc as [c0 [<- Hc0]].
      rewrite Forall_forall in H. specialize (H c0 Hc0).
      destruct c0; [discriminate|]. cbn in *. lia. }
    assert (Hsel : map (select (b :: t)) cols
                   = if b then map (fun c => match c with
                                             | [] => []
                                             | x :: c' => x :: select t c'
                                             end) cols
                     else map (select t) (map (@tl A) cols)).
    { destruct b.
      - apply map_ext_in. intros c Hc. rewrite Forall_forall in H.
        specialize (H c Hc). destruct c; [discriminate|]. now rewrite select_cons.
      - rewrite map_map. apply map_ext_in. intros c Hc. rewrite Forall_forall in H.
        specialize (H c Hc). destruct c; [discriminate|]. now rewrite select_cons. }
    rewrite Hsel. cbn [length rows_of]. rewrite select_cons.
    unfold kept. cbn [filter]. destruct b.
    + cbn [length rows_of]. fold (kept t). f_equal.
      * rewrite map_map. apply map_ext_in. intros c Hc.
        rewrite Forall_forall in H. specialize (H c Hc).
        destruct c; [discriminate|reflexivity].
      * rewrite <- (IH _ Htl). f_equal. rewrite !map_map.
        apply map_ext_in. intros c Hc.
        rewrite Forall_forall in H. specialize (H c Hc).
        destruct c; [discriminate|reflexivity].
    + fold (kept t). now apply IH.
Qed.

Lemma duplicate_cols_present (df : DataFrame) (cols : list string) :
  duplicate_cols df = Some cols -> Forall (fun c => has_column df c = true) cols.
Proof.
  unfold duplicate_cols. intros H.
  destruct (has_column df "id") eqn:Ei.
  { injection H as <-. now repeat constructor. }
  destruct (forallb (has_column df) ["name"%string; "artist"%string]) eqn:En.
  { injection H as <-. apply Forall_forall. now apply forallb_forall. }
  destruct (columns df) as [|s t] eqn:Ec; [discriminate|].
  injection H as <-. constructor; [|constructor].
  unfold has_column. rewrite Ec. cbn. now rewrite String.eqb_refl.
Qed.

Lemma duplicate_cols_labels (df df' : DataFrame) :
  map label (columns df') = map label (columns df) ->
  duplicate_cols df' = duplicate_cols df.
Proof.
  intros H. unfold duplicate_cols.
  rewrite (has_column_labels df df' "id" H).
  cbn [forallb].
  rewrite (has_column_labels df df' "name" H), (has_column_labels df df' "artist" H).
  destruct (columns df) as [|s t], (columns df') as [|s' t']; try discriminate;
    [reflexivity|].
  cbn in H. injection H as H _. cbn. now rewrite H.
Qed.

Lemma drop_duplicates_ok (df : DataFrame) (subset : list string) :
  frame_ok df = true ->
  frame_ok (drop_duplicates df subset) = true /\
  map label (columns (drop_duplicates df subset)) = map label (columns df) /\
  (index df <> [] -> index (drop_duplicates df subset) <> []).
Proof.
  intros Hok. unfold drop_duplicates.
  assert (Hm : length (keep_first key_eqb [] (row_keys df subset))
               = length (index df)).
  { rewrite keep_first_length. unfold row_keys. apply rows_of_length. }
  destruct (filter_rows_ok df _ Hok Hm) as [H1 H2].
  split; [exact H1|]. split; [apply filter_rows_labels|].
  intros Hne E. rewrite E in H2. cbn in H2.
  unfold row_keys in H2. destruct (index df) as [|z idx]; [contradiction|].
  cbn in H2. unfold kept in H2. cbn in H2. discriminate.
Qed.

Lemma drop_duplicates_keys (df : DataFrame) (subset : list string) :
  frame_ok df = true ->
  Forall (fun c => has_column df c = true) subset ->
  row_keys (drop_duplicates df subset) subset
  = select (keep_first key_eqb [] (row_keys df subset)) (row_keys df subset).
Proof.
  intros Hok Hsub. unfold drop_duplicates.
  set (mask := keep_first key_eqb [] (row_keys df subset)).
  assert (Hm : length mask = length (index df)).
  { unfold mask. rewrite keep_first_length. unfold row_keys. apply rows_of_length. }
  destruct (filter_rows_ok df mask Hok Hm) as [_ Hlen].
  unfold row_keys at 1. rewrite Hlen.
  assert (Hcols : map (fun c => match column_data (filter_rows df mask) c with
                                | Some d => cells d
                                | None => []
                                end) subset
                  = map (select mask)
                        (map (fun c => match column_data df c with
                                       | Some d => cells d
                                       | None => []
                                       end) subset)).
  { rewrite map_map. apply map_ext. intros c. rewrite filter_rows_column.
    destruct (column_data df c) as [d|]; cbn [option_map].
    - apply cells_select.
    - reflexivity. }
  rewrite Hcols, rows_of_select.
  - unfold row_keys. now rewrite Hm.
  - apply Forall_forall. intros col Hc. apply in_map_iff in Hc as [c [<- Hc]].
    rewrite Forall_forall in Hsub. specialize (Hsub c Hc).
    rewrite column_data_has in Hsub.
    destruct (column_data df c) as [d|] eqn:Ed; [|discriminate].
    rewrite cells_length, Hm. now apply (column_data_len df c).
Qed.

(** ** The feature checks of the loader and of the recommender *)

Lemma find_distinct (cs : list Series) (s : Series) :
  NoDup (map label cs) -> In s cs ->
  find (fun x => String.eqb (label x) (label s)) cs = Some s.
Proof.
  induction cs as [|s1 t IH]; intros Hnd Hin; [contradiction|].
  cbn [map] in Hnd. apply NoDup_cons_iff in Hnd as [Hn Hnd]. cbn [find].
  destruct Hin as [->|Hin]; [now rewrite String.eqb_refl|].
  destruct (String.eqb (label s1) (label s)) eqn:E; [|now apply IH].
  exfalso. apply String.eqb_eq in E. apply Hn. rewrite E. now apply in_map.
Qed.

Lemma text_column_not_numeric (df : DataFrame) (c : string) (v : list (option string)) :
  NoDup (map label (columns df)) ->
  column_data df c = Some (Object v) ->
  ~ In c (numeric_columns df).
Proof.
  intros Hnd Hc Hin. unfold numeric_columns in Hin.
  apply in_map_iff in Hin as [s [Hl Hs]]. apply filter_In in Hs as [Hs Hnum].
  unfold column_data in Hc. rewrite <- Hl, (find_distinct _ s Hnd Hs) in Hc.
  cbn in Hc. injection Hc as Hc. now rewrite Hc in Hnum.
Qed.

Lemma numeric_columns_labels (df : DataFrame) (c : string) :
  In c (numeric_columns df) -> In c (map label (columns df)).
Proof.
  unfold numeric_columns. intros H. apply in_map_iff in H as [s [<- Hs]].
  apply filter_In in Hs as [Hs _]. now apply in_map.
Qed.

Lemma available_features_nonempty (df : DataFrame) :
  feature_schema df <> [] ->
  ~ In "id"%string (numeric_columns df) ->
  available_features df <> [].
Proof.
  intros Hf Hid.
  assert (Hc : exists c, In c (numeric_columns df) /\
                         c <> "year"%string /\ c <> "popularity"%string).
  { unfold feature_schema in Hf.
    destruct (primary_features (numeric_columns df)) as [|c t] eqn:Ep;
      cbn [is_nil] in Hf.
    - destruct (fallback_features (numeric_columns df)) as [|c t] eqn:Efb;
        [contradiction|].
      assert (Hin : In c (fallback_features (numeric_columns df)))
        by (rewrite Efb; now left).
      unfold fallback_features in Hin. apply filter_In in Hin as [Hin Hx].
      apply negb_true_iff, str_in_false in Hx. exists c. split; [exact Hin|].
      unfold fallback_exclude in Hx. cbn in Hx.
      split; intros ->; apply Hx; tauto.
    - assert (Hin : In c (primary_features (numeric_columns df)))
        by (rewrite Ep; now left).
      unfold primary_features in Hin. apply filter_In in Hin as [Hin Hx].
      apply negb_true_iff, str_in_false in Hx. exists c. split; [exact Hin|].
      unfold exclude_cols in Hx. cbn in Hx.
      split; intros ->; apply Hx; tauto. }
  destruct Hc as (c & Hnum & Hy & Hp).
  unfold available_features.
  destruct (filter (fun c0 => str_in c0 (map label (columns df)))
                   audio_feature_columns) as [|a t] eqn:Ea;
    cbn [is_nil]; [|discriminate].
  assert (Hd : c <> "duration_ms"%string).
  { intros ->.
    assert (Hin : In "duration_ms"%string
                     (filter (fun c0 => str_in c0 (map label (columns df)))
                             audio_feature_columns)).
    { apply filter_In. split; [cbn; tauto|].
      now apply str_in_In, numeric_columns_labels. }
    now rewrite Ea in Hin. }
  intros E.
  assert (Hin : In c (filter (fun c0 => negb (str_in c0 non_feature_cols))
                             (numeric_columns df))).
  { apply filter_In. split; [exact Hnum|].
    apply negb_true_iff, str_in_false. unfold non_feature_cols. cbn.
    intros [H|[H|[H|[H|[]]]]]; subst c; try contradiction; try congruence. }
  now rewrite E in Hin.
Qed.

Lemma has_column_str_in (df : DataFrame) (c : string) :
  has_column df c = str_in c (map label (columns df)).
Proof.
  unfold has_column, str_in. rewrite existsb_label.
  induction (map label (columns df)) as [|l t IH]; [reflexivity|].
  cbn [existsb]. now rewrite IH, String.eqb_sym.
Qed.

Lemma files_written_app (l1 l2 : list loader_event) :
  files_written (l1 ++ l2) = files_written l1 ++ files_written l2.
Proof. apply flat_map_app. Qed.

Section LoaderFacts.

Variable float_str : R -> string.

Lemma astype_str_length (d : ColData) :
  length (astype_str float_str d) = col_len d.
Proof. unfold astype_str. now rewrite length_map, length_seq. Qed.

Lemma id_cleaned_ok (df : DataFrame) :
  frame_ok df = true ->
  frame_ok (id_cleaned float_str df) = true /\
  map label (columns (id_cleaned float_str df)) = map label (columns df).
Proof.
  intros Hok. unfold id_cleaned.
  destruct (column_data df "id") as [d|] eqn:Ed; [|now split].
  pose proof (column_data_len df "id" d Hok Ed) as Hd.
  destruct (frame_ok_inv df Hok) as [Hl Hdist].
  assert (Hhas : has_column df "id" = true) by (now rewrite column_data_has, Ed).
  unfold clean_ids.
  set (ids := stripped_ids float_str d).
  assert (Hids : length ids = length (index df)).
  { unfold ids, stripped_ids. now rewrite length_map, astype_str_length. }
  assert (Hset : frame_ok (setitem df "id" (Object (map Some ids))) = true).
  { apply frame_ok_intro; unfold setitem; cbn [index columns].
    - apply set_column_lengths; [exact Hl|]. cbn. now rewrite length_map.
    - now rewrite set_column_labels. }
  split.
  - apply filter_rows_ok; [exact Hset|]. now rewrite length_map.
  - rewrite filter_rows_labels. unfold setitem. cbn [columns].
    now apply set_column_labels.
Qed.

Variable path_exists : string -> bool.
Variable csv_files_beside : string -> option (list string).
Variable read_csv : string -> string + DataFrame.
Variable clean_path : string -> string.
Variable to_csv : string -> DataFrame -> option string.

(** What a call does once the file is read. *)
Lemma validate_run (csv_path : string) (save_clean_copy : bool) (raw : DataFrame)
      (out : list loader_event) :
  path_exists csv_path = true ->
  read_csv csv_path = inr raw ->
  exists ev,
    validate_and_clean_csv float_str path_exists csv_files_beside read_csv
      clean_path to_csv csv_path save_clean_copy out
    = (match cleaned float_str raw with
       | None => inl NoColumn
       | Some df =>
           match (if save_clean_copy then to_csv (clean_path csv_path) df
                  else None) with
           | Some msg => inl (WriteFailed msg)
           | None => if df_empty df then inl NoValidTracks else inr df
           end
       end, out ++ ev) /\
    files_written ev
    = match cleaned float_str raw with
      | None => []
      | Some df =>
          if save_clean_copy then
            match to_csv (clean_path csv_path) df with
            | Some _ => []
            | None => [(clean_path csv_path, df)]
            end
          else []
      end.
Proof.
  intros Hex Hread. unfold validate_and_clean_csv. rewrite Hex, Hread.
  cbn [negb]. unfold cleaned, id_cleaned, lbind, lprint, lret, lraise.
  destruct (negb (is_nil (filter (fun c => negb (has_column raw c))
                                 required_columns)));
    destruct (column_data raw "id") as [d|];
    try destruct (0 <? length (index raw)
                       - length (index (clean_ids float_str raw d)));
    match goal with
    | |- context [duplicate_cols ?x] => destruct (duplicate_cols x) as [cols|]
    end;
    cbn [option_map];
    try match goal with
    | |- context [0 <? ?a - ?b] => destruct (0 <? a - b)
    end;
    destruct save_clean_copy;
    try match goal with
    | |- context [to_csv ?a ?b] => destruct (to_csv a b)
    end;
    try match goal with
    | |- context [df_empty ?a] => destruct (df_empty a)
    end;
    rewrite <- ?app_assoc; cbn [app];
    (eexists; split; [reflexivity|reflexivity]).
Qed.

Lemma column_data_setitem_same (df : DataFrame) (c : string) (d : ColData) :
  column_data (setitem df c d) c = Some d.
Proof.
  unfold column_data, setitem. cbn [columns].
  induction (columns df) as [|s t IH]; cbn [set_column find label].
  - now rewrite String.eqb_refl.
  - destruct (String.eqb (label s) c) eqn:E; cbn [find label].
    + now rewrite String.eqb_refl.
    + now rewrite E.
Qed.

(** The ids that remain after lines 95-98. *)
Lemma id_cleaned_ids (raw : DataFrame) (d : ColData) :
  column_data raw "id" = Some d ->
  column_data (id_cleaned float_str raw) "id"
  = Some (text (filter (fun s => 0 <? String.length s) (stripped_ids float_str d))).
Proof.
  intros Hd. unfold id_cleaned. rewrite Hd. unfold clean_ids.
  rewrite filter_rows_column, column_data_setitem_same. cbn [option_map select_data].
  unfold text. now rewrite select_map, select_filter.
Qed.

Lemma cleaned_ids (raw df : DataFrame) (d : ColData) :
  frame_ok raw = true ->
  cleaned float_str raw = Some df ->
  column_data raw "id" = Some d ->
  exists ids,
    column_data df "id" = Some (text ids) /\
    Forall (fun s => s <> EmptyString /\ strip s = s) ids.
Proof.
  intros Hok Hc Hd. unfold cleaned in Hc.
  destruct (duplicate_cols (id_cleaned float_str raw)) as [cols|]; [|discriminate].
  injection Hc as <-.
  set (ids1 := filter (fun s => 0 <? String.length s) (stripped_ids float_str d)).
  set (mask := keep_first key_eqb [] (row_keys (id_cleaned float_str raw) cols)).
  exists (select mask ids1). split.
  - unfold reset_index, column_data. cbn [columns].
    fold (column_data (drop_duplicates (id_cleaned float_str raw) cols) "id").
    unfold drop_duplicates. fold mask.
    rewrite filter_rows_column, (id_cleaned_ids raw d Hd).
    cbn [option_map]. unfold text. cbn [select_data]. now rewrite select_map.
  - apply Forall_forall. intros s Hs. apply select_In in Hs.
    unfold ids1 in Hs. apply filter_In in Hs as [Hs Hlen].
    unfold stripped_ids in Hs. apply in_map_iff in Hs as [s0 [<- _]]. split.
    + intros E. rewrite E in Hlen. discriminate.
    + apply strip_idem.
Qed.

Lemma validate_returns_inv (csv_path : string) (save_clean_copy : bool)
      (raw df : DataFrame) (out out' : list loader_event) :
  read_csv csv_path = inr raw ->
  validate_and_clean_csv float_str path_exists csv_files_beside read_csv
    clean_path to_csv csv_path save_clean_copy out = (inr df, out') ->
  cleaned float_str raw = Some df /\ df_empty df = false /\
  exists ev, out' = out ++ ev /\
             files_written ev
             = if save_clean_copy then [(clean_path csv_path, df)] else [].
Proof.
  intros Hread Hrun.
  destruct (path_exists csv_path) eqn:Hex.
  2:{ unfold validate_and_clean_csv in Hrun. rewrite Hex in Hrun. discriminate. }
  destruct (validate_run csv_path save_clean_copy raw out Hex Hread)
    as (ev & Hv & Hw).
  rewrite Hv in Hrun.
  destruct (cleaned float_str raw) as [df0|]; [|discriminate].
  destruct save_clean_copy.
  - destruct (to_csv (clean_path csv_path) df0); [discriminate|].
    destruct (df_empty df0) eqn:Ee; [discriminate|].
    injection Hrun as -> <-. repeat split; try assumption. now exists ev.
  - destruct (df_empty df0) eqn:Ee; [discriminate|].
    injection Hrun as -> <-. repeat split; try assumption. now exists ev.
Qed.

Lemma cleaned_inv (raw df : DataFrame) :
  frame_ok raw = true ->
  cleaned float_str raw = Some df ->
  exists cols,
    duplicate_cols (id_cleaned float_str raw) = Some cols /\
    df = reset_index (drop_duplicates (id_cleaned float_str raw) cols) /\
    frame_ok (id_cleaned float_str raw) = true /\
    map label (columns df) = map label (columns raw).
Proof.
  intros Hok Hc. unfold cleaned in Hc.
  destruct (duplicate_cols (id_cleaned float_str raw)) as [cols|] eqn:Ed;
    [|discriminate].
  injection Hc as <-. exists cols.
  destruct (id_cleaned_ok raw Hok) as [Hok1 Hl1].
  destruct (drop_duplicates_ok (id_cleaned float_str raw) cols Hok1)
    as (_ & Hl2 & _).
  repeat split; try assumption.
  unfold reset_index. cbn [columns]. now rewrite Hl2.
Qed.

Lemma range_index_length (n : nat) : length (range_index n) = n.
Proof. unfold range_index. now rewrite length_map, length_seq. Qed.

Lemma reset_index_well_formed (df : DataFrame) :
  frame_ok df = true -> well_formed (reset_index df) = true.
Proof.
  intros Hok. unfold frame_ok in Hok. apply andb_prop in Hok as [H1 H2].
  unfold well_formed, reset_index. cbn [index columns].
  rewrite range_index_length, H1, H2.
  now destruct (list_eq_dec Z.eq_dec _ _).
Qed.

(** X27: when the file is read into a frame that has one cell per row in
    every column and no label twice, and validate_and_clean_csv returns,
    the frame returned is a catalog as the recommender expects it: its index
    is 0..N-1, every column has N cells, no label occurs twice; it has at
    least one row and no more rows than were read, and its columns are those
    of the file, in the same order. *)
Theorem validate_and_clean_csv_well_formed
        (csv_path : string) (save_clean_copy : bool) (raw df : DataFrame)
        (out out' : list loader_event) :
  read_csv csv_path = inr raw ->
  frame_ok raw = true ->
  validate_and_clean_csv float_str path_exists csv_files_beside read_csv
    clean_path to_csv csv_path save_clean_copy out = (inr df, out') ->
  well_formed df = true /\
  index df <> [] /\
  length (index df) <= length (index raw) /\
  map label (columns df) = map label (columns raw).
Proof.
  intros Hread Hok Hrun.
  destruct (validate_returns_inv _ _ _ _ _ _ Hread Hrun) as (Hc & He & _).
  destruct (cleaned_inv raw df Hok Hc) as (cols & Hd & -> & Hok1 & Hl).
  destruct (drop_duplicates_ok (id_cleaned float_str raw) cols Hok1)
    as (Hok2 & _ & _).
  split; [now apply reset_index_well_formed|]. split; [|split; [|exact Hl]].
  - intros E. unfold df_empty in He. rewrite E in He. discriminate.
  - unfold reset_index. cbn [index]. rewrite range_index_length.
    assert (H1 : length (index (drop_duplicates (id_cleaned float_str raw) cols))
                 <= length (index (id_cleaned float_str raw))).
    { unfold drop_duplicates, filter_rows. cbn [index]. unfold select.
      rewrite length_map. etransitivity; [apply filter_length_le|].
      rewrite length_combine. lia. }
    assert (H2 : length (index (id_cleaned float_str raw)) <= length (index raw)).
    { unfold id_cleaned. destruct (column_data raw "id"); [|lia].
      unfold clean_ids, filter_rows, setitem. cbn [index]. unfold select.
      rewrite length_map. etransitivity; [apply filter_length_le|].
      rewrite length_combine. lia. }
    lia.
Qed.

Lemma row_keys_reset (df : DataFrame) (subset : list string) :
  row_keys (reset_index df) subset = row_keys df subset.
Proof.
  unfold row_keys, reset_index, column_data. cbn [index columns].
  now rewrite range_index_length.
Qed.

(** X28: under the same conditions, no two rows of the returned frame
    agree on the columns chosen at line 104 (id, else name and artist, else
    the first column), missing values counting as equal; and when the file
    has an id column, the ids of the returned frame are texts that are not
    empty and carry no space at either end. *)
Theorem validate_and_clean_csv_distinct_keys
        (csv_path : string) (save_clean_copy : bool) (raw df : DataFrame)
        (out out' : list loader_event) :
  read_csv csv_path = inr raw ->
  frame_ok raw = true ->
  validate_and_clean_csv float_str path_exists csv_files_beside read_csv
    clean_path to_csv csv_path save_clean_copy out = (inr df, out') ->
  (exists cols,
      duplicate_cols raw = Some cols /\
      ForallOrdPairs (fun a b => key_eqb b a = false) (row_keys df cols)) /\
  (has_column raw "id" = true ->
   exists ids,
     column_data df "id" = Some (text ids) /\
     Forall (fun s => s <> EmptyString /\ strip s = s) ids).
Proof.
  intros Hread Hok Hrun.
  destruct (validate_returns_inv _ _ _ _ _ _ Hread Hrun) as (Hc & He & _).
  split.
  - destruct (cleaned_inv raw df Hok Hc) as (cols & Hd & Hdf & Hok1 & Hl).
    destruct (id_cleaned_ok raw Hok) as [_ Hl1].
    exists cols. split.
    + now rewrite <- (duplicate_cols_labels raw (id_cleaned float_str raw) Hl1).
    + subst df. rewrite row_keys_reset, drop_duplicates_keys;
        [|exact Hok1|now apply duplicate_cols_present].
      apply keep_first_distinct.
  - intros Hid. rewrite column_data_has in Hid.
    destruct (column_data raw "id") as [d|] eqn:Ed; [|discriminate].
    now apply (cleaned_ids raw df d).
Qed.

(** X29: once the file is read, has a column and writing does not fail,
    validate_and_clean_csv writes exactly one file when save_clean_copy is
    set, the cleaned frame under the clean path, and none otherwise; the
    file is written before the emptiness test, so an empty frame is written
    too and ValueError is raised after it. *)
Theorem validate_and_clean_csv_writes
        (csv_path : string) (save_clean_copy : bool) (raw df : DataFrame)
        (out : list loader_event) :
  path_exists csv_path = true ->
  read_csv csv_path = inr raw ->
  cleaned float_str raw = Some df ->
  to_csv (clean_path csv_path) df = None ->
  exists ev,
    validate_and_clean_csv float_str path_exists csv_files_beside read_csv
      clean_path to_csv csv_path save_clean_copy out
    = (if df_empty df then inl NoValidTracks else inr df, out ++ ev) /\
    files_written ev
    = if save_clean_copy then [(clean_path csv_path, df)] else [].
Proof.
  intros Hex Hread Hc Hw.
  destruct (validate_run csv_path save_clean_copy raw out Hex Hread)
    as (ev & Hv & Hf).
  rewrite Hc in Hv, Hf. exists ev.
  destruct save_clean_copy; rewrite ?Hw in Hv, Hf; now split.
Qed.

Lemma cleaned_id_not_numeric (raw df : DataFrame) :
  frame_ok raw = true ->
  cleaned float_str raw = Some df ->
  ~ In "id"%string (numeric_columns df).
Proof.
  intros Hok Hc.
  destruct (cleaned_inv raw df Hok Hc) as (cols & Hd & Hdf & Hok1 & Hl).
  destruct (drop_duplicates_ok (id_cleaned float_str raw) cols Hok1)
    as (Hok2 & _ & _).
  pose proof (reset_index_well_formed _ Hok2) as Hw. rewrite <- Hdf in Hw.
  destruct (well_formed_inv df Hw) as (_ & _ & Hnd).
  destruct (column_data raw "id") as [d|] eqn:Ed.
  - destruct (cleaned_ids raw df d Hok Hc Ed) as (ids & Hids & _).
    now apply (text_column_not_numeric df "id" (map Some ids)).
  - intros Hin. apply numeric_columns_labels in Hin. rewrite Hl in Hin.
    apply str_in_In in Hin.
    rewrite <- has_column_str_in, column_data_has, Ed in Hin. discriminate.
Qed.

(** X30: a catalog which validate_and_clean_csv returns and for which the
    recommender finds a feature column passes the feature test of
    load_songs_from_csv: the loader returns this very frame and writes no
    file. *)
Theorem load_songs_from_csv_accepts_usable_catalog
        (csv_path : string) (DEFAULT_CSV_PATH : option string)
        (raw df : DataFrame) (out out1 : list loader_event) :
  read_csv csv_path = inr raw ->
  frame_ok raw = true ->
  validate_and_clean_csv float_str path_exists csv_files_beside read_csv
    clean_path to_csv csv_path false (out ++ [PrintLoading csv_path])
  = (inr df, out1) ->
  feature_schema df <> [] ->
  exists out',
    load_songs_from_csv float_str path_exists csv_files_beside read_csv
      clean_path to_csv (Some csv_path) DEFAULT_CSV_PATH out
    = (inr df, out') /\
    files_written out' = files_written out.
Proof.
  intros Hread Hok Hrun Hf.
  destruct (validate_returns_inv _ _ _ _ _ _ Hread Hrun)
    as (Hc & He & ev & Hout & Hw).
  pose proof (available_features_nonempty df Hf
                (cleaned_id_not_numeric raw df Hok Hc)) as Hav.
  unfold load_songs_from_csv, lbind, lprint, lreraise. rewrite Hrun.
  destruct (available_features df) as [|a t] eqn:Ea; [contradiction|].
  cbn [is_nil]. unfold lret.
  destruct (negb (is_nil (filter (fun c => negb (str_in c (map label (columns df))))
                                 audio_feature_columns)));
    destruct (is_nil (filter (fun c => str_in c (map label (columns df)))
                             audio_feature_columns));
    (eexists; split; [reflexivity|]);
    rewrite Hout, !files_written_app, Hw; cbn; now rewrite !app_nil_r.
Qed.

End LoaderFacts.

Lemma validate_and_clean_csv_well_formed_witness :
  well_formed clean_songs = true /\
  index clean_songs <> [] /\
  length (index clean_songs) <= length (index raw_songs) /\
  map label (columns clean_songs) = map label (columns raw_songs).
Proof.
  apply (validate_and_clean_csv_well_formed plain_float
           (fun _ => true) (fun _ => None) (fun _ => inr raw_songs)
           (fun p => String.append p "_clean") (fun _ _ => None)
           "songs.csv" true raw_songs clean_songs []
           (snd (validate_and_clean_csv plain_float
                   (fun _ => true) (fun _ => None) (fun _ => inr raw_songs)
                   (fun p => String.append p "_clean") (fun _ _ => None)
                   "songs.csv" true []))).
  - reflexivity.
  - reflexivity.
  - reflexivity.
Defined.

Lemma validate_and_clean_csv_distinct_keys_witness :
  (exists cols,
      duplicate_cols raw_songs = Some cols /\
      ForallOrdPairs (fun a b => key_eqb b a = false) (row_keys clean_songs cols)) /\
  (has_column raw_songs "id" = true ->
   exists ids,
     column_data clean_songs "id" = Some (text ids) /\
     Forall (fun s => s <> EmptyString /\ strip s = s) ids).
Proof.
  apply (validate_and_clean_csv_distinct_keys plain_float
           (fun _ => true) (fun _ => None) (fun _ => inr raw_songs)
           (fun p => String.append p "_clean") (fun _ _ => None)
           "songs.csv" false raw_songs clean_songs []
           (snd (validate_and_clean_csv plain_float
                   (fun _ => true) (fun _ => None) (fun _ => inr raw_songs)
                   (fun p => String.append p "_clean") (fun _ _ => None)
                   "songs.csv" false []))).
  - reflexivity.
  - reflexivity.
  - reflexivity.
Defined.

Lemma validate_and_clean_csv_writes_witness :
  exists ev,
    validate_and_clean_csv plain_float
      (fun _ => true) (fun _ => None) (fun _ => inr raw_songs)
      (fun p => String.append p "_clean") (fun _ _ => None)
      "songs.csv" true []
    = (if df_empty clean_songs then inl NoValidTracks else inr clean_songs,
       [] ++ ev) /\
    files_written ev
    = if true then [(String.append "songs.csv" "_clean", clean_songs)] else [].
Proof.
  apply (validate_and_clean_csv_writes plain_float
           (fun _ => true) (fun _ => None) (fun _ => inr raw_songs)
           (fun p => String.append p "_clean") (fun _ _ => None)
           "songs.csv" true raw_songs clean_songs []); reflexivity.
Defined.

Lemma load_songs_from_csv_accepts_usable_catalog_witness :
  exists out',
    load_songs_from_csv plain_float
      (fun _ => true) (fun _ => None) (fun _ => inr raw_songs)
      (fun p => String.append p "_clean") (fun _ _ => None)
      (Some "songs.csv"%string) None []
    = (inr clean_songs, out') /\
    files_written out' = files_written [].
Proof.
  apply (load_songs_from_csv_accepts_usable_catalog plain_float
           (fun _ => true) (fun _ => None) (fun _ => inr raw_songs)
           (fun p => String.append p "_clean") (fun _ _ => None)
           "songs.csv" None raw_songs clean_songs []
           (snd (validate_and_clean_csv plain_float
                   (fun _ => true) (fun _ => None) (fun _ => inr raw_songs)
                   (fun p => String.append p "_clean") (fun _ _ => None)
                   "songs.csv" false ([] ++ [PrintLoading "songs.csv"])))).
  - reflexivity.
  - reflexivity.
  - reflexivity.
  - vm_compute. discriminate.
Defined.


(** * [recommend_from_song], whatever the libraries return *)

Lemma numpy_argsort_sorts : sorts_ascending Numpy.argsort.
Proof.
  intros a. split; [apply NumpyFacts.argsort_perm|apply NumpyFacts.argsort_sorted].
Qed.

(** The first embedding is the second one at the functions of [Sklearn]
    and [Numpy]. *)
Lemma recommend_from_song_instance
      (float_str : R -> string) (song_name : string) (df : DataFrame) (n : Z) :
  recommend_from_song float_str song_name df n
  = recommend_from_song_calling float_str Sklearn.fit_transform
      Sklearn.cosine_similarity Numpy.argsort song_name df n.
Proof. reflexivity. Qed.

Section CallingFacts.

Variable float_str : R -> string.
Variable fit_transform : Sklearn.matrix -> outcome Sklearn.matrix.
Variable cosine_similarity :
  Sklearn.matrix -> Sklearn.matrix -> outcome Sklearn.matrix.
Variable argsort : list R -> list nat.

Lemma sorts_ascending_range (a : list R) (i : nat) :
  sorts_ascending argsort -> In i (argsort a) -> i < length a.
Proof.
  intros Hs Hi. destruct (Hs a) as [Hp _].
  apply (Permutation_in _ Hp) in Hi. apply in_seq in Hi. lia.
Qed.

Lemma sorts_ascending_NoDup (a : list R) :
  sorts_ascending argsort -> NoDup (argsort a).
Proof.
  intros Hs. destruct (Hs a) as [Hp _].
  apply (Permutation_NoDup (Permutation_sym Hp)), seq_NoDup.
Qed.

Lemma sorts_ascending_length (a : list R) :
  sorts_ascending argsort -> length (argsort a) = length a.
Proof.
  intros Hs. destruct (Hs a) as [Hp _].
  rewrite (Permutation_length Hp). apply length_seq.
Qed.

(** The first of the descending order is a position of maximal value. *)
Lemma sorts_ascending_head_max (a : list R) (d : nat) (t : list nat) :
  sorts_ascending argsort ->
  rev (argsort a) = d :: t ->
  forall j, j < length a -> (nth j a 0 <= nth d a 0)%R.
Proof.
  intros Hsa E j Hj. destruct (Hsa a) as [Hp Hs].
  apply (StronglySorted_rev (fun i j => (nth i a 0 <= nth j a 0)%R)) in Hs.
  rewrite E in Hs. inversion Hs as [|? ? _ Hd]; subst.
  assert (Hin : In j (d :: t)).
  { rewrite <- E. apply -> in_rev.
    apply (Permutation_in _ (Permutation_sym Hp)). apply in_seq. lia. }
  destruct Hin as [<-|Hin]; [lra|].
  rewrite Forall_forall in Hd. now apply Hd.
Qed.

(** A valid call on which the two library calls return arrays with one
    row, and one score, per row of the catalog. *)
Lemma recommend_from_song_calling_found
      (song_name : string) (df : DataFrame) (n : Z)
      (Y K : Sklearn.matrix) (sims : list R) :
  valid_call song_name df = true ->
  sorts_ascending argsort ->
  fit_transform (feature_matrix df) = Return Y ->
  length Y = length (index df) ->
  cosine_similarity [nth (query_position song_name df) Y []] Y = Return K ->
  hd_error K = Some sims ->
  length sims = length (index df) ->
  (forall out,
    recommend_from_song_calling float_str fit_transform cosine_similarity argsort
                                song_name df n out
    = (Return (recommendations_of float_str df sims
                 (py_slice 1 (n + 1) (rev (argsort sims)))),
       out ++ printed_for song_name df
                (recommendations_of float_str df sims
                   (py_slice 1 (n + 1) (rev (argsort sims)))))) /\
  index (recommendations_of float_str df sims
           (py_slice 1 (n + 1) (rev (argsort sims))))
  = map Z.of_nat (py_slice 1 (n + 1) (rev (argsort sims))).
Proof.
  intros Hv Hsa Hfit HYlen Hcos HK Hsl.
  destruct (valid_call_inv _ _ Hv)
    as [Hw [[tracks [Hfind [Hmask Hcont]]] [Hart Hfeat]]].
  destruct (well_formed_inv _ Hw) as [Hidx [Hcols Hnd]].
  assert (Hlen : length (song_mask df song_name) = length (index df)).
  { rewrite Hmask, col_len_eq_str. rewrite Forall_forall in Hcols.
    apply Hcols. now apply find_some in Hfind as [? _]. }
  assert (Hex : existsb (fun b => b) (song_mask df song_name) = true).
  { rewrite Hmask. exact Hcont. }
  destruct (first_true_spec (song_mask df song_name) 0 Hex) as [Hp [_ Hhd]].
  fold (query_position song_name df) in Hp, Hhd.
  set (sel := py_slice 1 (n + 1) (rev (argsort sims))).
  assert (Hsel : Forall (fun i => i < length (index df)) sel).
  { apply Forall_forall. intros i Hi. unfold sel, py_slice in Hi.
    apply firstn_incl, skipn_incl in Hi. apply in_rev in Hi.
    rewrite <- Hsl. now apply sorts_ascending_range. }
  assert (Hlabels : index (recommendations_of float_str df sims sel)
                    = map Z.of_nat sel).
  { unfold recommendations_of, setitem, rows_at. cbn [index].
    apply map_ext_in. intros i Hi. rewrite Forall_forall in Hsel.
    rewrite Hidx. apply range_index_nth. now apply Hsel. }
  split; [|exact Hlabels]. intros out.
  unfold recommend_from_song_calling, bind, print, getitem, lift_opt, ret.
  fold track_column. rewrite Hfind. rewrite Hcont. cbn [negb].
  fold (feature_schema df).
  destruct (is_nil (feature_schema df)) eqn:En.
  { destruct (feature_schema df); [now contradiction Hfeat|discriminate]. }
  rewrite (feature_columns_some df Hnd). fold (feature_matrix df).
  unfold lift_outcome. rewrite Hfit.
  assert (Hq : hd_error (mask_index df (eq_str (data tracks) song_name))
               = Some (Z.of_nat (query_position song_name df))).
  { unfold mask_index. rewrite Hidx. unfold range_index.
    rewrite <- Hmask, <- Hlen. exact Hhd. }
  rewrite Hq.
  rewrite (getitem_nat [] Y (query_position song_name df)) by lia.
  rewrite Hcos, HK. fold sel.
  rewrite (iloc_some df _ Hcols Hsel).
  rewrite (take_some 0%R sims sel) by (now rewrite Hsl).
  set (recs := setitem (rows_at df sel) "similarity"
                       (Float64 (map Some (map (fun i => nth i sims 0%R) sel)))).
  destruct (has_column_find df artist_column Hart) as [a Ha].
  destruct (rows_at_find df _ _ _ Hcols Hsel Ha) as [da [Hfa Hla]].
  destruct (rows_at_find df _ _ _ Hcols Hsel Hfind) as [ds [Hfs Hls]].
  assert (Hri : length (index recs) = length sel).
  { unfold recs, setitem, rows_at. simpl. apply length_map. }
  rewrite (forM_return (spotify_link float_str recs) (link_text float_str recs)).
  2:{ intros i Hi out0. apply in_seq in Hi.
      apply (spotify_link_return float_str recs i (mkSeries (label a) da)
               (mkSeries (label tracks) ds)).
      - unfold recs, setitem. simpl columns.
        rewrite find_set_column_other by discriminate. exact Hfa.
      - unfold recs, setitem. simpl columns.
        rewrite find_set_column_other by discriminate. exact Hfs.
      - simpl. lia.
      - simpl. lia. }
  unfold recommendations_of, printed_for. fold recs.
  rewrite <- !app_assoc. reflexivity.
Qed.

(** X2: whatever arrays the two scikit-learn calls return (one row, and one
    score, per row of the catalog) and whatever order argsort gives to
    equal scores: on a valid call in which the score computed for every
    other row is strictly below the score computed for the query row, the
    query row is not among the returned rows, for every count n. *)
Theorem recommend_from_song_excludes_best_query
        (song_name : string) (df : DataFrame) (n : Z)
        (Y K : Sklearn.matrix) (sims : list R) :
  valid_call song_name df = true ->
  sorts_ascending argsort ->
  fit_transform (feature_matrix df) = Return Y ->
  length Y = length (index df) ->
  cosine_similarity [nth (query_position song_name df) Y []] Y = Return K ->
  hd_error K = Some sims ->
  length sims = length (index df) ->
  (forall j, j < length (index df) -> j <> query_position song_name df ->
             (nth j sims 0 < nth (query_position song_name df) sims 0)%R) ->
  forall out, exists recs out',
    recommend_from_song_calling float_str fit_transform cosine_similarity argsort
                                song_name df n out
    = (Return recs, out') /\
    ~ In (Z.of_nat (query_position song_name df)) (index recs).
Proof.
  intros Hv Hsa Hfit HYlen Hcos HK Hsl Hbest out.
  destruct (recommend_from_song_calling_found song_name df n Y K sims
              Hv Hsa Hfit HYlen Hcos HK Hsl) as (Hrun & Hlab).
  eexists. eexists. split; [apply Hrun|]. rewrite Hlab.
  set (q := query_position song_name df) in *.
  intros Hin. apply in_map_iff in Hin as [i [Hi Hin]].
  apply Nat2Z.inj in Hi. subst i.
  unfold py_slice in Hin. apply firstn_incl in Hin.
  pose proof (sorts_ascending_NoDup sims Hsa) as Hnd. apply NoDup_rev in Hnd.
  destruct (rev (argsort sims)) as [|d t] eqn:E.
  { rewrite skipn_nil in Hin. exact Hin. }
  assert (Hd : d < length (index df)).
  { rewrite <- Hsl. apply (sorts_ascending_range sims d Hsa), in_rev.
    rewrite E. now left. }
  assert (Hdq : d = q).
  { destruct (Nat.eq_dec d q) as [Heq|Hne]; [exact Heq|exfalso].
    assert (Hq : q < length (index df)).
    { rewrite <- Hsl. apply (sorts_ascending_range sims q Hsa), in_rev.
      rewrite E. now apply skipn_incl in Hin. }
    pose proof (sorts_ascending_head_max sims d t Hsa E q) as Hmax.
    rewrite Hsl in Hmax. specialize (Hmax Hq).
    specialize (Hbest d Hd Hne). lra. }
  subst d. inversion Hnd as [|? ? Hq Ht]; subst.
  replace (Z.to_nat (if (1 <? 0)%Z
                     then Z.max 0 (1 + Z.of_nat (length (q :: t)))
                     else Z.min 1 (Z.of_nat (length (q :: t))))) with 1 in Hin.
  - cbn [skipn] in Hin. contradiction.
  - replace (1 <? 0)%Z with false by reflexivity.
    rewrite Z.min_l; [reflexivity|]. simpl length. lia.
Qed.

(** X6: under the same conditions, when the score computed for some row
    is strictly above the score computed for the query row (the rounding
    of float64 can leave the query row a score below 1 and below the score
    of another row) and n >= N - 1, the query row is among the returned
    rows: the row that line 48 drops is a row of maximal score, which the
    query row then is not. *)
Theorem recommend_from_song_returns_outscored_query
        (song_name : string) (df : DataFrame) (n : Z)
        (Y K : Sklearn.matrix) (sims : list R) :
  valid_call song_name df = true ->
  sorts_ascending argsort ->
  fit_transform (feature_matrix df) = Return Y ->
  length Y = length (index df) ->
  cosine_similarity [nth (query_position song_name df) Y []] Y = Return K ->
  hd_error K = Some sims ->
  length sims = length (index df) ->
  (exists j, j < length (index df) /\
             (nth (query_position song_name df) sims 0 < nth j sims 0)%R) ->
  (Z.of_nat (length (index df)) - 1 <= n)%Z ->
  forall out, exists recs out',
    recommend_from_song_calling float_str fit_transform cosine_similarity argsort
                                song_name df n out
    = (Return recs, out') /\
    In (Z.of_nat (query_position song_name df)) (index recs).
Proof.
  intros Hv Hsa Hfit HYlen Hcos HK Hsl [j [Hj Hless]] Hn out.
  destruct (recommend_from_song_calling_found song_name df n Y K sims
              Hv Hsa Hfit HYlen Hcos HK Hsl) as (Hrun & Hlab).
  eexists. eexists. split; [apply Hrun|]. rewrite Hlab.
  set (q := query_position song_name df) in *.
  apply in_map.
  assert (Hq : q < length sims).
  { rewrite Hsl. unfold q, query_position.
    destruct (valid_call_inv _ _ Hv)
      as [Hw [[tracks [Hfind [Hmask Hcont]]] _]].
    destruct (well_formed_inv _ Hw) as [_ [Hcols _]].
    assert (Hlen : length (song_mask df song_name) = length (index df)).
    { rewrite Hmask, col_len_eq_str. rewrite Forall_forall in Hcols.
      apply Hcols. now apply find_some in Hfind as [? _]. }
    rewrite <- Hlen. apply (first_true_spec _ 0). now rewrite Hmask. }
  assert (Hin : In q (rev (argsort sims))).
  { apply -> in_rev. destruct (Hsa sims) as [Hp _].
    apply (Permutation_in _ (Permutation_sym Hp)). apply in_seq. lia. }
  pose proof (sorts_ascending_length sims Hsa) as Hal.
  destruct (rev (argsort sims)) as [|d t] eqn:E; [contradiction|].
  assert (Hlt : length (d :: t) = length (index df)).
  { rewrite <- E, length_rev, Hal. exact Hsl. }
  assert (Hdq : d <> q).
  { intros ->. pose proof (sorts_ascending_head_max sims q t Hsa E j) as Hmax.
    rewrite Hsl in Hmax. specialize (Hmax Hj). lra. }
  destruct Hin as [Hin|Hin]; [contradiction|].
  unfold py_slice.
  replace (1 <? 0)%Z with false by reflexivity.
  replace (n + 1 <? 0)%Z with false by (symmetry; apply Z.ltb_ge; lia).
  rewrite Hlt. cbn [length] in Hlt.
  replace (Z.to_nat (Z.min 1 (Z.of_nat (length (index df))))) with 1 by lia.
  cbn [skipn]. rewrite firstn_all2; [exact Hin|]. lia.
Qed.

End CallingFacts.

Lemma recommend_from_song_excludes_best_query_witness :
  exists recs out',
    recommend_from_song_calling plain_float Sklearn.fit_transform
      Sklearn.cosine_similarity Numpy.argsort "A" catalog_two 10 []
    = (Return recs, out') /\
    ~ In (Z.of_nat (query_position "A" catalog_two)) (index recs).
Proof.
  apply (recommend_from_song_excludes_best_query plain_float
           Sklearn.fit_transform Sklearn.cosine_similarity Numpy.argsort
           "A" catalog_two 10
           (Exact.standardize (feature_matrix catalog_two))
           [similarities "A" catalog_two] (similarities "A" catalog_two)).
  - reflexivity.
  - exact numpy_argsort_sorts.
  - apply SklearnFacts.fit_transform_return. reflexivity.
  - rewrite Two.two_standardized. reflexivity.
  - unfold similarities. apply SklearnFacts.cosine_similarity_return.
    + rewrite Two.two_standardized. reflexivity.
    + rewrite Two.two_standardized. reflexivity.
  - reflexivity.
  - rewrite Two.two_similarities. reflexivity.
  - intros j Hj Hne. rewrite Two.two_similarities.
    change (query_position "A" catalog_two) with 0 in *.
    change (length (index catalog_two)) with 2 in Hj.
    destruct j as [|[|j]]; [contradiction|simpl; lra|lia].
Defined.

Lemma recommend_from_song_returns_outscored_query_witness :
  exists recs out',
    recommend_from_song_calling plain_float (fun X => Return X)
      (fun _ _ => Return [[0.9999999999999999; 0.9999999999999998; 0.5]%R])
      Numpy.argsort "Stay" catalog_covers 10 []
    = (Return recs, out') /\
    In (Z.of_nat (query_position "Stay" catalog_covers)) (index recs).
Proof.
  apply (recommend_from_song_returns_outscored_query plain_float
           (fun X => Return X)
           (fun _ _ => Return [[0.9999999999999999; 0.9999999999999998; 0.5]%R])
           Numpy.argsort "Stay" catalog_covers 10
           (feature_matrix catalog_covers)
           [[0.9999999999999999; 0.9999999999999998; 0.5]%R]
           [0.9999999999999999; 0.9999999999999998; 0.5]%R).
  - reflexivity.
  - exact numpy_argsort_sorts.
  - reflexivity.
  - reflexivity.
  - reflexivity.
  - reflexivity.
  - reflexivity.
  - exists 0. split; [simpl; lia|].
    change (query_position "Stay" catalog_covers) with 1. simpl. lra.
  - simpl. lia.
Defined.


(** * The order of equal scores *)















